(** * HyperparameterSearcher: a shallow embedding and its verified properties

    The development follows [ml/unsorted/henri/hyperparameter_searcher.py].

    Python objects that the class shares with its callers (the two
    configuration dictionaries, the candidate lists, the dictionaries it
    returns) live in an explicit heap and are handled through references, so
    that copying ([dict.copy], [list(...)]) and in-place updates
    ([d[k] = v], [list.pop]) are distinguished.  Exceptions are an explicit
    outcome, and the effects of user-supplied callables and of the warnings
    machinery are threaded through the store. *)

From stdpp Require Import base list strings gmap.
From Stdlib Require Import ZArith Lia.

Local Open Scope Z_scope.

(** ** Exceptions and warnings *)

(** One entry of the [errors] list collected by [_check_config]. *)
Inductive problem :=
  | NotHyperparameters (names : gset string)
      (* f'{default_errors} are not hyperparameters' *)
  | CallError (hyp_name : string) (msg : string).
      (* f'{hyp_name} call error: {ex}' *)

(** The second operand of an [assert] statement. *)
Inductive assert_msg :=
  | NoMessage
  | Problems (errors : list problem)
  | NRepError (n_rep n len_interests : Z).

(** The exceptions of the module's own code, by class, and [UserError] for
    any exception that comes out of a user-supplied callable or out of the
    random source, whatever its class, with its message [str(ex)].
    [TypeError] stands for an operation on an object of the wrong kind. *)
Inductive exn :=
  | AssertionError (msg : assert_msg)
  | NameError (name : string)
  | KeyError (key : string)
  | IndexError
  | ValueError
  | ZeroDivisionError
  | TypeError
  | UserError (msg : string).

Inductive warning :=
  | NoDefaultValues (names : gset string)
      (* f'{not_covered_defaults} have no default values' *)
  | MissingDefault (hyp_name : string).
      (* 'Missing default for hyperparameter {}'.format(hyp_name) *)

Definition is_assertion (e : exn) : bool :=
  match e with AssertionError _ => true | _ => false end.

(** [str(ex)] for the exceptions of the model. *)
Definition str_exn (e : exn) : string :=
  match e with
  | UserError msg => msg
  | NameError name => ("name '" +:+ name +:+ "' is not defined")%string
  | KeyError key => ("'" +:+ key +:+ "'")%string
  | IndexError => "list index out of range"%string
  | ValueError => "value is not in list"%string
  | ZeroDivisionError => "integer division or modulo by zero"%string
  | TypeError => "object is not callable"%string
  | AssertionError _ => EmptyString
  end.

Inductive outcome (A : Type) :=
  | Ok (a : A)
  | Raise (e : exn).
Arguments Ok {A} a.
Arguments Raise {A} e.

(** References are indices into the heap. *)
Definition loc := nat.

Section Model.

(** [value] stands for the plain (immutable, neither list nor callable)
    Python values: numbers, strings, [None], tuples of those.  They are
    compared with [==], which is taken to be decidable equality.  [W] is the
    state of whatever the user-supplied callables and the random source
    depend on. *)
Context {value : Type} `{!EqDecision value} {W : Type}.

(** A zero-argument callable: it returns a value or raises, and may change
    the outside world.  It does not touch the objects of the heap. *)
Definition callable : Type := W → (string + value) * W.

(** A Python value as the class tells them apart:
    [isinstance(x, list)], else [callable(x)], else anything else.
    A hyperparameter generator is such a value. *)
Inductive pyval :=
  | PyList (l : loc)
  | PyCallable (f : callable)
  | PyOther (v : value).

(** A [dict] with string keys, in insertion order. *)
Definition dict : Type := list (string * pyval).

(** Heap objects: candidate lists hold plain values. *)
Inductive obj :=
  | OList (xs : list value)
  | ODict (d : dict).

Record store := Store {
  heap : list obj;
  world : W;
  warned : list warning;
}.

Definition set_heap (h : list obj) (s : store) : store :=
  Store h (world s) (warned s).
Definition set_world (w : W) (s : store) : store :=
  Store (heap s) w (warned s).
Definition add_warning (x : warning) (s : store) : store :=
  Store (heap s) (world s) (warned s ++ [x]).

(** ** The monad of store-passing computations that may raise *)

Definition M (A : Type) : Type := store → outcome A * store.

Definition ret {A} (a : A) : M A := λ s, (Ok a, s).
Definition raise {A} (e : exn) : M A := λ s, (Raise e, s).
Definition bind {A B} (m : M A) (k : A → M B) : M B :=
  λ s, match m s with
       | (Ok a, s') => k a s'
       | (Raise e, s') => (Raise e, s')
       end.

#[global] Instance M_ret : MRet M := @ret.
#[global] Instance M_bind : MBind M := λ A B k m, bind m k.

(** [try: m  except Exception as ex: h ex] *)
Definition try_except {A} (m : M A) (h : exn → M A) : M A :=
  λ s, match m s with
       | (Ok a, s') => (Ok a, s')
       | (Raise e, s') => h e s'
       end.

(** [assert b, msg] *)
Definition assert_ (b : bool) (msg : assert_msg) : M unit :=
  if b then ret () else raise (AssertionError msg).

(** [warnings.warn(x)] *)
Definition warn (x : warning) : M unit := λ s, (Ok (), add_warning x s).

(** [[f x for x in xs]] *)
Fixpoint mapM {A B} (f : A → M B) (xs : list A) : M (list B) :=
  match xs with
  | [] => ret []
  | x :: xs' => y ← f x; ys ← mapM f xs'; ret (y :: ys)
  end.

(** [for x in xs: acc = f acc x] *)
Fixpoint foldM {A B} (f : B → A → M B) (xs : list A) (acc : B) : M B :=
  match xs with
  | [] => ret acc
  | x :: xs' => acc' ← f acc x; foldM f xs' acc'
  end.

(** [for x in xs: f x] *)
Fixpoint forM_ {A} (xs : list A) (f : A → M unit) : M unit :=
  match xs with
  | [] => ret ()
  | x :: xs' => f x;; forM_ xs' f
  end.

(** [range(n)] *)
Definition range (n : Z) : list Z := Z.of_nat <$> seq 0 (Z.to_nat n).

(** [a // b] on integers *)
Definition floordiv (a b : Z) : M Z :=
  if decide (b = 0) then raise ZeroDivisionError else ret (a / b).

(** ** Heap operations *)

Definition alloc (o : obj) : M loc :=
  λ s, (Ok (length (heap s)), set_heap (heap s ++ [o]) s).

Definition deref_list (l : loc) : M (list value) :=
  λ s, match heap s !! l with
       | Some (OList xs) => (Ok xs, s)
       | _ => (Raise TypeError, s)
       end.

Definition deref_dict (l : loc) : M dict :=
  λ s, match heap s !! l with
       | Some (ODict d) => (Ok d, s)
       | _ => (Raise TypeError, s)
       end.

Definition assign (l : loc) (o : obj) : M unit :=
  λ s, (Ok (), set_heap (<[l:=o]> (heap s)) s).

(** ** Dictionaries *)

Fixpoint dict_get (d : dict) (k : string) : option pyval :=
  match d with
  | [] => None
  | (k', v) :: d' => if decide (k' = k) then Some v else dict_get d' k
  end.

(** [d[k] = v]: an existing key keeps its position. *)
Fixpoint dict_set (d : dict) (k : string) (v : pyval) : dict :=
  match d with
  | [] => [(k, v)]
  | (k', v') :: d' =>
      if decide (k' = k) then (k, v) :: d' else (k', v') :: dict_set d' k v
  end.

Definition dict_keys (d : dict) : list string := d.*1.

(** [dict(pairs)] *)
Definition dict_of_pairs (pairs : list (string * pyval)) : dict :=
  foldl (λ d kv, dict_set d kv.1 kv.2) [] pairs.

(** [d[k]] on a dictionary object *)
Definition dict_getitem (l : loc) (k : string) : M pyval :=
  d ← deref_dict l;
  match dict_get d k with
  | Some v => ret v
  | None => raise (KeyError k)
  end.

(** [d[k] = v] on a dictionary object *)
Definition dict_setitem (l : loc) (k : string) (v : pyval) : M unit :=
  d ← deref_dict l;
  assign l (ODict (dict_set d k v)).

(** ** Lists *)

(** [xs[i]] with Python's negative indices *)
Definition py_index {A} (xs : list A) (i : Z) : option A :=
  if decide (0 ≤ i) then xs !! Z.to_nat i
  else if decide (- Z.of_nat (length xs) ≤ i)
       then xs !! Z.to_nat (Z.of_nat (length xs) + i)
       else None.

Definition list_getitem {A} (xs : list A) (i : Z) : M A :=
  match py_index xs i with
  | Some x => ret x
  | None => raise IndexError
  end.

Definition isinstance_list (g : pyval) : bool :=
  match g with PyList _ => true | _ => false end.

Definition is_callable (g : pyval) : bool :=
  match g with PyCallable _ => true | _ => false end.

(** The elements of a value that is iterated over or measured; the class
    only does so after checking that the value is a list. *)
Definition list_elems (g : pyval) : M (list value) :=
  match g with
  | PyList l => deref_list l
  | _ => raise TypeError
  end.

(** [len(g)] *)
Definition py_len (g : pyval) : M Z :=
  xs ← list_elems g; ret (Z.of_nat (length xs)).

(** [list(g)]: a new list object with the same elements *)
Definition list_copy (g : pyval) : M loc :=
  xs ← list_elems g; alloc (OList xs).

(** Position of the first element equal to [x]. *)
Fixpoint index_of (xs : list value) (x : value) : option nat :=
  match xs with
  | [] => None
  | y :: xs' => if decide (y = x) then Some 0%nat else S <$> index_of xs' x
  end.

(** [l.index(x)]: the elements are plain values, so a list or a callable
    equals none of them. *)
Definition list_index (l : loc) (x : pyval) : M nat :=
  xs ← deref_list l;
  match x with
  | PyOther v =>
      match index_of xs v with
      | Some i => ret i
      | None => raise ValueError
      end
  | _ => raise ValueError
  end.

(** [l.pop(i)] for [0 <= i] *)
Definition list_pop (l : loc) (i : nat) : M value :=
  xs ← deref_list l;
  match xs !! i with
  | Some x => assign l (OList (delete i xs));; ret x
  | None => raise IndexError
  end.

(** [g()] *)
Definition call (g : pyval) : M pyval :=
  match g with
  | PyCallable f =>
      λ s, match f (world s) with
           | (inr v, w) => (Ok (PyOther v), set_world w s)
           | (inl msg, w) => (Raise (UserError msg), set_world w s)
           end
  | _ => raise TypeError
  end.

(** ** The module globals

    The module starts with [import warnings] and nothing else, and the only
    other name it defines is the class.  [_generate_random] refers to a
    global [np]: the name is looked up when the call is evaluated.  The
    binding of that name is a parameter here; [None] is the module as it is
    written.  When bound, [np.random.choice] is an external function of the
    list's elements with the shape of a callable. *)
Variable np : option (list value → callable).

Definition np_random_choice (g : pyval) : M pyval :=
  match np with
  | None => raise (NameError "np"%string)
  | Some choice => xs ← list_elems g; call (PyCallable (choice xs))
  end.

(** ** The interpreter

    [_check_config] goes through a [set] of strings with [for].  Python
    visits the elements of a set in an order that depends on the hashes of
    the strings, which differ from one run of the interpreter to the next.
    That order is a parameter here: [iter_set X] lists the elements of [X]
    in the order in which the running interpreter iterates over [X]. *)
Variable iter_set : gset string → list string.

(** ** class HyperparameterSearcher *)

Record HyperparameterSearcher := Searcher {
  hyperparams : loc;
  hyp_defaults : loc;
}.

Definition _check_config (self : HyperparameterSearcher) : M unit :=
  let errors : list problem := [] in
  gens ← deref_dict (hyperparams self);
  defs ← deref_dict (hyp_defaults self);
  let all_hyp : gset string := list_to_set (dict_keys gens) in
  let callable_hyp : gset string :=
    list_to_set (dict_keys (filter (λ kv, is_callable kv.2 = true) gens)) in
  let non_callable_hyp := all_hyp ∖ callable_hyp in
  (* check that hyp_defaults references proper hyperparameters *)
  let default_errors : gset string := list_to_set (dict_keys defs) ∖ all_hyp in
  let errors :=
    if decide (size default_errors ≠ 0%nat)
    then errors ++ [NotHyperparameters default_errors]
    else errors in
  (* check that callable hyperparameters take no arguments *)
  errors ← foldM (λ errors hyp_name,
              try_except
                (g ← dict_getitem (hyperparams self) hyp_name;
                 call g;;
                 ret errors)
                (λ ex, ret (errors ++ [CallError hyp_name (str_exn ex)])))
            (iter_set callable_hyp) errors;
  (* check that all hyperparameters are defaults *)
  let covered_defaults := non_callable_hyp ∪ list_to_set (dict_keys defs) in
  let not_covered_defaults :=
    (list_to_set (dict_keys gens) : gset string) ∖ covered_defaults in
  (if decide (size not_covered_defaults ≠ 0%nat)
   then warn (NoDefaultValues not_covered_defaults)
   else ret ());;
  assert_ (bool_decide (length errors = 0%nat)) (Problems errors).

Definition __init__ (hyperparams_arg : loc) (hyp_defaults_arg : option loc)
  : M HyperparameterSearcher :=
  hyp_defaults ← match hyp_defaults_arg with
                 | None => alloc (ODict [])
                 | Some l => ret l
                 end;
  d ← deref_dict hyperparams_arg;
  hp ← alloc (ODict d);                          (* hyperparams.copy() *)
  let self := Searcher hp hyp_defaults in
  _check_config self;;
  ret self.

Definition _generate_random (generator : pyval) : M pyval :=
  if isinstance_list generator then np_random_choice generator
  else if is_callable generator then call generator
  else ret generator.

Definition _choose_random (self : HyperparameterSearcher) (hyp_name : string) : M pyval :=
  generator ← dict_getitem (hyperparams self) hyp_name;
  _generate_random generator.

Definition _choose_default (self : HyperparameterSearcher) (hyp_name : string) : M pyval :=
  defs ← deref_dict (hyp_defaults self);
  match dict_get defs hyp_name with
  | Some v => ret v
  | None =>
      generator ← dict_getitem (hyperparams self) hyp_name;
      if isinstance_list generator then
        xs ← list_elems generator;
        x ← list_getitem xs 0;                    (* generator[0] *)
        ret (PyOther x)
      else if is_callable generator then
        warn (MissingDefault hyp_name);;
        call generator
      else ret generator
  end.

Definition default_dict (self : HyperparameterSearcher) : M loc :=
  gens ← deref_dict (hyperparams self);
  pairs ← mapM (λ hyp_name, v ← _choose_default self hyp_name;
                            ret (hyp_name, v))
               (dict_keys gens);
  alloc (ODict (dict_of_pairs pairs)).

Definition random_dict (self : HyperparameterSearcher) : M loc :=
  gens ← deref_dict (hyperparams self);
  pairs ← mapM (λ item : string * pyval,
                  v ← _choose_random self item.1;
                  ret (item.1, v))
               gens;
  alloc (ODict (dict_of_pairs pairs)).

Definition default_search (self : HyperparameterSearcher) (n : Z) : M (list loc) :=
  mapM (λ _, default_dict self) (range n).

Definition random_search (self : HyperparameterSearcher) (n : Z) : M (list loc) :=
  mapM (λ _, random_dict self) (range n).

Definition one_value_search (self : HyperparameterSearcher) (interests : list string)
    (n : Z) : M (list loc) :=
  n_rep ← floordiv n (Z.of_nat (length interests));
  assert_ (bool_decide (n_rep > 0))
          (NRepError n_rep n (Z.of_nat (length interests)));;
  result_search ← default_search self n;
  forM_ (range n) (λ i,
    hyp_name ← list_getitem interests (i / n_rep);
    v ← _choose_random self hyp_name;
    d ← list_getitem result_search i;
    dict_setitem d hyp_name v);;
  ret result_search.

Definition one_value_grid_search (self : HyperparameterSearcher) (interests : list string)
  : M (list loc) :=
  gs ← mapM (λ interest, dict_getitem (hyperparams self) interest) interests;
  assert_ (forallb isinstance_list gs) NoMessage;;
  lens ← mapM (λ interest, g ← dict_getitem (hyperparams self) interest;
                           py_len g)
              interests;
  let n_unique_tuples :=
    foldr Z.add 0 lens + 1 - Z.of_nat (length interests) in
  (* construct hyperparameter dicts without default values *)
  non_default_hyperparams ← alloc (ODict []);
  forM_ interests (λ hyp_name,
    g ← dict_getitem (hyperparams self) hyp_name;
    non_default_list ← list_copy g;
    d ← _choose_default self hyp_name;
    i ← list_index non_default_list d;
    list_pop non_default_list i;;
    dict_setitem non_default_hyperparams hyp_name (PyList non_default_list));;
  result_search ← default_search self n_unique_tuples;
  search_i ← foldM (λ search_i hyp_name,
      g ← dict_getitem non_default_hyperparams hyp_name;
      xs ← list_elems g;
      foldM (λ search_i value,
          d ← list_getitem result_search search_i;
          dict_setitem d hyp_name (PyOther value);;
          ret (search_i + 1))
        xs search_i)
    interests 1;                      (* first dictionary is the default *)
  assert_ (bool_decide (search_i = n_unique_tuples)) NoMessage;;
  ret result_search.

Definition custom_search (self : HyperparameterSearcher) (overwritten_hyp : loc) (n : Z)
  : M (list loc) :=
  result_search ← default_search self n;
  forM_ (range n) (λ i,
    items ← deref_dict overwritten_hyp;
    forM_ items (λ item : string * pyval,
      v ← _generate_random item.2;
      d ← list_getitem result_search i;
      dict_setitem d item.1 v));;
  ret result_search.


(** ** Vocabulary of the statements *)

(** The computation [m] never fails one of the class's own assertions. *)
Definition never_asserts {A} (m : M A) : Prop :=
  ∀ s e s', m s = (Raise e, s') → is_assertion e = false.

(** The names of the callable generators, in the order in which the
    interpreter goes through the set [callable_hyp]. *)
Definition callable_names (gens : dict) : list string :=
  iter_set (list_to_set
              (dict_keys (filter (λ kv, is_callable kv.2 = true) gens))
            : gset string).

(** What the calls of the callables named [names] give, one after the other,
    the first of them made in world [w]. *)
Fixpoint probes (gens : dict) (names : list string) (w : W)
  : list (string * (string + value)) :=
  match names with
  | [] => []
  | name :: names' =>
      match dict_get gens name with
      | Some (PyCallable f) => (name, (f w).1) :: probes gens names' (f w).2
      | _ => probes gens names' w
      end
  end.

(** The world after those calls. *)
Fixpoint probes_world (gens : dict) (names : list string) (w : W) : W :=
  match names with
  | [] => w
  | name :: names' =>
      match dict_get gens name with
      | Some (PyCallable f) => probes_world gens names' (f w).2
      | _ => probes_world gens names' w
      end
  end.

(** One [CallError] per call that raised, in the order of the calls. *)
Definition call_errors (tr : list (string * (string + value)))
  : list problem :=
  omap (λ p, match p.2 with
             | inl msg => Some (CallError p.1 msg)
             | inr _ => None
             end) tr.

(** The keys of the defaults map that are no key of the generator map. *)
Definition unknown_defaults (gens defs : dict) : gset string :=
  list_to_set (dict_keys defs) ∖ list_to_set (dict_keys gens).

(** All problems of a configuration: the unknown default keys, as one entry,
    then every call error. *)
Definition config_problems (gens defs : dict) (w : W) : list problem :=
  (if decide (unknown_defaults gens defs ≠ ∅)
   then [NotHyperparameters (unknown_defaults gens defs)]
   else [])
  ++ call_errors (probes gens (callable_names gens) w).

(** The defaults map that a constructor argument stands for. *)
Definition defaults_arg_is (s : store) (arg : option loc) (defs : dict)
  : Prop :=
  match arg with
  | Some ld => heap s !! ld = Some (ODict defs)
  | None => defs = []
  end.

(** The default of [hyp_name] when it is found without calling anything: the
    entry of the defaults map, else the first candidate, else the fixed
    value.  [None] for a callable without an entry in the defaults map, for
    an empty candidate list without one, and for an unknown name. *)
Definition static_default (h : list obj) (gens defs : dict)
    (hyp_name : string) : option pyval :=
  match dict_get defs hyp_name with
  | Some v => Some v
  | None =>
      match dict_get gens hyp_name with
      | Some (PyList l) =>
          match h !! l with
          | Some (OList (x :: _)) => Some (PyOther x)
          | _ => None
          end
      | Some (PyOther x) => Some (PyOther x)
      | _ => None
      end
  end.

(** Every hyperparameter has such a default: none is a callable without an
    entry in the defaults map, and none an empty candidate list without
    one. *)
Definition has_static_defaults (h : list obj) (gens defs : dict) : Prop :=
  ∀ k, k ∈ dict_keys gens → is_Some (static_default h gens defs k).

(** The dictionary of those defaults, key by key. *)
Definition default_content (h : list obj) (gens defs : dict) : dict :=
  dict_of_pairs
    (omap (λ k, pair k <$> static_default h gens defs k) (dict_keys gens)).

(** The candidate list of a list-valued hyperparameter. *)
Definition candidates (h : list obj) (gens : dict) (hyp_name : string)
  : option (list value) :=
  match dict_get gens hyp_name with
  | Some (PyList l) =>
      match h !! l with
      | Some (OList xs) => Some xs
      | _ => None
      end
  | _ => None
  end.

(** Every list-valued generator refers to a list object of the heap. *)
Definition lists_allocated (h : list obj) (gens : dict) : Prop :=
  ∀ k l, dict_get gens k = Some (PyList l) → ∃ xs, h !! l = Some (OList xs).

(** The default of [hyp_name] is a plain value that occurs in its candidate
    list. *)
Definition default_present (h : list obj) (gens defs : dict)
    (hyp_name : string) : bool :=
  match candidates h gens hyp_name, static_default h gens defs hyp_name with
  | Some xs, Some (PyOther v) => bool_decide (v ∈ xs)
  | _, _ => false
  end.

(** The candidates of [hyp_name] without the first occurrence of its
    default. *)
Definition non_default (h : list obj) (gens defs : dict)
    (hyp_name : string) : list value :=
  match candidates h gens hyp_name, static_default h gens defs hyp_name with
  | Some xs, Some (PyOther v) =>
      match index_of xs v with
      | Some i => delete i xs
      | None => xs
      end
  | Some xs, _ => xs
  | None, _ => []
  end.

(** The dictionaries in which one interest departs from its default: for
    each interest in turn, one per remaining candidate. *)
Definition variations (h : list obj) (gens defs : dict)
    (interests : list string) : list dict :=
  interests ≫= λ hyp_name,
    (λ x, dict_set (default_content h gens defs) hyp_name (PyOther x))
    <$> non_default h gens defs hyp_name.

(** [nd_ok h0 gens defs nd cps names]: the dictionary
    [non_default_hyperparams], allocated right after the heap [h0] of the
    call and followed by the copies [cps], sends each of [names] to one of
    the copies, and that copy holds the candidates without the default. *)
Definition nd_ok (h0 : list obj) (gens defs nd : dict) (cps : list obj)
    (names : list string) : Prop :=
  ∀ k, k ∈ names →
    ∃ j, dict_get nd k = Some (PyList (length h0 + 1 + j)%nat)
         ∧ cps !! j = Some (OList (non_default h0 gens defs k)).

(** How often [x] occurs in [xs]. *)
Definition occurrences (x : value) (xs : list value) : nat :=
  length (filter (λ y, y = x) xs).

(** [calls m k s rs s']: [k] calls of [m] in a row, started in [s], all
    return; [rs] lists what they return, in order, and [s'] is the store
    after the last one. *)
Inductive calls {A} (m : M A) : nat → store → list A → store → Prop :=
  | calls_O s : calls m 0 s [] s
  | calls_S k s a s1 rs s2 :
      m s = (Ok a, s1) → calls m k s1 rs s2 → calls m (S k) s (a :: rs) s2.

(** [keeps_heap m]: [m] neither allocates nor writes. *)
Definition keeps_heap {A} (m : M A) : Prop := ∀ s, heap (m s).2 = heap s.

(** [overridden items d d']: [d'] is [d] after [d[k] = v] for every item
    [(k, g)] of [items], in order, where [v] is a value that
    [_generate_random(g)] returned. *)
Inductive overridden : dict → dict → dict → Prop :=
  | overridden_nil d : overridden [] d d
  | overridden_cons k g items d v d' sa sb :
      _generate_random g sa = (Ok v, sb) →
      overridden items (dict_set d k v) d' →
      overridden ((k, g) :: items) d d'.

(** [frame b m Q]: started with at least [b] objects in the heap, [m]
    leaves the first [b] of them as they are, whether it returns or raises,
    and a value it returns satisfies [Q]. *)
Definition frame {A} (b : nat) (m : M A) (Q : A → Prop) : Prop :=
  ∀ s r s', (b ≤ length (heap s))%nat → m s = (r, s') →
    take b (heap s') = take b (heap s)
    ∧ (b ≤ length (heap s'))%nat
    ∧ ∀ a, r = Ok a → Q a.

(** The public sampling methods, as a caller may invoke them. *)
Inductive method :=
  | DefaultDict
  | RandomDict
  | DefaultSearch (n : Z)
  | RandomSearch (n : Z)
  | OneValueSearch (interests : list string) (n : Z)
  | OneValueGridSearch (interests : list string)
  | CustomSearch (overwritten_hyp : loc) (n : Z).

(** The store after one call; the caller may go on after an exception. *)
Definition after_call (self : HyperparameterSearcher) (c : method) (s : store) : store :=
  match c with
  | DefaultDict => (default_dict self s).2
  | RandomDict => (random_dict self s).2
  | DefaultSearch n => (default_search self n s).2
  | RandomSearch n => (random_search self n s).2
  | OneValueSearch interests n => (one_value_search self interests n s).2
  | OneValueGridSearch interests => (one_value_grid_search self interests s).2
  | CustomSearch overwritten_hyp n =>
      (custom_search self overwritten_hyp n s).2
  end.

Definition after_calls (self : HyperparameterSearcher) (cs : list method) (s : store)
  : store :=
  foldl (λ s c, after_call self c s) s cs.

(** ** Vocabulary of the construction and of the one-value search *)

(** The callable hyperparameters without an entry in the defaults map. *)
Definition callables_without_default (gens defs : dict) : gset string :=
  list_to_set (dict_keys (filter (λ kv, is_callable kv.2 = true) gens))
  ∖ list_to_set (dict_keys defs).

(** What a construction logs: one warning that names those
    hyperparameters, if there are any. *)
Definition config_warnings (gens defs : dict) : list warning :=
  if decide (callables_without_default gens defs ≠ ∅)
  then [NoDefaultValues (callables_without_default gens defs)]
  else [].

(** The objects that a construction allocates: the empty defaults map when
    the argument is [None], then the copy of the generator map. *)
Definition init_allocated (arg : option loc) (gens : dict) : list obj :=
  match arg with
  | None => [ODict []; ODict gens]
  | Some _ => [ODict gens]
  end.

(** [one_override gens k d d']: [d'] is [d] after [d[k] = v], where [v] is
    a value that the random resolution of the generator of [k] returned. *)
Definition one_override (gens : dict) (k : string) (d d' : dict) : Prop :=
  ∃ g v sa sb, dict_get gens k = Some g
               ∧ _generate_random g sa = (Ok v, sb)
               ∧ d' = dict_set d k v.

(** The searcher that a construction started with the heap [h] returns. *)
Definition init_self (h : list obj) (arg : option loc)
  : HyperparameterSearcher :=
  match arg with
  | None => Searcher (S (length h)) (length h)
  | Some ld => Searcher (length h) ld
  end.

(** [in_space h g v]: [v] is a value of the search space of the generator
    [g]: one of the candidates of a list, a value that a call of a callable
    returned, the fixed value itself. *)
Definition in_space (h : list obj) (g v : pyval) : Prop :=
  match g with
  | PyList l => ∃ xs x, h !! l = Some (OList xs) ∧ v = PyOther x ∧ x ∈ xs
  | PyCallable f => ∃ x w w', f w = (inr x, w') ∧ v = PyOther x
  | PyOther x => v = PyOther x
  end.

(** ** Vocabulary of the custom search

    What the claim says of the overrides, written out on the dictionaries
    and the outside world alone. *)

(** [draw g w]: a fresh resolution of an override generator that is no list,
    made in the outside world [w]: the value and the world after it.  A
    callable is called, and there is no value when the call raises; a fixed
    value is itself.  Lists are left out. *)
Definition draw (g : pyval) (w : W) : option (pyval * W) :=
  match g with
  | PyCallable f =>
      match f w with
      | (inr x, w') => Some (PyOther x, w')
      | (inl _, _) => None
      end
  | PyOther x => Some (PyOther x, w)
  | PyList _ => None
  end.

(** One dictionary: every override is drawn and entered, in the order of
    the overrides; each draw is made in the world that the one before it
    left. *)
Fixpoint override_dict (items : dict) (d : dict) (w : W)
  : option (dict * W) :=
  match items with
  | [] => Some (d, w)
  | (k, g) :: items' =>
      match draw g w with
      | Some (v, w') => override_dict items' (dict_set d k v) w'
      | None => None
      end
  end.

(** All the dictionaries, in order: the draws for a dictionary start in the
    world that the draws for the dictionary before it left. *)
Fixpoint override_dicts (items : dict) (ds : list dict) (w : W)
  : option (list dict * W) :=
  match ds with
  | [] => Some ([], w)
  | d :: ds' =>
      match override_dict items d w with
      | Some (d', w') =>
          match override_dicts items ds' w' with
          | Some (ds'', w'') => Some (d' :: ds'', w'')
          | None => None
          end
      | None => None
      end
  end.

(** [never_raises bad m]: no exception that [m] raises is one of [bad]. *)
Definition never_raises {A} (bad : exn → bool) (m : M A) : Prop :=
  ∀ s e s', m s = (Raise e, s') → bad e = false.

Definition is_value_error (e : exn) : bool :=
  match e with ValueError => true | _ => false end.

End Model.

(** ** Concrete searchers

    Plain values are integers and the outside world is a counter of the
    calls made to user-supplied callables. *)

(** [HyperparameterSearcher({'a': 1, 'b': 2})]: the caller's dictionary at
    reference 0, the fresh [hyp_defaults] at 1, the copy held by the searcher
    at 2. *)
Definition ex_fixed_store : @store Z nat :=
  Store [ODict [("a"%string, PyOther 1); ("b"%string, PyOther 2)];
         ODict [];
         ODict [("a"%string, PyOther 1); ("b"%string, PyOther 2)]]
        0%nat [].
Definition ex_fixed_self : HyperparameterSearcher := Searcher 2%nat 1%nat.

(** [HyperparameterSearcher({'a': 1, 'b': 2}, {'a': 7})]: the caller's
    generator map at reference 0, its defaults map at 1, the copy held by the
    searcher at 2. *)
Definition ex_remainder_store : @store Z nat :=
  Store [ODict [("a"%string, PyOther 1); ("b"%string, PyOther 2)];
         ODict [("a"%string, PyOther 7)];
         ODict [("a"%string, PyOther 1); ("b"%string, PyOther 2)]]
        0%nat [].
Definition ex_remainder_self : HyperparameterSearcher :=
  Searcher 2%nat 1%nat.

(** [HyperparameterSearcher({'lr': [1, 2]})]: the candidate list at
    reference 0 is shared by the caller's dictionary (1) and the searcher's
    copy (3). *)
Definition ex_list_store : @store Z nat :=
  Store [OList [1; 2];
         ODict [("lr"%string, PyList 0%nat)];
         ODict [];
         ODict [("lr"%string, PyList 0%nat)]]
        0%nat [].
Definition ex_list_self : HyperparameterSearcher := Searcher 3%nat 2%nat.

(** [HyperparameterSearcher({'a': [1, 2, 3], 'b': [10, 20]})] *)
Definition ex_grid_gens : @dict Z nat :=
  [("a"%string, PyList 0%nat); ("b"%string, PyList 1%nat)].
Definition ex_grid_store : @store Z nat :=
  Store [OList [1; 2; 3]; OList [10; 20];
         ODict ex_grid_gens; ODict []; ODict ex_grid_gens]
        0%nat [].
Definition ex_grid_self : HyperparameterSearcher := Searcher 4%nat 3%nat.

(** [HyperparameterSearcher({'a': [1, 2]}, {'a': 5})]: the default of ['a']
    is not one of its candidates. *)
Definition ex_absent_gens : @dict Z nat := [("a"%string, PyList 0%nat)].
Definition ex_absent_defs : @dict Z nat := [("a"%string, PyOther 5)].
Definition ex_absent_store : @store Z nat :=
  Store [OList [1; 2]; ODict ex_absent_gens; ODict ex_absent_defs;
         ODict ex_absent_gens]
        0%nat [].
Definition ex_absent_self : HyperparameterSearcher := Searcher 3%nat 2%nat.

(** [HyperparameterSearcher({'a': [1, 2], 'b': []})]: ['b'] has no candidate
    and no default. *)
Definition ex_empty_gens : @dict Z nat :=
  [("a"%string, PyList 0%nat); ("b"%string, PyList 1%nat)].
Definition ex_empty_store : @store Z nat :=
  Store [OList [1; 2]; OList []; ODict ex_empty_gens; ODict [];
         ODict ex_empty_gens]
        0%nat [].
Definition ex_empty_self : HyperparameterSearcher := Searcher 4%nat 3%nat.

(** The searcher over [{'a': 1, 'b': 2}] together with the overrides
    [{'z': 99}], at reference 3. *)
Definition ex_custom_items : @dict Z nat := [("z"%string, PyOther 99)].
Definition ex_custom_store : @store Z nat :=
  Store [ODict [("a"%string, PyOther 1); ("b"%string, PyOther 2)];
         ODict [];
         ODict [("a"%string, PyOther 1); ("b"%string, PyOther 2)];
         ODict ex_custom_items]
        0%nat [].

(** The arguments of
    [HyperparameterSearcher({'f': f, 'x': [1, 2]}, {'y': 5})], where every
    call of [f] raises: the generator map at reference 1, the defaults map at
    reference 2. *)
Definition ex_init_gens : @dict Z nat :=
  [("f"%string, PyCallable (λ w, (inl "boom"%string, S w)));
   ("x"%string, PyList 0%nat)].
Definition ex_init_defs : @dict Z nat := [("y"%string, PyOther 5)].
Definition ex_init_store : @store Z nat :=
  Store [OList [1; 2]; ODict ex_init_gens; ODict ex_init_defs] 0%nat [].

(** The arguments of [HyperparameterSearcher({'x': [1, 2], 'c': 3},
    {'c': 4})]: the candidate list at reference 0, the generator map at 1,
    the defaults map at 2. *)
Definition ex_shared_gens : @dict Z nat :=
  [("x"%string, PyList 0%nat); ("c"%string, PyOther 3)].
Definition ex_shared_defs : @dict Z nat := [("c"%string, PyOther 4)].
Definition ex_shared_store : @store Z nat :=
  Store [OList [1; 2]; ODict ex_shared_gens; ODict ex_shared_defs] 0%nat [].

(** [HyperparameterSearcher({'f': f})], where [f] returns the number of
    calls made before: the caller's dictionary at reference 0, the fresh
    [hyp_defaults] at 1, the copy held by the searcher at 2.  The
    construction has called [f] once. *)
Definition ex_counter_gens : @dict Z nat :=
  [("f"%string, PyCallable (λ w, (inr (Z.of_nat w), S w)))].
Definition ex_counter_store : @store Z nat :=
  Store [ODict ex_counter_gens; ODict []; ODict ex_counter_gens] 1%nat
        [NoDefaultValues {["f"%string]}].
Definition ex_counter_self : HyperparameterSearcher := Searcher 2%nat 1%nat.

(** The searcher over [{'a': 1, 'b': 2}] together with an empty dictionary
    of overrides, at reference 3. *)
Definition ex_no_override_store : @store Z nat :=
  Store [ODict [("a"%string, PyOther 1); ("b"%string, PyOther 2)];
         ODict [];
         ODict [("a"%string, PyOther 1); ("b"%string, PyOther 2)];
         ODict []]
        0%nat [].

(** A binding of [np.random.choice] that returns the first element and
    raises on an empty list. *)
Definition ex_choice (xs : list Z) : @callable Z nat :=
  λ w, match xs with
       | x :: _ => (inr x, S w)
       | [] => (inl "empty"%string, w)
       end.

(** The searcher over [{'a': 1, 'b': 2}] together with the overrides
    [{'z': f}], at reference 3, where [f] returns the number of calls made
    before. *)
Definition ex_fresh_items : @dict Z nat :=
  [("z"%string, PyCallable (λ w, (inr (Z.of_nat w), S w)))].
Definition ex_fresh_store : @store Z nat :=
  Store [ODict [("a"%string, PyOther 1); ("b"%string, PyOther 2)];
         ODict [];
         ODict [("a"%string, PyOther 1); ("b"%string, PyOther 2)];
         ODict ex_fresh_items]
        0%nat [].

(** The same searcher with the overrides [{'z': f}], at reference 3, where
    every call of [f] raises. *)
Definition ex_raising_store : @store Z nat :=
  Store [ODict [("a"%string, PyOther 1); ("b"%string, PyOther 2)];
         ODict [];
         ODict [("a"%string, PyOther 1); ("b"%string, PyOther 2)];
         ODict [("z"%string, PyCallable (λ w, (inl "boom"%string, S w)))]]
        0%nat [].

(** The searcher over [{'a': [1, 2], 'b': []}] together with the overrides
    [{'z': 99}], at reference 5. *)
Definition ex_empty_custom_store : @store Z nat :=
  Store [OList [1; 2]; OList []; ODict ex_empty_gens; ODict [];
         ODict ex_empty_gens; ODict ex_custom_items]
        0%nat [].

(** [HyperparameterSearcher({'a': [1, 2], 'f': f})], where [f] returns the
    number of calls made before and has no default: the candidate list at
    reference 0, the caller's dictionary at 1, the fresh [hyp_defaults] at
    2, the copy held by the searcher at 3.  The construction has called [f]
    once. *)
Definition ex_factory_gens : @dict Z nat :=
  [("a"%string, PyList 0%nat);
   ("f"%string, PyCallable (λ w, (inr (Z.of_nat w), S w)))].
Definition ex_factory_store : @store Z nat :=
  Store [OList [1; 2]; ODict ex_factory_gens; ODict [];
         ODict ex_factory_gens]
        1%nat [NoDefaultValues {["f"%string]}].
Definition ex_factory_self : HyperparameterSearcher := Searcher 3%nat 2%nat.

(** One order of iteration over sets of strings, for the examples. *)
Definition ex_iter_set : gset string → list string := elements.

(** * Properties *)

Section Properties.

Context {value : Type} `{!EqDecision value} {W : Type}.
Variable np : option (list value → @callable value W).
Variable iter_set : gset string → list string.

(** Whatever the order, an iteration over a set visits each of its elements
    once. *)
Hypothesis iter_set_elements : ∀ X : gset string, iter_set X ≡ₚ elements X.

Local Abbreviation M := (@M value W).
Local Abbreviation store := (@store value W).
Local Abbreviation pyval := (@pyval value W).
Local Abbreviation dict := (@dict value W).
Local Abbreviation obj := (@obj value W).
Local Abbreviation callable := (@callable value W).
Local Abbreviation never_asserts := (@never_asserts value W _).
Local Abbreviation frame := (@frame value W _).
Local Abbreviation calls := (@calls value W _).
Local Abbreviation keeps_heap := (@keeps_heap value W _).
Local Abbreviation never_raises := (@never_raises value W _).

Implicit Types (s : store) (d defs gens : dict).
Implicit Types (g v : pyval) (o : obj).
Implicit Types (f : callable).
Implicit Types (self : HyperparameterSearcher) (l : loc) (e : exn).

(** ** Running computations *)

Lemma bind_run {A B} (m : M A) (k : A → M B) s :
  (m ≫= k) s = match m s with
               | (Ok a, s') => k a s'
               | (Raise e, s') => (Raise e, s')
               end.
Proof. reflexivity. Qed.

Lemma bind_Ok {A B} (m : M A) (k : A → M B) s a s' :
  m s = (Ok a, s') → (m ≫= k) s = k a s'.
Proof. intros H. rewrite bind_run, H. reflexivity. Qed.

Lemma bind_Raise {A B} (m : M A) (k : A → M B) s e s' :
  m s = (Raise e, s') → (m ≫= k) s = (Raise e, s').
Proof. intros H. rewrite bind_run, H. reflexivity. Qed.

Lemma bind_inv_Ok {A B} (m : M A) (k : A → M B) s b s2 :
  (m ≫= k) s = (Ok b, s2) →
  ∃ a s1, m s = (Ok a, s1) ∧ k a s1 = (Ok b, s2).
Proof.
  rewrite bind_run. destruct (m s) as [[a|e] s1]; intros H.
  - eauto.
  - discriminate.
Qed.

Lemma bind_inv_Raise {A B} (m : M A) (k : A → M B) s e s2 :
  (m ≫= k) s = (Raise e, s2) →
  m s = (Raise e, s2) ∨ ∃ a s1, m s = (Ok a, s1) ∧ k a s1 = (Raise e, s2).
Proof.
  rewrite bind_run. destruct (m s) as [[a|e'] s1]; intros H.
  - right. eauto.
  - left. injection H as -> ->. reflexivity.
Qed.

Lemma ret_run {A} (a : A) s : (mret a : M A) s = (Ok a, s).
Proof. reflexivity. Qed.

Lemma assert_true msg s : assert_ true msg s = (Ok (), s).
Proof. reflexivity. Qed.

Lemma assert_false msg s :
  assert_ false msg s = (Raise (AssertionError msg), s).
Proof. reflexivity. Qed.

Lemma length_range n : length (range n) = Z.to_nat n.
Proof. unfold range. rewrite length_fmap, length_seq. reflexivity. Qed.

Lemma elem_of_range n i : i ∈ range n ↔ 0 ≤ i < n.
Proof.
  unfold range. rewrite list_elem_of_fmap. split.
  - intros (j & -> & Hj). apply elem_of_seq in Hj. lia.
  - intros Hi. exists (Z.to_nat i). split; [lia|]. apply elem_of_seq. lia.
Qed.

(** ** Computations that never fail an assertion *)

Lemma na_ret {A} (a : A) : never_asserts (mret a : M A).
Proof. intros s e s' H. discriminate. Qed.

Lemma na_raise {A} e :
  is_assertion e = false → never_asserts (raise e : M A).
Proof. intros He s e' s' H. injection H as <- _. exact He. Qed.

Lemma na_bind {A B} (m : M A) (k : A → M B) :
  never_asserts m → (∀ a, never_asserts (k a)) → never_asserts (m ≫= k).
Proof.
  intros Hm Hk s e s' H.
  apply bind_inv_Raise in H as [H | (a & s1 & _ & H)].
  - exact (Hm _ _ _ H).
  - exact (Hk a _ _ _ H).
Qed.

Lemma na_mapM {A B} (f : A → M B) xs :
  (∀ x, never_asserts (f x)) → never_asserts (mapM f xs).
Proof.
  intros Hf. induction xs as [|x xs IH]; simpl.
  - apply na_ret.
  - apply na_bind; [apply Hf|]. intros y.
    apply na_bind; [exact IH|]. intros ys. apply na_ret.
Qed.

Lemma na_foldM {A B} (f : B → A → M B) xs acc :
  (∀ b x, never_asserts (f b x)) → never_asserts (foldM f xs acc).
Proof.
  intros Hf. revert acc. induction xs as [|x xs IH]; intros acc; simpl.
  - apply na_ret.
  - apply na_bind; [apply Hf|]. intros b. apply IH.
Qed.

Lemma na_forM {A} xs (f : A → M unit) :
  (∀ x, never_asserts (f x)) → never_asserts (forM_ xs f).
Proof.
  intros Hf. induction xs as [|x xs IH]; simpl.
  - apply na_ret.
  - apply na_bind; [apply Hf|]. intros _. exact IH.
Qed.

Lemma na_alloc o : never_asserts (alloc o).
Proof. intros s e s' H. discriminate. Qed.

Lemma na_assign l o : never_asserts (assign l o).
Proof. intros s e s' H. discriminate. Qed.

Lemma na_warn x : never_asserts (warn x).
Proof. intros s e s' H. discriminate. Qed.

Lemma na_deref_list l : never_asserts (deref_list l).
Proof.
  intros s e s' H. unfold deref_list in H.
  destruct (heap s !! l) as [[|]|]; inversion H; reflexivity.
Qed.

Lemma na_deref_dict l : never_asserts (deref_dict l).
Proof.
  intros s e s' H. unfold deref_dict in H.
  destruct (heap s !! l) as [[|]|]; inversion H; reflexivity.
Qed.

Lemma na_list_getitem {A} (xs : list A) i : never_asserts (list_getitem xs i).
Proof.
  unfold list_getitem. destruct (py_index xs i).
  - apply na_ret.
  - apply na_raise. reflexivity.
Qed.

Lemma na_dict_getitem l k : never_asserts (dict_getitem l k).
Proof.
  unfold dict_getitem. apply na_bind; [apply na_deref_dict|]. intros d.
  destruct (dict_get d k); [apply na_ret | apply na_raise; reflexivity].
Qed.

Lemma na_dict_setitem l k v : never_asserts (dict_setitem l k v).
Proof.
  unfold dict_setitem. apply na_bind; [apply na_deref_dict|]. intros d.
  apply na_assign.
Qed.

Lemma na_list_elems g : never_asserts (list_elems g).
Proof.
  destruct g; simpl;
    [apply na_deref_list | apply na_raise; reflexivity ..].
Qed.

Lemma na_call g : never_asserts (call g).
Proof.
  destruct g as [l|f|v]; simpl; try (apply na_raise; reflexivity).
  intros s e s' H. destruct (f (world s)) as [[msg|v] w]; inversion H.
  reflexivity.
Qed.

Lemma na_generate_random g : never_asserts (_generate_random np g).
Proof.
  unfold _generate_random.
  destruct (isinstance_list g).
  - unfold np_random_choice. destruct np.
    + apply na_bind; [apply na_list_elems|]. intros xs. apply na_call.
    + apply na_raise. reflexivity.
  - destruct (is_callable g); [apply na_call | apply na_ret].
Qed.

Lemma na_choose_random self h : never_asserts (_choose_random np self h).
Proof.
  unfold _choose_random. apply na_bind; [apply na_dict_getitem|].
  intros g. apply na_generate_random.
Qed.

Lemma na_choose_default self h : never_asserts (_choose_default self h).
Proof.
  unfold _choose_default. apply na_bind; [apply na_deref_dict|]. intros defs.
  destruct (dict_get defs h); [apply na_ret|].
  apply na_bind; [apply na_dict_getitem|]. intros g.
  destruct (isinstance_list g).
  - apply na_bind; [apply na_list_elems|]. intros xs.
    apply na_bind; [apply na_list_getitem|]. intros x. apply na_ret.
  - destruct (is_callable g); [|apply na_ret].
    apply na_bind; [apply na_warn|]. intros _. apply na_call.
Qed.

Lemma na_default_dict self : never_asserts (default_dict self).
Proof.
  unfold default_dict. apply na_bind; [apply na_deref_dict|]. intros gens.
  apply na_bind; [|intros pairs; apply na_alloc].
  apply na_mapM. intros h.
  apply na_bind; [apply na_choose_default|]. intros v. apply na_ret.
Qed.

Lemma na_default_search self n : never_asserts (default_search self n).
Proof. apply na_mapM. intros _. apply na_default_dict. Qed.


(** ** Random resolution *)

(** The module never binds the name [np], so random resolution of a list
    raises [NameError] instead of returning an element of the list; the
    store is left as it was. *)
Lemma generate_random_list_raises (l : loc) s :
  _generate_random (None : option (list value → callable)) (PyList l) s
  = (Raise (NameError "np"), s).
Proof. reflexivity. Qed.

(** For a callable generator random resolution is the call [generator()]. *)
Lemma generate_random_callable f :
  _generate_random np (PyCallable f) = call (PyCallable f).
Proof. reflexivity. Qed.

(** Any other generator is returned as the value and nothing changes. *)
Lemma generate_random_other (x : value) s :
  _generate_random np (PyOther x) s = (Ok (PyOther x), s).
Proof. reflexivity. Qed.

(** ** [one_value_search]: the checks on [n] *)

Lemma floordiv_run a b s :
  b ≠ 0 → (floordiv a b : M Z) s = (Ok (a / b), s).
Proof. intros Hb. unfold floordiv. destruct (decide (b = 0)); [lia|done]. Qed.

Lemma div_pos_iff n k : 0 < k → (n / k > 0 ↔ k ≤ n).
Proof.
  intros Hk. split.
  - intros Hd. destruct (decide (k ≤ n)) as [|Hn]; [done|].
    assert (n / k < 1) by (apply Z.div_lt_upper_bound; lia). lia.
  - intros Hn. assert (1 ≤ n / k) by (apply Z.div_le_lower_bound; lia). lia.
Qed.

(** C9: with an empty [interests] the division [n // len(interests)] raises
    [ZeroDivisionError] for every [n], before the assertion on [n_rep] is
    reached and before anything is allocated. *)
Theorem one_value_search_empty_interests self n s :
  one_value_search np self [] n s = (Raise ZeroDivisionError, s).
Proof. reflexivity. Qed.

(** What [one_value_search] does once [n_rep > 0] is established. *)
Lemma na_one_value_search_body self interests n n_rep :
  never_asserts
    (result_search ← default_search self n;
     forM_ (range n) (λ i,
       hyp_name ← list_getitem interests (i / n_rep);
       v ← _choose_random np self hyp_name;
       d ← list_getitem result_search i;
       dict_setitem d hyp_name v);;
     mret result_search).
Proof.
  apply na_bind; [apply na_default_search|]. intros rs.
  apply na_bind; [|intros _; apply na_ret].
  apply na_forM. intros i.
  apply na_bind; [apply na_list_getitem|]. intros h.
  apply na_bind; [apply na_choose_random|]. intros v.
  apply na_bind; [apply na_list_getitem|]. intros d.
  apply na_dict_setitem.
Qed.

(** C6: for a non-empty [interests] of length [k], [one_value_search] fails
    its assertion exactly when [n < k], which for a count [n >= 0] is exactly
    when [n // k = 0]; in that case the store is unchanged: no dictionary has
    been produced. *)
Theorem one_value_search_n_too_small self interests n s :
  interests ≠ [] →
  let k := Z.of_nat (length interests) in
  ((∃ msg s', one_value_search np self interests n s
              = (Raise (AssertionError msg), s')) ↔ n < k)
  ∧ (n < k → one_value_search np self interests n s
             = (Raise (AssertionError (NRepError (n / k) n k)), s))
  ∧ (0 ≤ n → (n / k = 0 ↔ n < k)).
Proof.
  intros Hne k.
  assert (Hk : 0 < k) by (destruct interests; [done | simpl in k; lia]).
  assert (Hsmall : n < k → one_value_search np self interests n s
             = (Raise (AssertionError (NRepError (n / k) n k)), s)).
  { intros Hn. unfold one_value_search. fold k.
    rewrite (bind_Ok _ _ _ _ _ (floordiv_run n k s ltac:(lia))).
    rewrite bool_decide_eq_false_2; [reflexivity|].
    rewrite div_pos_iff by done. lia. }
  split; [split|split].
  - intros (msg & s' & Hrun).
    destruct (decide (n < k)) as [|Hge]; [done|]. exfalso.
    unfold one_value_search in Hrun. fold k in Hrun.
    rewrite (bind_Ok _ _ _ _ _ (floordiv_run n k s ltac:(lia))) in Hrun.
    rewrite bool_decide_eq_true_2 in Hrun
      by (rewrite div_pos_iff by done; lia).
    rewrite (bind_Ok _ _ _ _ _ (assert_true _ _)) in Hrun.
    apply na_one_value_search_body in Hrun. discriminate.
  - intros Hn. eauto.
  - exact Hsmall.
  - intros Hn0. split.
    + intros Hd. destruct (decide (n < k)) as [|Hge]; [done|].
      assert (n / k > 0) by (apply div_pos_iff; lia). lia.
    + intros Hn. apply Z.div_small. lia.
Qed.


(** ** Only fresh objects are written *)

Lemma frame_ret {A} b (a : A) (Q : A → Prop) : Q a → frame b (mret a) Q.
Proof.
  intros HQ s r s' Hb H. injection H as <- <-.
  split; [done|]. split; [done|]. intros a' [= <-]. exact HQ.
Qed.

Lemma frame_raise {A} b e (Q : A → Prop) : frame b (raise e) Q.
Proof.
  intros s r s' Hb H. injection H as <- <-.
  split; [done|]. split; [done|]. intros a' [=].
Qed.

Lemma frame_weaken {A} b (m : M A) (Q Q' : A → Prop) :
  frame b m Q → (∀ a, Q a → Q' a) → frame b m Q'.
Proof.
  intros Hm HQ s r s' Hb H. destruct (Hm s r s' Hb H) as (H1 & H2 & H3).
  eauto.
Qed.

Lemma frame_bind {A B} b (m : M A) (k : A → M B) Q (R : B → Prop) :
  frame b m Q → (∀ a, Q a → frame b (k a) R) → frame b (m ≫= k) R.
Proof.
  intros Hm Hk s r s' Hb H. rewrite bind_run in H.
  destruct (m s) as [[a|e] s1] eqn:Hms.
  - destruct (Hm s _ s1 Hb Hms) as (H1 & H2 & H3).
    destruct (Hk a (H3 a eq_refl) s1 r s' H2 H) as (H4 & H5 & H6).
    split; [congruence|]. done.
  - destruct (Hm s _ s1 Hb Hms) as (H1 & H2 & H3).
    injection H as <- <-. split; [done|]. split; [done|]. intros a [=].
Qed.

Lemma frame_try_except {A} b (m : M A) (h : exn → M A) (Q : A → Prop) :
  frame b m Q → (∀ e, frame b (h e) Q) → frame b (try_except m h) Q.
Proof.
  intros Hm Hh s r s' Hb H. unfold try_except in H.
  destruct (m s) as [[a|e] s1] eqn:Hms.
  - injection H as <- <-. exact (Hm s _ s1 Hb Hms).
  - destruct (Hm s _ s1 Hb Hms) as (H1 & H2 & H3).
    destruct (Hh e s1 r s' H2 H) as (H4 & H5 & H6).
    split; [congruence|]. done.
Qed.

Lemma frame_mapM {A B} b (f : A → M B) xs (Q : B → Prop) :
  (∀ x, frame b (f x) Q) → frame b (mapM f xs) (Forall Q).
Proof.
  intros Hf. induction xs as [|x xs IH]; simpl.
  - apply frame_ret. constructor.
  - eapply frame_bind; [apply Hf|]. intros y Hy.
    eapply frame_bind; [exact IH|]. intros ys Hys.
    apply frame_ret. by constructor.
Qed.

Lemma frame_foldM {A B} b (f : B → A → M B) xs acc (I : B → Prop) :
  (∀ acc x, I acc → frame b (f acc x) I) → I acc →
  frame b (foldM f xs acc) I.
Proof.
  intros Hf. revert acc. induction xs as [|x xs IH]; intros acc Hacc; simpl.
  - by apply frame_ret.
  - eapply frame_bind; [by apply Hf|]. intros acc' Hacc'. by apply IH.
Qed.

Lemma frame_forM {A} b xs (f : A → M unit) :
  (∀ x, frame b (f x) (λ _, True)) → frame b (forM_ xs f) (λ _, True).
Proof.
  intros Hf. induction xs as [|x xs IH]; simpl.
  - by apply frame_ret.
  - eapply frame_bind; [apply Hf|]. intros _ _. exact IH.
Qed.

(** A computation that leaves the heap alone. *)
Lemma frame_same_heap {A} b (m : M A) :
  (∀ s, heap (m s).2 = heap s) → frame b m (λ _, True).
Proof.
  intros Hm s r s' Hb H. pose proof (Hm s) as Hh. rewrite H in Hh. simpl in Hh.
  rewrite Hh. done.
Qed.

Lemma frame_alloc b o : frame b (alloc o) (λ l, (b ≤ l)%nat).
Proof.
  intros s r s' Hb H. injection H as <- <-. simpl.
  split; [by rewrite take_app_le|].
  split; [rewrite length_app; lia|]. intros a [= <-]. exact Hb.
Qed.

Lemma frame_assign b l o : (b ≤ l)%nat → frame b (assign l o) (λ _, True).
Proof.
  intros Hl s r s' Hb H. injection H as <- <-. simpl.
  split; [by apply take_insert_ge|].
  split; [by rewrite length_insert|]. done.
Qed.

Lemma frame_warn b x : frame b (warn x) (λ _, True).
Proof. by apply frame_same_heap. Qed.

Lemma frame_deref_list b l : frame b (deref_list l) (λ _, True).
Proof.
  apply frame_same_heap. intros s. unfold deref_list.
  by destruct (heap s !! l) as [[|]|].
Qed.

Lemma frame_deref_dict b l : frame b (deref_dict l) (λ _, True).
Proof.
  apply frame_same_heap. intros s. unfold deref_dict.
  by destruct (heap s !! l) as [[|]|].
Qed.

Lemma py_index_elem_of {A} (ys : list A) i y : py_index ys i = Some y → y ∈ ys.
Proof.
  unfold py_index. repeat case_decide; try done;
    intros Hy; by eapply list_elem_of_lookup_2.
Qed.

Lemma frame_list_getitem {A} b (ys : list A) i :
  frame b (list_getitem ys i) (λ y, y ∈ ys).
Proof.
  unfold list_getitem. destruct (py_index ys i) as [y|] eqn:Hy.
  - apply frame_ret. by eapply py_index_elem_of.
  - apply frame_raise.
Qed.

Lemma frame_dict_getitem b l k : frame b (dict_getitem l k) (λ _, True).
Proof.
  unfold dict_getitem. eapply frame_bind; [apply frame_deref_dict|].
  intros d _. destruct (dict_get d k); [by apply frame_ret|apply frame_raise].
Qed.

Lemma frame_dict_setitem b l k v :
  (b ≤ l)%nat → frame b (dict_setitem l k v) (λ _, True).
Proof.
  intros Hl. unfold dict_setitem.
  eapply frame_bind; [apply frame_deref_dict|]. intros d _.
  by apply frame_assign.
Qed.

Lemma frame_list_elems b g : frame b (list_elems g) (λ _, True).
Proof. destruct g; simpl; [apply frame_deref_list | apply frame_raise ..]. Qed.

Lemma frame_call b g : frame b (call g) (λ _, True).
Proof.
  apply frame_same_heap. intros s. destruct g as [l|f|x]; simpl; try done.
  by destruct (f (world s)) as [[msg|x] w].
Qed.

Lemma frame_list_copy b g : frame b (list_copy g) (λ l, (b ≤ l)%nat).
Proof.
  unfold list_copy. eapply frame_bind; [apply frame_list_elems|].
  intros ys _. apply frame_alloc.
Qed.

Lemma frame_list_index b l v : frame b (list_index l v) (λ _, True).
Proof.
  unfold list_index. eapply frame_bind; [apply frame_deref_list|].
  intros ys _. destruct v as [l'|f|x]; try apply frame_raise.
  destruct (index_of ys x); [by apply frame_ret|apply frame_raise].
Qed.

Lemma frame_list_pop b l i :
  (b ≤ l)%nat → frame b (list_pop l i) (λ _, True).
Proof.
  intros Hl. unfold list_pop. eapply frame_bind; [apply frame_deref_list|].
  intros ys _. destruct (ys !! i); [|apply frame_raise].
  eapply frame_bind; [by apply frame_assign|]. intros _ _. by apply frame_ret.
Qed.

Lemma frame_generate_random b g :
  frame b (_generate_random np g) (λ _, True).
Proof.
  unfold _generate_random. destruct (isinstance_list g).
  - unfold np_random_choice. destruct np; [|apply frame_raise].
    eapply frame_bind; [apply frame_list_elems|]. intros ys _.
    apply frame_call.
  - destruct (is_callable g); [apply frame_call | by apply frame_ret].
Qed.

Lemma frame_choose_random b self h :
  frame b (_choose_random np self h) (λ _, True).
Proof.
  unfold _choose_random. eapply frame_bind; [apply frame_dict_getitem|].
  intros g _. apply frame_generate_random.
Qed.

Lemma frame_choose_default b self h :
  frame b (_choose_default self h) (λ _, True).
Proof.
  unfold _choose_default. eapply frame_bind; [apply frame_deref_dict|].
  intros defs _. destruct (dict_get defs h); [by apply frame_ret|].
  eapply frame_bind; [apply frame_dict_getitem|]. intros g _.
  destruct (isinstance_list g).
  - eapply frame_bind; [apply frame_list_elems|]. intros ys _.
    eapply frame_bind; [apply frame_list_getitem|]. intros y _.
    by apply frame_ret.
  - destruct (is_callable g); [|by apply frame_ret].
    eapply frame_bind; [apply frame_warn|]. intros _ _. apply frame_call.
Qed.

Lemma frame_default_dict b self :
  frame b (default_dict self) (λ l, (b ≤ l)%nat).
Proof.
  unfold default_dict. eapply frame_bind; [apply frame_deref_dict|].
  intros gens _. eapply frame_bind; [|intros pairs _; apply frame_alloc].
  apply frame_mapM with (Q := λ _, True). intros h.
  eapply frame_bind; [apply frame_choose_default|]. intros v _.
  by apply frame_ret.
Qed.

Lemma frame_random_dict b self :
  frame b (random_dict np self) (λ l, (b ≤ l)%nat).
Proof.
  unfold random_dict. eapply frame_bind; [apply frame_deref_dict|].
  intros gens _. eapply frame_bind; [|intros pairs _; apply frame_alloc].
  apply frame_mapM with (Q := λ _, True). intros h.
  eapply frame_bind; [apply frame_choose_random|]. intros v _.
  by apply frame_ret.
Qed.

Lemma frame_default_search b self n :
  frame b (default_search self n) (Forall (λ l, (b ≤ l)%nat)).
Proof. apply frame_mapM. intros _. apply frame_default_dict. Qed.

Lemma frame_random_search b self n :
  frame b (random_search np self n) (Forall (λ l, (b ≤ l)%nat)).
Proof. apply frame_mapM. intros _. apply frame_random_dict. Qed.

Lemma frame_one_value_search b self interests n :
  frame b (one_value_search np self interests n) (λ _, True).
Proof.
  unfold one_value_search.
  eapply frame_bind with (Q := λ _, True).
  { unfold floordiv. case_decide; [apply frame_raise | by apply frame_ret]. }
  intros n_rep _.
  eapply frame_bind with (Q := λ _, True).
  { unfold assert_. case_bool_decide; [by apply frame_ret|apply frame_raise]. }
  intros _ _.
  eapply frame_bind; [apply frame_default_search|]. intros rs Hrs.
  eapply frame_bind; [|intros _ _; by apply frame_ret].
  apply frame_forM. intros i.
  eapply frame_bind; [apply frame_list_getitem|]. intros h _.
  eapply frame_bind; [apply frame_choose_random|]. intros v _.
  eapply frame_bind; [apply frame_list_getitem|]. intros d Hd.
  apply frame_dict_setitem. rewrite Forall_forall in Hrs. by apply Hrs.
Qed.

Lemma frame_one_value_grid_search b self interests :
  frame b (one_value_grid_search self interests) (λ _, True).
Proof.
  unfold one_value_grid_search.
  eapply frame_bind.
  { apply frame_mapM with (Q := λ _, True). intros h.
    apply frame_dict_getitem. }
  intros gs _.
  eapply frame_bind with (Q := λ _, True).
  { unfold assert_. destruct (forallb _ _); [by apply frame_ret|].
    apply frame_raise. }
  intros _ _.
  eapply frame_bind.
  { apply frame_mapM with (Q := λ _, True). intros h.
    eapply frame_bind; [apply frame_dict_getitem|]. intros g _.
    unfold py_len. eapply frame_bind; [apply frame_list_elems|].
    intros ys _. by apply frame_ret. }
  intros lens _.
  eapply frame_bind; [apply frame_alloc|]. intros nd Hnd.
  eapply frame_bind.
  { apply frame_forM. intros h.
    eapply frame_bind; [apply frame_dict_getitem|]. intros g _.
    eapply frame_bind; [apply frame_list_copy|]. intros l Hl.
    eapply frame_bind; [apply frame_choose_default|]. intros d _.
    eapply frame_bind; [apply frame_list_index|]. intros i _.
    eapply frame_bind; [by apply frame_list_pop|]. intros _ _.
    by apply frame_dict_setitem. }
  intros _ _.
  eapply frame_bind; [apply frame_default_search|]. intros rs Hrs.
  eapply frame_bind with (Q := λ _, True).
  { apply frame_foldM; [|done]. intros si h _.
    eapply frame_bind; [apply frame_dict_getitem|]. intros g _.
    eapply frame_bind; [apply frame_list_elems|]. intros ys _.
    apply frame_foldM; [|done]. intros si' y _.
    eapply frame_bind; [apply frame_list_getitem|]. intros d Hd.
    eapply frame_bind; [|intros _ _; by apply frame_ret].
    apply frame_dict_setitem. rewrite Forall_forall in Hrs. by apply Hrs. }
  intros si _.
  eapply frame_bind with (Q := λ _, True); [|intros _ _; by apply frame_ret].
  unfold assert_. case_bool_decide; [by apply frame_ret|apply frame_raise].
Qed.

Lemma frame_custom_search b self overwritten_hyp n :
  frame b (custom_search np self overwritten_hyp n) (λ _, True).
Proof.
  unfold custom_search.
  eapply frame_bind; [apply frame_default_search|]. intros rs Hrs.
  eapply frame_bind; [|intros _ _; by apply frame_ret].
  apply frame_forM. intros i.
  eapply frame_bind; [apply frame_deref_dict|]. intros items _.
  apply frame_forM. intros item.
  eapply frame_bind; [apply frame_generate_random|]. intros v _.
  eapply frame_bind; [apply frame_list_getitem|]. intros d Hd.
  apply frame_dict_setitem. rewrite Forall_forall in Hrs. by apply Hrs.
Qed.

Lemma frame_prefix {A} (m : M A) (Q : nat → A → Prop) s :
  (∀ b, frame b m (Q b)) → heap s `prefix_of` heap (m s).2.
Proof.
  intros Hm. destruct (m s) as [r s'] eqn:Hms. simpl.
  destruct (Hm (length (heap s)) s r s' (le_n _) Hms) as (H1 & H2 & _).
  rewrite firstn_all in H1. rewrite <- H1. apply prefix_take.
Qed.

Lemma after_call_prefix self c s :
  heap s `prefix_of` heap (after_call np self c s).
Proof.
  destruct c; simpl.
  - apply (frame_prefix _ _ _ (λ b, frame_default_dict b self)).
  - apply (frame_prefix _ _ _ (λ b, frame_random_dict b self)).
  - apply (frame_prefix _ _ _ (λ b, frame_default_search b self n)).
  - apply (frame_prefix _ _ _ (λ b, frame_random_search b self n)).
  - apply (frame_prefix _ _ _
             (λ b, frame_one_value_search b self interests n)).
  - apply (frame_prefix _ _ _
             (λ b, frame_one_value_grid_search b self interests)).
  - apply (frame_prefix _ _ _
             (λ b, frame_custom_search b self overwritten_hyp n)).
Qed.

(** C10: after any sequence of sampling calls, returning or raising, every
    object that was in the heap before is there unchanged: the searcher's
    generator map, its defaults map and every candidate list among them.  The
    calls only allocate objects and write to those they allocated
    themselves; [one_value_grid_search] pops from its own copies. *)
Theorem sampling_preserves_objects self (cs : list method) s :
  heap s `prefix_of` heap (after_calls np self cs s)
  ∧ ∀ l o, heap s !! l = Some o → heap (after_calls np self cs s) !! l = Some o.
Proof.
  assert (Hp : heap s `prefix_of` heap (after_calls np self cs s)).
  { revert s. induction cs as [|c cs IH]; intros s; simpl.
    - done.
    - etrans; [apply (after_call_prefix self c)|]. apply IH. }
  split; [exact Hp|]. intros l o Hl. by eapply prefix_lookup_Some.
Qed.


(** ** [default_search] and [random_search] *)

Lemma mapM_const_calls {A B} (m : M B) (ys : list A) s rs s' :
  mapM (λ _, m) ys s = (Ok rs, s') ↔ calls m (length ys) s rs s'.
Proof.
  revert s rs. induction ys as [|y ys IH]; intros s rs; simpl.
  - split.
    + intros [= <- <-]. constructor.
    + intros H. inversion H; subst. reflexivity.
  - split.
    + intros H. apply bind_inv_Ok in H as (a & s1 & Ha & H).
      apply bind_inv_Ok in H as (rs' & s2 & Hrs & H).
      injection H as <- <-. econstructor; [exact Ha|]. by apply IH.
    + intros H. inversion H as [|k s0 a s1 rs' s2 Ha Hrs]; subst.
      rewrite (bind_Ok _ _ _ _ _ Ha).
      apply IH in Hrs. rewrite (bind_Ok _ _ _ _ _ Hrs). reflexivity.
Qed.

Lemma calls_length {A} (m : M A) k s rs s' :
  calls m k s rs s' → length rs = k.
Proof. induction 1; simpl; congruence. Qed.

(** Calls that each return a reference allocated during the call return
    pairwise different references. *)
Lemma calls_fresh (m : M loc) k s rs s' :
  (∀ s a s1, m s = (Ok a, s1) →
             (length (heap s) ≤ a < length (heap s1))%nat) →
  calls m k s rs s' →
  (length (heap s) ≤ length (heap s'))%nat
  ∧ Forall (λ r, (length (heap s) ≤ r < length (heap s'))%nat) rs
  ∧ NoDup rs.
Proof.
  intros Hm. induction 1 as [s|k s a s1 rs s2 Ha Hrs (IH1 & IH2 & IH3)].
  - split; [done|]. split; constructor.
  - apply Hm in Ha. split; [lia|]. split.
    + constructor; [lia|]. eapply Forall_impl; [exact IH2|].
      intros r Hr. simpl in Hr. lia.
    + constructor; [|exact IH3]. intros Hin.
      rewrite Forall_forall in IH2. apply IH2 in Hin. lia.
Qed.

Lemma alloc_last_fresh {A} (m : M A) (o : A → obj) s a s1 :
  (∀ b, frame b m (λ _, True)) →
  (m ≫= λ x, alloc (o x)) s = (Ok a, s1) →
  (length (heap s) ≤ a < length (heap s1))%nat.
Proof.
  intros Hm H. apply bind_inv_Ok in H as (x & s0 & Hx & H).
  injection H as <- <-. simpl. rewrite length_app. simpl.
  destruct (Hm (length (heap s)) s _ s0 (le_n _) Hx) as (_ & Hle & _). lia.
Qed.

Lemma default_dict_fresh self s a s1 :
  default_dict self s = (Ok a, s1) →
  (length (heap s) ≤ a < length (heap s1))%nat.
Proof.
  unfold default_dict. intros H.
  apply bind_inv_Ok in H as (gens & s0 & Hg & H).
  assert (s0 = s) as ->.
  { unfold deref_dict in Hg. destruct (heap s !! _) as [[|]|]; congruence. }
  eapply alloc_last_fresh; [|exact H]. intros b.
  apply frame_weaken with (Q := Forall (λ _, True)); [|done].
  apply frame_mapM. intros h.
  eapply frame_bind; [apply frame_choose_default|]. intros v _.
  by apply frame_ret.
Qed.

Lemma random_dict_fresh self s a s1 :
  random_dict np self s = (Ok a, s1) →
  (length (heap s) ≤ a < length (heap s1))%nat.
Proof.
  unfold random_dict. intros H.
  apply bind_inv_Ok in H as (gens & s0 & Hg & H).
  assert (s0 = s) as ->.
  { unfold deref_dict in Hg. destruct (heap s !! _) as [[|]|]; congruence. }
  eapply alloc_last_fresh; [|exact H]. intros b.
  apply frame_weaken with (Q := Forall (λ _, True)); [|done].
  apply frame_mapM. intros h.
  eapply frame_bind; [apply frame_choose_random|]. intros v _.
  by apply frame_ret.
Qed.

(** C7, as amended: [default_search(n)] returns exactly when [n] calls of
    [default_dict()] in a row return, and then returns what they returned,
    in order; likewise [random_search(n)] with [random_dict()].  The result
    has [n] entries ([max(n, 0)] for an arbitrary integer), which are
    pairwise different dictionary objects allocated by the call.  For
    [n <= 0] no call is made and both return the empty list. *)
Theorem search_is_n_calls self n s rs s' :
  (default_search self n s = (Ok rs, s')
   ↔ calls (default_dict self) (Z.to_nat n) s rs s')
  ∧ (random_search np self n s = (Ok rs, s')
     ↔ calls (random_dict np self) (Z.to_nat n) s rs s')
  ∧ (default_search self n s = (Ok rs, s')
     ∨ random_search np self n s = (Ok rs, s') →
     length rs = Z.to_nat n
     ∧ (0 ≤ n → Z.of_nat (length rs) = n)
     ∧ NoDup rs
     ∧ Forall (λ r, (length (heap s) ≤ r < length (heap s'))%nat) rs)
  ∧ (n ≤ 0 → default_search self n s = (Ok [], s)
             ∧ random_search np self n s = (Ok [], s)).
Proof.
  assert (Hd : default_search self n s = (Ok rs, s')
               ↔ calls (default_dict self) (Z.to_nat n) s rs s').
  { unfold default_search. rewrite mapM_const_calls, length_range. done. }
  assert (Hr : random_search np self n s = (Ok rs, s')
               ↔ calls (random_dict np self) (Z.to_nat n) s rs s').
  { unfold random_search. rewrite mapM_const_calls, length_range. done. }
  split; [exact Hd|]. split; [exact Hr|]. split.
  - intros [H|H].
    + apply Hd in H. pose proof (calls_length _ _ _ _ _ H) as Hlen.
      apply calls_fresh in H as (_ & Hf & Hnd); [|apply default_dict_fresh].
      split; [done|]. split; [lia|]. done.
    + apply Hr in H. pose proof (calls_length _ _ _ _ _ H) as Hlen.
      apply calls_fresh in H as (_ & Hf & Hnd); [|apply random_dict_fresh].
      split; [done|]. split; [lia|]. done.
  - intros Hn. unfold default_search, random_search, range.
    by replace (Z.to_nat n) with 0%nat by lia.
Qed.


(** ** Construction *)

Lemma deref_dict_run l d s :
  heap s !! l = Some (ODict d) → deref_dict l s = (Ok d, s).
Proof. intros H. unfold deref_dict. by rewrite H. Qed.

Lemma deref_list_run l (ys : list value) s :
  heap s !! l = Some (OList ys) → deref_list l s = (Ok ys, s).
Proof. intros H. unfold deref_list. by rewrite H. Qed.

Lemma dict_getitem_run l d k v s :
  heap s !! l = Some (ODict d) → dict_get d k = Some v →
  dict_getitem l k s = (Ok v, s).
Proof.
  intros Hl Hk. unfold dict_getitem.
  rewrite (bind_Ok _ _ _ _ _ (deref_dict_run _ _ _ Hl)). by rewrite Hk.
Qed.

Lemma dict_get_elem_of d k v : dict_get d k = Some v → (k, v) ∈ d.
Proof.
  induction d as [|[k' v'] d IH]; simpl; [done|].
  case_decide; intros Hget.
  - injection Hget as <-. subst. left.
  - right. by apply IH.
Qed.

Lemma elem_of_dict_get d k v :
  NoDup (dict_keys d) → (k, v) ∈ d → dict_get d k = Some v.
Proof.
  induction d as [|[k' v'] d IH]; simpl; intros Hnd Hin.
  - by apply elem_of_nil in Hin.
  - apply NoDup_cons in Hnd as [Hk' Hnd].
    apply elem_of_cons in Hin as [[= <- <-]|Hin].
    + by rewrite decide_True.
    + rewrite decide_False; [by apply IH|]. intros ->. apply Hk'.
      unfold dict_keys. apply list_elem_of_fmap. by exists (k, v).
Qed.

Lemma elem_of_callable_names gens name :
  NoDup (dict_keys gens) →
  name ∈ callable_names iter_set gens
  ↔ ∃ f, dict_get gens name = Some (PyCallable f).
Proof.
  intros Hnd. unfold callable_names, dict_keys.
  rewrite iter_set_elements.
  rewrite elem_of_elements, elem_of_list_to_set, list_elem_of_fmap. split.
  - intros ([k g] & -> & Hin). apply list_elem_of_filter in Hin as [Hc Hin].
    simpl in *. destruct g as [l|f|x]; try discriminate.
    exists f. by apply elem_of_dict_get.
  - intros (f & Hf). exists (name, PyCallable f). split; [done|].
    apply list_elem_of_filter. split; [done|]. by apply dict_get_elem_of.
Qed.

(** The loop over [callable_hyp]: a call that raises adds its entry to
    [errors], and the loop goes on with the next name. *)
Lemma check_config_loop self gens names errors s :
  heap s !! hyperparams self = Some (ODict gens) →
  (∀ name, name ∈ names → ∃ f, dict_get gens name = Some (PyCallable f)) →
  foldM (λ errors hyp_name,
           try_except
             (g ← dict_getitem (hyperparams self) hyp_name;
              call g;;
              mret errors)
             (λ ex, mret (errors ++ [CallError hyp_name (str_exn ex)])))
        names errors s
  = (Ok (errors ++ call_errors (probes gens names (world s))),
     set_world (probes_world gens names (world s)) s).
Proof.
  intros Hg. revert errors s Hg.
  induction names as [|name names IH]; intros errors s Hg Hnames; simpl.
  - rewrite app_nil_r. by destruct s.
  - destruct (Hnames name) as (f & Hf); [left|]. rewrite Hf.
    rewrite bind_run. unfold try_except at 1.
    rewrite bind_run, (dict_getitem_run _ _ _ _ _ Hg Hf). simpl.
    rewrite bind_run. simpl.
    destruct (f (world s)) as [[msg|x] w] eqn:Hfw; simpl.
    + rewrite IH; [|done|intros n Hn; apply Hnames; by right]. simpl.
      unfold call_errors at 2. simpl. fold (call_errors (probes gens names w)).
      by rewrite <- app_assoc.
    + rewrite IH; [|done|intros n Hn; apply Hnames; by right]. simpl.
      done.
Qed.

Lemma probes_names gens names w :
  (∀ name, name ∈ names → ∃ f, dict_get gens name = Some (PyCallable f)) →
  (probes gens names w).*1 = names.
Proof.
  revert w. induction names as [|name names IH]; intros w Hnames; simpl.
  - done.
  - destruct (Hnames name) as (f & ->); [left|]. simpl.
    rewrite IH; [done|]. intros n Hn. apply Hnames. by right.
Qed.

Lemma call_errors_not_nil (tr : list (string * (string + value))) :
  call_errors tr ≠ [] ↔ ∃ name msg, (name, inl msg) ∈ tr.
Proof.
  induction tr as [|[name [msg|x]] tr IH]; simpl.
  - split; [done|]. intros (n & m & H). by apply elem_of_nil in H.
  - split; [|done]. intros _. exists name, msg. left.
  - unfold call_errors in *. simpl. rewrite IH. split.
    + intros (n & m & Hin). exists n, m. by right.
    + intros (n & m & Hin). apply elem_of_cons in Hin as [[=]|Hin]. eauto.
Qed.

Lemma elem_of_call_errors (tr : list (string * (string + value))) name msg :
  CallError name msg ∈ call_errors tr ↔ (name, inl msg) ∈ tr.
Proof.
  unfold call_errors. rewrite list_elem_of_omap. split.
  - intros ([n [m|x]] & Hin & Heq); simpl in Heq; [|done].
    by injection Heq as -> ->.
  - intros Hin. by exists (name, inl msg).
Qed.

(** What [_check_config] does on a well-formed searcher. *)
Lemma check_config_run self gens defs s :
  heap s !! hyperparams self = Some (ODict gens) →
  heap s !! hyp_defaults self = Some (ODict defs) →
  NoDup (dict_keys gens) →
  ∃ s', heap s' = heap s ∧
    _check_config iter_set self s
    = (match config_problems iter_set gens defs (world s) with
       | [] => Ok ()
       | errors => Raise (AssertionError (Problems errors))
       end, s').
Proof.
  intros Hg Hd Hnd. unfold _check_config.
  rewrite (bind_Ok _ _ _ _ _ (deref_dict_run _ _ _ Hg)).
  rewrite (bind_Ok _ _ _ _ _ (deref_dict_run _ _ _ Hd)).
  fold (unknown_defaults gens defs). fold (callable_names iter_set gens).
  erewrite bind_Ok; last first.
  { apply check_config_loop; [done|]. intros name Hn.
    by apply elem_of_callable_names. }
  unfold config_problems.
  assert (Hsz : ∀ X : gset string, size X ≠ 0%nat ↔ X ≠ ∅).
  { intros X. by rewrite size_empty_iff, leibniz_equiv_iff. }
  set (errors := _ ++ call_errors _).
  set (errors' := _ ++ call_errors _).
  assert (errors = errors') as ->.
  { subst errors errors'. f_equal.
    destruct (decide (size _ ≠ 0%nat)) as [H|H];
      destruct (decide (unknown_defaults gens defs ≠ ∅)) as [H'|H'];
      try done; [by apply Hsz in H | by apply Hsz in H']. }
  set (s1 := set_world _ s).
  match goal with
  | |- context [ (?m ≫= _) s1 ] =>
      assert (∃ s', heap s' = heap s ∧ m s1 = (Ok (), s'))
        as (s' & Hh & Hm)
  end.
  { case_decide.
    - eexists. split; [|reflexivity]. reflexivity.
    - exists s1. split; reflexivity. }
  rewrite (bind_Ok _ _ _ _ _ Hm).
  exists s'. split; [done|].
  destruct errors' as [|e es]; reflexivity.
Qed.

(** C5: construction fails its assertion exactly when some key of the
    defaults map is no key of the generator map or the call of some callable
    generator raises; the error then carries every problem: one entry with
    the unknown default keys, if any, and one [CallError] with the name and
    the message for each call that raised.  Every callable is called, once,
    whatever the earlier calls did, in the order [iter_set] in which the
    interpreter goes through the set of their names: the statement holds
    for every such order, and the calls and the entries of the error follow
    it.  Otherwise construction returns a searcher that holds a copy of the
    generator map and the defaults map it was given (a new empty one for
    [None]). *)
Theorem init_fails_exactly hp arg gens defs s :
  heap s !! hp = Some (ODict gens) →
  defaults_arg_is s arg defs →
  NoDup (dict_keys gens) →
  let tr := probes gens (callable_names iter_set gens) (world s) in
  let errors := config_problems iter_set gens defs (world s) in
  tr.*1 = callable_names iter_set gens
  ∧ (∀ name, name ∈ callable_names iter_set gens
             ↔ ∃ f, dict_get gens name = Some (PyCallable f))
  ∧ NoDup (callable_names iter_set gens)
  ∧ (errors ≠ [] ↔ unknown_defaults gens defs ≠ ∅
                    ∨ ∃ name msg, (name, inl msg) ∈ tr)
  ∧ (∀ names, NotHyperparameters names ∈ errors
              ↔ names = unknown_defaults gens defs ∧ names ≠ ∅)
  ∧ (∀ name msg, CallError name msg ∈ errors ↔ (name, inl msg) ∈ tr)
  ∧ ((∃ msg s', __init__ iter_set hp arg s = (Raise (AssertionError msg), s'))
     ↔ errors ≠ [])
  ∧ (errors ≠ [] →
     ∃ s', __init__ iter_set hp arg s = (Raise (AssertionError (Problems errors)), s'))
  ∧ (errors = [] →
     ∃ self s', __init__ iter_set hp arg s = (Ok self, s')
       ∧ heap s' !! hyperparams self = Some (ODict gens)
       ∧ heap s' !! hyp_defaults self = Some (ODict defs)
       ∧ (length (heap s) ≤ hyperparams self)%nat
       ∧ match arg with
         | Some ld => hyp_defaults self = ld
         | None => (length (heap s) ≤ hyp_defaults self)%nat
         end).
Proof.
  intros Hhp Harg Hnd tr errors.
  assert (Hnames : ∀ name, name ∈ callable_names iter_set gens
             ↔ ∃ f, dict_get gens name = Some (PyCallable f)).
  { intros name. by apply elem_of_callable_names. }
  split. { apply probes_names. intros name. apply Hnames. }
  split; [exact Hnames|].
  split.
  { unfold callable_names. rewrite iter_set_elements. apply NoDup_elements. }
  assert (Herr : errors ≠ [] ↔ unknown_defaults gens defs ≠ ∅
                    ∨ ∃ name msg, (name, inl msg) ∈ tr).
  { subst errors. unfold config_problems. fold tr.
    destruct (decide (unknown_defaults gens defs ≠ ∅)) as [Hu|Hu]; simpl.
    - split; [by left|done].
    - rewrite call_errors_not_nil. split; [by right|].
      by intros [H|H]. }
  split; [exact Herr|].
  split.
  { intros names. subst errors. unfold config_problems. fold tr.
    rewrite elem_of_app. split.
    - intros [H|H].
      + case_decide; [|by apply elem_of_nil in H].
        apply list_elem_of_singleton in H. by injection H as ->.
      + unfold call_errors in H. apply list_elem_of_omap in H as (p & _ & H).
        by destruct p as [n [m|x]].
    - intros [-> H]. left. rewrite decide_True by done. left. }
  split.
  { intros name msg. subst errors. unfold config_problems. fold tr.
    rewrite elem_of_app, elem_of_call_errors. split; [|by right].
    intros [H|H]; [|done]. case_decide; [|by apply elem_of_nil in H].
    by apply list_elem_of_singleton in H. }
  (* the run of the constructor *)
  assert (Hrun : ∃ self s',
    __init__ iter_set hp arg s
    = (match errors with
       | [] => Ok self
       | _ => Raise (AssertionError (Problems errors))
       end, s')
    ∧ heap s' !! hyperparams self = Some (ODict gens)
    ∧ heap s' !! hyp_defaults self = Some (ODict defs)
    ∧ (length (heap s) ≤ hyperparams self)%nat
    ∧ match arg with
      | Some ld => hyp_defaults self = ld
      | None => (length (heap s) ≤ hyp_defaults self)%nat
      end).
  { unfold __init__. destruct arg as [ld|]; simpl in Harg.
    - rewrite bind_run. simpl.
      rewrite (bind_Ok _ _ _ _ _ (deref_dict_run _ _ _ Hhp)).
      rewrite bind_run. simpl.
      set (self := Searcher (length (heap s)) ld).
      set (s1 := set_heap (heap s ++ [ODict gens]) s).
      destruct (check_config_run self gens defs s1) as (s' & Hh & Hcc).
      { simpl. by rewrite list_lookup_middle. }
      { simpl. rewrite lookup_app_l; [done|]. by eapply lookup_lt_Some. }
      { done. }
      exists self, s'. rewrite bind_run, Hcc.
      change (world s1) with (world s). fold errors. rewrite Hh.
      clearbody errors. simpl. split; [by destruct errors|].
      split; [by rewrite list_lookup_middle|].
      split; [|done]. rewrite lookup_app_l; [done|]. by eapply lookup_lt_Some.
    - subst defs. rewrite bind_run. simpl.
      set (s0 := set_heap (heap s ++ [ODict []]) s).
      assert (Hhp0 : heap s0 !! hp = Some (ODict gens)).
      { simpl. rewrite lookup_app_l; [done|]. by eapply lookup_lt_Some. }
      rewrite (bind_Ok _ _ _ _ _ (deref_dict_run _ _ _ Hhp0)).
      rewrite bind_run. simpl.
      set (self := Searcher (length (heap s ++ [ODict []])) (length (heap s))).
      set (s1 := set_heap ((heap s ++ [ODict []]) ++ [ODict gens]) s0).
      destruct (check_config_run self gens [] s1) as (s' & Hh & Hcc).
      { simpl. by rewrite list_lookup_middle. }
      { simpl. rewrite lookup_app_l by (rewrite length_app; simpl; lia).
        by rewrite list_lookup_middle. }
      { done. }
      exists self, s'. rewrite bind_run, Hcc.
      change (world s1) with (world s). fold errors. rewrite Hh.
      clearbody errors. simpl. split; [by destruct errors|].
      split; [by rewrite list_lookup_middle|].
      split. { rewrite lookup_app_l by (rewrite length_app; simpl; lia).
               by rewrite list_lookup_middle. }
      rewrite length_app. simpl. lia. }
  destruct Hrun as (self & s' & Hrun & Hself).
  split; [split|split].
  - intros (msg & s'' & H). rewrite Hrun in H.
    destruct errors; [discriminate|done].
  - intros He. destruct errors as [|e es] eqn:Heq; [done|]. eauto.
  - intros He. exists s'. rewrite Hrun. by destruct errors.
  - intros He. exists self, s'. rewrite Hrun, He. done.
Qed.


(** ** Default resolution without calls *)

Lemma set_heap_same s : set_heap (heap s) s = s.
Proof. by destruct s. Qed.

Lemma static_default_app h h' gens defs k v :
  static_default h gens defs k = Some v →
  static_default (h ++ h') gens defs k = Some v.
Proof.
  unfold static_default. destruct (dict_get defs k); [done|].
  destruct (dict_get gens k) as [[l|f|x]|]; try done.
  destruct (h !! l) as [[[|y ys]|]|] eqn:Hl; try done.
  intros [= <-]. by rewrite (lookup_app_l_Some _ _ _ _ Hl).
Qed.

Lemma has_static_defaults_app h h' gens defs :
  has_static_defaults h gens defs → has_static_defaults (h ++ h') gens defs.
Proof.
  intros H k Hk. destruct (H k Hk) as [v Hv].
  exists v. by apply static_default_app.
Qed.

Lemma omap_ext_elem_of {A B} (f1 f2 : A → option B) (ys : list A) :
  (∀ y, y ∈ ys → f1 y = f2 y) → omap f1 ys = omap f2 ys.
Proof.
  induction ys as [|y ys IH]; intros Hf; [done|]. csimpl.
  rewrite (Hf y) by left. rewrite IH; [done|].
  intros y' Hy'. apply Hf. by right.
Qed.

Lemma default_content_app h h' gens defs :
  has_static_defaults h gens defs →
  default_content (h ++ h') gens defs = default_content h gens defs.
Proof.
  intros H. unfold default_content. f_equal.
  apply omap_ext_elem_of. intros k Hk.
  destruct (H k Hk) as [v Hv].
  by rewrite Hv, (static_default_app _ _ _ _ _ _ Hv).
Qed.

Lemma choose_default_static self gens defs k v s :
  heap s !! hyperparams self = Some (ODict gens) →
  heap s !! hyp_defaults self = Some (ODict defs) →
  static_default (heap s) gens defs k = Some v →
  _choose_default self k s = (Ok v, s).
Proof.
  intros Hg Hd Hk. unfold _choose_default.
  rewrite (bind_Ok _ _ _ _ _ (deref_dict_run _ _ _ Hd)).
  unfold static_default in Hk.
  destruct (dict_get defs k) as [v'|]; [by injection Hk as ->|].
  destruct (dict_get gens k) as [[l|f|x]|] eqn:Hgk; try done.
  - rewrite (bind_Ok _ _ _ _ _ (dict_getitem_run _ _ _ _ _ Hg Hgk)). simpl.
    destruct (heap s !! l) as [[[|y ys]|]|] eqn:Hl; try done.
    injection Hk as <-.
    by rewrite (bind_Ok _ _ _ _ _ (deref_list_run _ _ _ Hl)).
  - rewrite (bind_Ok _ _ _ _ _ (dict_getitem_run _ _ _ _ _ Hg Hgk)). simpl.
    by injection Hk as <-.
Qed.

Lemma default_pairs_run self gens defs keys s :
  heap s !! hyperparams self = Some (ODict gens) →
  heap s !! hyp_defaults self = Some (ODict defs) →
  (∀ k, k ∈ keys → is_Some (static_default (heap s) gens defs k)) →
  mapM (λ hyp_name, v ← _choose_default self hyp_name; mret (hyp_name, v))
       keys s
  = (Ok (omap (λ k, pair k <$> static_default (heap s) gens defs k) keys), s).
Proof.
  intros Hg Hd. induction keys as [|k keys IH]; intros Hkeys; simpl.
  - done.
  - destruct (Hkeys k) as [v Hv]; [left|]. rewrite Hv. simpl.
    rewrite bind_run, bind_run.
    rewrite (choose_default_static _ _ _ _ _ _ Hg Hd Hv). simpl.
    rewrite bind_run, IH; [done|]. intros k' Hk'. apply Hkeys. by right.
Qed.

(** With static defaults [default_dict()] allocates one dictionary, the
    dictionary of the defaults, and changes nothing else. *)
Lemma default_dict_static self gens defs s :
  heap s !! hyperparams self = Some (ODict gens) →
  heap s !! hyp_defaults self = Some (ODict defs) →
  has_static_defaults (heap s) gens defs →
  default_dict self s
  = (Ok (length (heap s)),
     set_heap (heap s ++ [ODict (default_content (heap s) gens defs)]) s).
Proof.
  intros Hg Hd Hs. unfold default_dict.
  rewrite (bind_Ok _ _ _ _ _ (deref_dict_run _ _ _ Hg)).
  rewrite (bind_Ok _ _ _ _ _
             (default_pairs_run _ _ _ _ _ Hg Hd Hs)).
  reflexivity.
Qed.

Lemma default_search_static_nat self gens defs (ys : list Z) s :
  heap s !! hyperparams self = Some (ODict gens) →
  heap s !! hyp_defaults self = Some (ODict defs) →
  has_static_defaults (heap s) gens defs →
  mapM (λ _, default_dict self) ys s
  = (Ok (seq (length (heap s)) (length ys)),
     set_heap (heap s ++ replicate (length ys)
                           (ODict (default_content (heap s) gens defs))) s).
Proof.
  revert s. induction ys as [|y ys IH]; intros s Hg Hd Hs; simpl.
  - by rewrite app_nil_r, set_heap_same.
  - rewrite bind_run, (default_dict_static _ _ _ _ Hg Hd Hs).
    rewrite bind_run, IH; simpl.
    + rewrite length_app, Nat.add_1_r, <- app_assoc. simpl.
      by rewrite default_content_app.
    + rewrite lookup_app_l; [done|]. by eapply lookup_lt_Some.
    + rewrite lookup_app_l; [done|]. by eapply lookup_lt_Some.
    + by apply has_static_defaults_app.
Qed.

(** With static defaults [default_search(n)] returns: it allocates [n]
    copies of the dictionary of the defaults, one after the other. *)
Lemma default_search_static self gens defs n s :
  heap s !! hyperparams self = Some (ODict gens) →
  heap s !! hyp_defaults self = Some (ODict defs) →
  has_static_defaults (heap s) gens defs →
  default_search self n s
  = (Ok (seq (length (heap s)) (Z.to_nat n)),
     set_heap (heap s ++ replicate (Z.to_nat n)
                           (ODict (default_content (heap s) gens defs))) s).
Proof.
  intros Hg Hd Hs. unfold default_search.
  rewrite (default_search_static_nat _ _ _ _ _ Hg Hd Hs).
  by rewrite length_range.
Qed.


(** ** Dictionaries and the first occurrence of a value *)

Lemma dict_get_set_eq d k v : dict_get (dict_set d k v) k = Some v.
Proof.
  induction d as [|[k' v'] d IH]; simpl.
  - by rewrite decide_True.
  - case_decide; simpl.
    + by rewrite decide_True.
    + by rewrite decide_False.
Qed.

Lemma dict_get_set_ne d k k' v :
  k ≠ k' → dict_get (dict_set d k v) k' = dict_get d k'.
Proof.
  intros Hne. induction d as [|[k0 v0] d IH]; simpl.
  - by rewrite decide_False.
  - case_decide; simpl.
    + subst k0. by rewrite !decide_False.
    + case_decide; [done|]. exact IH.
Qed.

Lemma dict_keys_set d k v :
  k ∈ dict_keys d → dict_keys (dict_set d k v) = dict_keys d.
Proof.
  unfold dict_keys. induction d as [|[k' v'] d IH]; simpl; intros Hk.
  - by apply elem_of_nil in Hk.
  - case_decide; simpl; [by subst|]. f_equal. apply IH.
    by apply elem_of_cons in Hk as [->|Hk].
Qed.

Lemma index_of_Some (ys : list value) x i :
  index_of ys x = Some i → ys !! i = Some x.
Proof.
  revert i. induction ys as [|y ys IH]; intros i; simpl; [done|].
  case_decide.
  - intros [= <-]. by subst.
  - destruct (index_of ys x) as [j|]; [|done]. intros [= <-]. by apply IH.
Qed.

Lemma index_of_None (ys : list value) x : index_of ys x = None ↔ x ∉ ys.
Proof.
  induction ys as [|y ys IH]; simpl.
  - split; [|done]. intros _. apply not_elem_of_nil.
  - case_decide.
    + subst. split; [done|]. intros H. exfalso. apply H. left.
    + rewrite not_elem_of_cons. destruct (index_of ys x); simpl.
      * split; [done|]. intros [_ H']. by apply IH in H'.
      * split; [|done]. intros _. split; [done|]. by apply IH.
Qed.

Lemma index_of_elem_of (ys : list value) x :
  x ∈ ys → ∃ i, index_of ys x = Some i.
Proof.
  intros Hx. destruct (index_of ys x) as [i|] eqn:Hi; [by exists i|].
  by apply index_of_None in Hi.
Qed.

(** Removing the only occurrence of [x] leaves no [x]. *)
Lemma delete_index_of_not_elem_of (ys : list value) x i :
  index_of ys x = Some i →
  (∀ j1 j2, ys !! j1 = Some x → ys !! j2 = Some x → j1 = j2) →
  x ∉ delete i ys.
Proof.
  intros Hi Huniq Hin. pose proof (index_of_Some _ _ _ Hi) as Hix.
  apply list_elem_of_lookup in Hin as [j Hj].
  destruct (decide (j < i)%nat) as [Hlt|Hge].
  - rewrite list_lookup_delete_lt in Hj by done.
    pose proof (Huniq _ _ Hj Hix). lia.
  - rewrite list_lookup_delete_ge in Hj by lia.
    pose proof (Huniq _ _ Hj Hix). lia.
Qed.

Lemma default_present_spec h gens defs k :
  default_present h gens defs k = true ↔
  ∃ ys x, candidates h gens k = Some ys
          ∧ static_default h gens defs k = Some (PyOther x) ∧ x ∈ ys.
Proof.
  unfold default_present. split.
  - destruct (candidates h gens k) as [ys|]; [|done].
    destruct (static_default h gens defs k) as [[l|f|x]|]; try done.
    intros Hx. apply bool_decide_eq_true in Hx. eauto.
  - intros (ys & x & -> & -> & Hx). by apply bool_decide_eq_true.
Qed.

Lemma non_default_spec h gens defs k ys x :
  candidates h gens k = Some ys →
  static_default h gens defs k = Some (PyOther x) → x ∈ ys →
  ∃ i, index_of ys x = Some i ∧ non_default h gens defs k = delete i ys
       ∧ S (length (non_default h gens defs k)) = length ys.
Proof.
  intros Hc Hs Hx. destruct (index_of_elem_of _ _ Hx) as [i Hi].
  exists i. unfold non_default. rewrite Hc, Hs, Hi.
  split; [done|]. split; [done|].
  apply index_of_Some, lookup_lt_Some in Hi.
  rewrite length_delete; [lia|]. by apply lookup_lt_is_Some.
Qed.

Lemma candidates_app h h' gens k ys :
  candidates h gens k = Some ys → candidates (h ++ h') gens k = Some ys.
Proof.
  unfold candidates. destruct (dict_get gens k) as [[l|f|x]|]; try done.
  destruct (h !! l) as [[zs|]|] eqn:Hl; try done.
  intros [= <-]. by rewrite (lookup_app_l_Some _ _ _ _ Hl).
Qed.


(** ** [one_value_grid_search], step by step *)

Lemma insert_at_length (h : list obj) o o' rest :
  <[length h := o']> (h ++ o :: rest) = h ++ o' :: rest.
Proof.
  rewrite insert_app_r_alt by done. by rewrite Nat.sub_diag.
Qed.

Lemma candidates_inv h gens k ys :
  candidates h gens k = Some ys →
  ∃ l, dict_get gens k = Some (PyList l) ∧ h !! l = Some (OList ys).
Proof.
  unfold candidates. destruct (dict_get gens k) as [[l|f|x]|]; try done.
  destruct (h !! l) as [[zs|]|] eqn:Hl; try done.
  intros [= <-]. eauto.
Qed.

(** One round of the first loop: the candidate list is copied, the default
    is removed from the copy, and the copy is entered in
    [non_default_hyperparams].  [h0] is the heap at the call, the dictionary
    [non_default_hyperparams] comes right after it, then the copies made so
    far. *)
Lemma grid_copy_step self gens defs h0 nd cps k ys v s :
  heap s = h0 ++ ODict nd :: cps →
  h0 !! hyperparams self = Some (ODict gens) →
  h0 !! hyp_defaults self = Some (ODict defs) →
  candidates h0 gens k = Some ys →
  static_default h0 gens defs k = Some v →
  (g ← dict_getitem (hyperparams self) k;
   non_default_list ← list_copy g;
   d ← _choose_default self k;
   i ← list_index non_default_list d;
   list_pop non_default_list i;;
   dict_setitem (length h0) k (PyList non_default_list)) s
  = match v with
    | PyOther x =>
        match index_of ys x with
        | Some i =>
            (Ok (),
             set_heap (h0 ++ ODict (dict_set nd k (PyList (length (heap s))))
                          :: cps ++ [OList (delete i ys)]) s)
        | None => (Raise ValueError, set_heap (heap s ++ [OList ys]) s)
        end
    | _ => (Raise ValueError, set_heap (heap s ++ [OList ys]) s)
    end.
Proof.
  intros Hs Hg Hd Hc Hv.
  destruct (candidates_inv _ _ _ _ Hc) as (l & Hk & Hl).
  assert (Hg' : heap s !! hyperparams self = Some (ODict gens)).
  { rewrite Hs. by apply lookup_app_l_Some. }
  rewrite (bind_Ok _ _ _ _ _ (dict_getitem_run _ _ _ _ _ Hg' Hk)).
  assert (Hl' : heap s !! l = Some (OList ys)).
  { rewrite Hs. by apply lookup_app_l_Some. }
  unfold list_copy. simpl. rewrite bind_run, bind_run.
  rewrite (deref_list_run _ _ _ Hl'). simpl.
  set (s2 := set_heap (heap s ++ [OList ys]) s).
  assert (Hs2 : heap s2 = h0 ++ (ODict nd :: cps ++ [OList ys])).
  { simpl. rewrite Hs, <- app_assoc. done. }
  rewrite bind_run.
  rewrite (choose_default_static self gens defs k v s2); last first.
  { rewrite Hs2. by apply static_default_app. }
  { rewrite Hs2. by apply lookup_app_l_Some. }
  { rewrite Hs2. by apply lookup_app_l_Some. }
  assert (Hnl : heap s2 !! length (heap s) = Some (OList ys)).
  { simpl. by rewrite list_lookup_middle. }
  rewrite bind_run. unfold list_index.
  rewrite (bind_Ok _ _ _ _ _ (deref_list_run _ _ _ Hnl)).
  destruct v as [l'|f|x]; try reflexivity.
  destruct (index_of ys x) as [i|] eqn:Hi; [|reflexivity]. simpl.
  rewrite bind_run. unfold list_pop.
  rewrite (bind_Ok _ _ _ _ _ (deref_list_run _ _ _ Hnl)).
  rewrite (index_of_Some _ _ _ Hi). rewrite bind_run. simpl.
  unfold dict_setitem. rewrite bind_run. unfold deref_dict. simpl.
  rewrite insert_at_length.
  rewrite Hs at 1. rewrite <- app_assoc. simpl.
  rewrite list_lookup_middle by done.
  unfold assign, set_heap. simpl. rewrite Hs, <- app_assoc. simpl.
  by rewrite insert_at_length.
Qed.

Lemma forM_app {A} (ys zs : list A) (f : A → M unit) s :
  forM_ (ys ++ zs) f s = (forM_ ys f;; forM_ zs f) s.
Proof.
  revert s. induction ys as [|y ys IH]; intros s; simpl.
  - reflexivity.
  - rewrite !bind_run. destruct (f y s) as [[[]|e] s1]; [|done].
    rewrite IH. reflexivity.
Qed.


Lemma nd_ok_step h0 gens defs nd cps names k :
  nd_ok h0 gens defs nd cps names →
  nd_ok h0 gens defs
        (dict_set nd k (PyList (length h0 + 1 + length cps)%nat))
        (cps ++ [OList (non_default h0 gens defs k)]) (names ++ [k]).
Proof.
  intros Hok k' Hk'. destruct (decide (k = k')) as [<-|Hne].
  - exists (length cps). rewrite dict_get_set_eq.
    split; [done|]. by rewrite list_lookup_middle.
  - apply elem_of_app in Hk' as [Hk'|Hk'].
    + destruct (Hok k' Hk') as (j & Hj1 & Hj2). exists j.
      rewrite dict_get_set_ne by done. split; [done|].
      by apply lookup_app_l_Some.
    + apply list_elem_of_singleton in Hk'. congruence.
Qed.

(** The first loop: it goes through when every interest has its default
    among its candidates, and the removal raises [ValueError] at the first
    interest that has not. *)
Lemma grid_copy_loop self gens defs h0 rest :
  h0 !! hyperparams self = Some (ODict gens) →
  h0 !! hyp_defaults self = Some (ODict defs) →
  (∀ k, k ∈ rest → is_Some (candidates h0 gens k)
                   ∧ is_Some (static_default h0 gens defs k)) →
  ∀ names nd cps s,
  heap s = h0 ++ ODict nd :: cps →
  nd_ok h0 gens defs nd cps names →
  if forallb (default_present h0 gens defs) rest
  then ∃ nd',
    forM_ rest (λ hyp_name,
      g ← dict_getitem (hyperparams self) hyp_name;
      non_default_list ← list_copy g;
      d ← _choose_default self hyp_name;
      i ← list_index non_default_list d;
      list_pop non_default_list i;;
      dict_setitem (length h0) hyp_name (PyList non_default_list)) s
    = (Ok (),
       set_heap (h0 ++ ODict nd'
                    :: cps ++ ((λ k, OList (non_default h0 gens defs k))
                               <$> rest)) s)
    ∧ nd_ok h0 gens defs nd'
        (cps ++ ((λ k, OList (non_default h0 gens defs k)) <$> rest))
        (names ++ rest)
  else ∃ s',
    forM_ rest (λ hyp_name,
      g ← dict_getitem (hyperparams self) hyp_name;
      non_default_list ← list_copy g;
      d ← _choose_default self hyp_name;
      i ← list_index non_default_list d;
      list_pop non_default_list i;;
      dict_setitem (length h0) hyp_name (PyList non_default_list)) s
    = (Raise ValueError, s').
Proof.
  intros Hg Hd. induction rest as [|k rest IH];
    intros Hrest names nd cps s Hs Hok; simpl.
  - exists nd. rewrite !app_nil_r. split; [|done].
    by rewrite <- Hs, set_heap_same.
  - destruct (Hrest k) as [[ys Hc] [v Hv]]; [left|].
    rewrite bind_run.
    rewrite (grid_copy_step self gens defs h0 nd cps k ys v s Hs Hg Hd Hc Hv).
    destruct (default_present h0 gens defs k) eqn:Hp; simpl.
    + apply default_present_spec in Hp as (ys' & x & Hc' & Hv' & Hx).
      assert (ys' = ys) as -> by congruence.
      assert (v = PyOther x) as -> by congruence.
      destruct (non_default_spec _ _ _ _ _ _ Hc Hv Hx) as (i & Hi & Hnd & _).
      rewrite Hi.
      set (s1 := set_heap _ s).
      assert (Hlen : length (heap s) = (length h0 + 1 + length cps)%nat).
      { rewrite Hs, length_app. simpl. lia. }
      specialize (IH (λ k' Hk', Hrest k' (list_elem_of_further _ _ _ Hk'))
                     (names ++ [k])
                     (dict_set nd k (PyList (length (heap s))))
                     (cps ++ [OList (delete i ys)]) s1 eq_refl).
      rewrite Hlen, <- Hnd in IH. specialize (IH (nd_ok_step _ _ _ _ _ _ _ Hok)).
      destruct (forallb (default_present h0 gens defs) rest).
      * destruct IH as (nd' & Hrun & Hok'). exists nd'.
        rewrite <- !app_assoc in Hrun, Hok'. simpl in Hrun, Hok'.
        rewrite <- (app_assoc names) in Hok'. simpl in Hok'.
        rewrite Hrun. done.
      * destruct IH as (s' & Hrun). exists s'. exact Hrun.
    + assert (Hraise : match v with
        | PyOther x =>
            match index_of ys x with
            | Some i =>
                (Ok (),
                 set_heap (h0 ++ ODict (dict_set nd k (PyList (length (heap s))))
                              :: cps ++ [OList (delete i ys)]) s)
            | None => (Raise ValueError, set_heap (heap s ++ [OList ys]) s)
            end
        | _ => (Raise ValueError, set_heap (heap s ++ [OList ys]) s)
        end = (Raise ValueError, set_heap (heap s ++ [OList ys]) s)).
      { destruct v as [l|f|x]; try done.
        destruct (index_of ys x) as [i|] eqn:Hi; [|done]. exfalso.
        apply index_of_Some, list_elem_of_lookup_2 in Hi.
        unfold default_present in Hp. rewrite Hc, Hv in Hp.
        by apply bool_decide_eq_false in Hp. }
      rewrite Hraise. eauto.
Qed.

Lemma dict_setitem_run l d k v s :
  heap s !! l = Some (ODict d) →
  dict_setitem l k v s
  = (Ok (), set_heap (<[l := ODict (dict_set d k v)]> (heap s)) s).
Proof.
  intros Hl. unfold dict_setitem.
  by rewrite (bind_Ok _ _ _ _ _ (deref_dict_run _ _ _ Hl)).
Qed.

Lemma list_getitem_seq (b n i : nat) s :
  (i < n)%nat →
  (list_getitem (seq b n) (Z.of_nat i) : M nat) s = (Ok (b + i)%nat, s).
Proof.
  intros Hi. unfold list_getitem, py_index.
  rewrite decide_True by lia. rewrite Nat2Z.id.
  by rewrite lookup_seq_lt by lia.
Qed.

(** The second loop, for one interest: each remaining candidate is written
    to the next untouched default dictionary. *)
Lemma grid_fill_inner k d0 (h1 : list obj) ys :
  ∀ pre m s,
  heap s = h1 ++ (ODict <$> pre) ++ replicate m (ODict d0) →
  (length ys ≤ m)%nat →
  foldM (λ search_i value,
           d ← list_getitem (seq (length h1) (length pre + m)) search_i;
           dict_setitem d k (PyOther value);;
           mret (search_i + 1))
        ys (Z.of_nat (length pre)) s
  = (Ok (Z.of_nat (length pre + length ys)),
     set_heap (h1 ++ (ODict <$> (pre ++ ((λ x, dict_set d0 k (PyOther x))
                                          <$> ys)))
                  ++ replicate (m - length ys) (ODict d0)) s).
Proof.
  induction ys as [|y ys IH]; intros pre m s Hs Hm; simpl.
  - rewrite Nat.add_0_r, app_nil_r, Nat.sub_0_r.
    by rewrite <- Hs, set_heap_same.
  - destruct m as [|m]; [simpl in Hm; lia|].
    assert (Hlt : (length pre < length pre + S m)%nat) by lia.
    rewrite bind_run, (bind_Ok _ _ _ _ _ (list_getitem_seq _ _ _ s Hlt)).
    assert (Hl : heap s !! (length h1 + length pre)%nat = Some (ODict d0)).
    { rewrite Hs, lookup_app_r by lia.
      rewrite lookup_app_r by (rewrite length_fmap; lia).
      rewrite length_fmap.
      replace (length h1 + length pre - length h1 - length pre)%nat
        with 0%nat by lia. done. }
    rewrite (bind_Ok _ _ _ _ _ (dict_setitem_run _ _ k (PyOther y) _ Hl)).
    set (d' := dict_set d0 k (PyOther y)).
    set (s1 := set_heap _ s). rewrite ret_run.
    assert (Hs1 : heap s1 = h1 ++ (ODict <$> (pre ++ [d']))
                               ++ replicate m (ODict d0)).
    { subst s1. simpl. rewrite Hs.
      rewrite insert_app_r_alt by lia.
      rewrite insert_app_r_alt by (rewrite length_fmap; lia).
      rewrite length_fmap.
      replace (length h1 + length pre - length h1 - length pre)%nat
        with 0%nat by lia.
      simpl. rewrite fmap_app. simpl. by rewrite <- app_assoc. }
    specialize (IH (pre ++ [d']) m s1 Hs1 ltac:(simpl in Hm; lia)).
    rewrite length_app in IH. simpl in IH.
    replace (length pre + 1 + m)%nat with (length pre + S m)%nat in IH by lia.
    replace (Z.of_nat (length pre) + 1) with (Z.of_nat (length pre + 1))
      by lia.
    rewrite IH. f_equal; [f_equal; lia|].
    rewrite <- app_assoc. simpl. done.
Qed.


(** The second loop: one interest after the other, through the copies that
    [non_default_hyperparams] refers to. *)
Lemma grid_fill_loop (k0 : nat) gens defs h0 nd cps d0 ints :
  k0 = length h0 →
  (∀ k, k ∈ ints →
     ∃ j, dict_get nd k = Some (PyList (length h0 + 1 + j)%nat)
          ∧ cps !! j = Some (OList (non_default h0 gens defs k))) →
  ∀ n pre m s,
  n = (length pre + m)%nat →
  heap s = (h0 ++ ODict nd :: cps) ++ (ODict <$> pre)
           ++ replicate m (ODict d0) →
  (length (ints ≫= λ k, (λ x, dict_set d0 k (PyOther x))
                         <$> non_default h0 gens defs k) ≤ m)%nat →
  foldM (λ search_i hyp_name,
      g ← dict_getitem k0 hyp_name;
      xs ← list_elems g;
      foldM (λ search_i value,
          d ← list_getitem (seq (length (h0 ++ ODict nd :: cps)) n) search_i;
          dict_setitem d hyp_name (PyOther value);;
          mret (search_i + 1))
        xs search_i)
    ints (Z.of_nat (length pre)) s
  = (Ok (Z.of_nat
           (length pre
            + length (ints ≫= λ k, (λ x, dict_set d0 k (PyOther x))
                                    <$> non_default h0 gens defs k))),
     set_heap
       ((h0 ++ ODict nd :: cps)
        ++ (ODict <$> (pre ++ (ints ≫= λ k,
                          (λ x, dict_set d0 k (PyOther x))
                          <$> non_default h0 gens defs k)))
        ++ replicate
             (m - length (ints ≫= λ k, (λ x, dict_set d0 k (PyOther x))
                                         <$> non_default h0 gens defs k))
             (ODict d0)) s).
Proof.
  intros -> Hnd. induction ints as [|k ints IH]; intros n pre m s -> Hs Hm.
  - simpl. rewrite Nat.add_0_r, app_nil_r, Nat.sub_0_r.
    by rewrite <- Hs, set_heap_same.
  - destruct (Hnd k) as (j & Hj1 & Hj2); [left|].
    change ((k :: ints) ≫= ?f) with (f k ++ (ints ≫= f)) in *.
    rewrite length_app, length_fmap in Hm.
    cbn [foldM].
    assert (Hndl : heap s !! length h0 = Some (ODict nd)).
    { rewrite Hs, <- app_assoc. simpl. by rewrite list_lookup_middle. }
    rewrite bind_run.
    rewrite (bind_Ok _ _ _ _ _ (dict_getitem_run _ _ _ _ _ Hndl Hj1)).
    assert (Hcp : heap s !! (length h0 + 1 + j)%nat
                  = Some (OList (non_default h0 gens defs k))).
    { rewrite Hs, <- app_assoc. rewrite lookup_app_r by lia.
      replace (length h0 + 1 + j - length h0)%nat with (S j) by lia. simpl.
      by apply lookup_app_l_Some. }
    cbn [list_elems].
    rewrite (bind_Ok _ _ _ _ _ (deref_list_run _ _ _ Hcp)).
    rewrite (grid_fill_inner k d0 _ _ pre m s Hs) by lia.
    set (vk := (λ x, dict_set d0 k (PyOther x))
               <$> non_default h0 gens defs k).
    set (s1 := set_heap _ s).
    specialize (IH (λ k' Hk', Hnd k' (list_elem_of_further _ _ _ Hk'))
                   (length pre + m)%nat (pre ++ vk)
                   (m - length (non_default h0 gens defs k))%nat s1).
    rewrite length_app in IH. subst vk. rewrite length_fmap in IH.
    rewrite IH; [|lia|done|lia].
    rewrite !length_app, !length_fmap.
    f_equal; [f_equal; lia|]. subst s1. unfold set_heap. simpl.
    rewrite <- !app_assoc. do 4 f_equal. f_equal. lia.
Qed.

Lemma mapM_getitem l gens ints s :
  heap s !! l = Some (ODict gens) →
  (∀ k, k ∈ ints → is_Some (dict_get gens k)) →
  mapM (λ interest, dict_getitem l interest) ints s
  = (Ok (omap (dict_get gens) ints), s).
Proof.
  intros Hl. induction ints as [|k ints IH]; intros Hints; simpl; [done|].
  destruct (Hints k) as [g Hg]; [left|]. rewrite Hg. simpl.
  rewrite (bind_Ok _ _ _ _ _ (dict_getitem_run _ _ _ _ _ Hl Hg)).
  rewrite bind_run, IH; [done|]. intros k' Hk'. apply Hints. by right.
Qed.

Lemma forallb_isinstance_list gens ints :
  (∀ k, k ∈ ints → is_Some (dict_get gens k)) →
  forallb isinstance_list (omap (dict_get gens) ints) = true
  ↔ ∀ k, k ∈ ints → ∃ l, dict_get gens k = Some (PyList l).
Proof.
  induction ints as [|k ints IH]; intros Hints; simpl.
  - split; [|done]. intros _ k Hk. by apply elem_of_nil in Hk.
  - destruct (Hints k) as [g Hg]; [left|]. rewrite Hg. simpl.
    rewrite andb_true_iff, IH
      by (intros k' Hk'; apply Hints; by right).
    split.
    + intros [Hl Hrest] k' Hk'. apply elem_of_cons in Hk' as [->|Hk'].
      * destruct g; try done. eauto.
      * by apply Hrest.
    + intros H. split.
      * destruct (H k) as [l Hl]; [left|]. by assert (g = PyList l) as -> by congruence.
      * intros k' Hk'. apply H. by right.
Qed.

Lemma py_len_run l (ys : list value) s :
  heap s !! l = Some (OList ys) →
  py_len (PyList l) s = (Ok (Z.of_nat (length ys)), s).
Proof.
  intros Hl. unfold py_len. cbn [list_elems].
  by rewrite (bind_Ok _ _ _ _ _ (deref_list_run _ _ _ Hl)).
Qed.

Lemma mapM_len l gens ints s :
  heap s !! l = Some (ODict gens) →
  (∀ k, k ∈ ints → is_Some (candidates (heap s) gens k)) →
  mapM (λ interest, g ← dict_getitem l interest; py_len g) ints s
  = (Ok ((λ k, Z.of_nat (length (default [] (candidates (heap s) gens k))))
         <$> ints), s).
Proof.
  intros Hl. induction ints as [|k ints IH]; intros Hints; simpl; [done|].
  destruct (Hints k) as [ys Hys]; [left|]. rewrite Hys. simpl.
  destruct (candidates_inv _ _ _ _ Hys) as (ll & Hk & Hll).
  rewrite bind_run, (bind_Ok _ _ _ _ _ (dict_getitem_run _ _ _ _ _ Hl Hk)).
  rewrite (py_len_run _ _ _ Hll).
  rewrite bind_run, IH; [done|]. intros k' Hk'. apply Hints. by right.
Qed.

(** The count [n_unique_tuples] is one more than the number of
    variations. *)
Lemma grid_count h gens defs ints :
  (∀ k, k ∈ ints → default_present h gens defs k = true) →
  foldr Z.add 0 ((λ k, Z.of_nat (length (default [] (candidates h gens k))))
                 <$> ints)
  + 1 - Z.of_nat (length ints)
  = Z.of_nat (S (length (variations h gens defs ints))).
Proof.
  unfold variations. induction ints as [|k ints IH]; intros Hints.
  - reflexivity.
  - change ((k :: ints) ≫= ?f) with (f k ++ (ints ≫= f)).
    rewrite length_app, length_fmap, fmap_cons. cbn [foldr length].
    specialize (IH (λ k' Hk', Hints k' (list_elem_of_further _ _ _ Hk'))).
    assert (Hp : default_present h gens defs k = true) by (apply Hints; left).
    apply default_present_spec in Hp as (ys & x & Hc & Hv & Hx).
    destruct (non_default_spec _ _ _ _ _ _ Hc Hv Hx) as (i & _ & _ & Hlen).
    rewrite Hc. change (default [] (Some ys)) with ys. lia.
Qed.


Lemma dict_get_keys d k v : dict_get d k = Some v → k ∈ dict_keys d.
Proof.
  intros H. apply dict_get_elem_of in H. unfold dict_keys.
  apply list_elem_of_fmap. by exists (k, v).
Qed.

Lemma dict_get_is_Some d k : k ∈ dict_keys d ↔ is_Some (dict_get d k).
Proof.
  split; [|intros [v Hv]; by eapply dict_get_keys].
  induction d as [|[k' v'] d IH]; simpl.
  - intros Hk. by apply elem_of_nil in Hk.
  - intros Hk. case_decide; [by eexists|].
    apply elem_of_cons in Hk as [->|Hk]; [done|]. by apply IH.
Qed.

(** Every hyperparameter has a default that is found without a call when no
    callable and no empty candidate list lacks an entry in the defaults
    map. *)
Lemma has_static_defaults_intro h gens defs :
  (∀ k f, dict_get gens k = Some (PyCallable f) → is_Some (dict_get defs k)) →
  (∀ k l, dict_get gens k = Some (PyList l) → dict_get defs k = None →
          ∃ x ys, h !! l = Some (OList (x :: ys))) →
  has_static_defaults h gens defs.
Proof.
  intros Hcall Hlist k Hk. apply dict_get_is_Some in Hk as [g Hg].
  unfold static_default. destruct (dict_get defs k) as [v|] eqn:Hv; [done|].
  rewrite Hg. destruct g as [l|f|x]; [| |done].
  - destruct (Hlist k l Hg Hv) as (x & ys & ->). done.
  - destruct (Hcall k f Hg) as [v' Hv']. congruence.
Qed.

Lemma default_present_candidates h gens defs k :
  default_present h gens defs k = true →
  is_Some (candidates h gens k) ∧ is_Some (static_default h gens defs k).
Proof.
  intros Hp. apply default_present_spec in Hp as (ys & x & -> & -> & _).
  split; eauto.
Qed.

(** [one_value_grid_search] up to the end of its first loop, when all the
    interests are list-valued. *)
Lemma grid_search_first_part self gens defs ints s :
  heap s !! hyperparams self = Some (ODict gens) →
  heap s !! hyp_defaults self = Some (ODict defs) →
  (∀ k, k ∈ ints → is_Some (candidates (heap s) gens k)
                   ∧ is_Some (static_default (heap s) gens defs k)) →
  one_value_grid_search self ints s
  = (let n_unique_tuples :=
       foldr Z.add 0
         ((λ k, Z.of_nat (length (default [] (candidates (heap s) gens k))))
          <$> ints)
       + 1 - Z.of_nat (length ints) in
     forM_ ints (λ hyp_name,
       g ← dict_getitem (hyperparams self) hyp_name;
       non_default_list ← list_copy g;
       d ← _choose_default self hyp_name;
       i ← list_index non_default_list d;
       list_pop non_default_list i;;
       dict_setitem (length (heap s)) hyp_name (PyList non_default_list));;
     result_search ← default_search self n_unique_tuples;
     search_i ← foldM (λ search_i hyp_name,
         g ← dict_getitem (length (heap s)) hyp_name;
         xs ← list_elems g;
         foldM (λ search_i value,
             d ← list_getitem result_search search_i;
             dict_setitem d hyp_name (PyOther value);;
             mret (search_i + 1))
           xs search_i)
       ints 1;
     assert_ (bool_decide (search_i = n_unique_tuples)) NoMessage;;
     mret result_search) (set_heap (heap s ++ [ODict []]) s).
Proof.
  intros Hg Hd Hints. unfold one_value_grid_search.
  assert (Hkeys : ∀ k, k ∈ ints → is_Some (dict_get gens k)).
  { intros k Hk. destruct (Hints k Hk) as [[ys Hys] _].
    destruct (candidates_inv _ _ _ _ Hys) as (l & Hl & _). eauto. }
  rewrite (bind_Ok _ _ _ _ _ (mapM_getitem _ _ _ _ Hg Hkeys)).
  assert (Hall : forallb isinstance_list (omap (dict_get gens) ints) = true).
  { apply forallb_isinstance_list; [done|]. intros k Hk.
    destruct (Hints k Hk) as [[ys Hys] _].
    destruct (candidates_inv _ _ _ _ Hys) as (l & Hl & _). eauto. }
  rewrite Hall, (bind_Ok _ _ _ _ _ (assert_true _ _)).
  rewrite (bind_Ok _ _ _ _ _
             (mapM_len _ _ _ _ Hg (λ k Hk, proj1 (Hints k Hk)))).
  reflexivity.
Qed.

(** The run of [one_value_grid_search] when every interest is list-valued
    with its default among its candidates, and every hyperparameter has a
    static default: the heap gains [non_default_hyperparams], one copy per
    interest, and the result dictionaries, which are the dictionary of the
    defaults followed by the variations. *)
Lemma grid_search_run self gens defs ints s :
  heap s !! hyperparams self = Some (ODict gens) →
  heap s !! hyp_defaults self = Some (ODict defs) →
  has_static_defaults (heap s) gens defs →
  (∀ k, k ∈ ints → default_present (heap s) gens defs k = true) →
  ∃ nd,
    one_value_grid_search self ints s
    = (Ok (seq (length (heap s) + 1 + length ints)
               (S (length (variations (heap s) gens defs ints)))),
       set_heap
         (heap s
          ++ ODict nd
             :: ((λ k, OList (non_default (heap s) gens defs k)) <$> ints)
          ++ (ODict <$> (default_content (heap s) gens defs
                          :: variations (heap s) gens defs ints))) s).
Proof.
  intros Hg Hd Hstat Hints.
  rewrite (grid_search_first_part self gens defs ints s Hg Hd)
    by (intros k Hk; by apply default_present_candidates, Hints).
  cbv zeta. rewrite (grid_count _ _ _ _ Hints).
  set (h0 := heap s). set (s0 := set_heap (h0 ++ [ODict []]) s).
  (* the first loop *)
  pose proof (grid_copy_loop self gens defs h0 ints Hg Hd
                (λ k Hk, default_present_candidates _ _ _ _ (Hints k Hk))
                [] [] [] s0 eq_refl) as Hloop.
  rewrite (proj2 (forallb_forall _ _)) in Hloop
    by (intros k Hk; apply Hints; by apply list_elem_of_In).
  destruct Hloop as (nd & Hloop & Hok).
  { intros k Hk. by apply elem_of_nil in Hk. }
  simpl in Hloop, Hok.
  rewrite (bind_Ok _ _ _ _ _ Hloop). exists nd.
  set (cps := (λ k, OList (non_default h0 gens defs k)) <$> ints) in *.
  set (h1 := h0 ++ ODict nd :: cps).
  set (s1 := set_heap h1 s0).
  (* the default dictionaries *)
  assert (Hg1 : heap s1 !! hyperparams self = Some (ODict gens))
    by (by apply lookup_app_l_Some).
  assert (Hd1 : heap s1 !! hyp_defaults self = Some (ODict defs))
    by (by apply lookup_app_l_Some).
  assert (Hstat1 : has_static_defaults (heap s1) gens defs)
    by (by apply has_static_defaults_app).
  rewrite (bind_Ok _ _ _ _ _
             (default_search_static _ _ _ _ _ Hg1 Hd1 Hstat1)).
  rewrite Nat2Z.id.
  change (heap s1) with (h0 ++ ODict nd :: cps).
  rewrite default_content_app by done.
  set (d0 := default_content h0 gens defs).
  set (vars := variations h0 gens defs ints).
  set (s2 := set_heap _ s1).
  (* the second loop *)
  pose proof (grid_fill_loop (length h0) gens defs h0 nd cps d0 ints eq_refl
                Hok (S (length vars)) [d0] (length vars) s2 eq_refl eq_refl
                (le_n _)) as Hfill.
  change (Z.of_nat (length [d0])) with 1 in Hfill.
  fold h1 in Hfill.
  rewrite (bind_Ok _ _ _ _ _ Hfill).
  fold vars. rewrite Nat.sub_diag, app_nil_r.
  rewrite bool_decide_eq_true_2 by (simpl; done).
  rewrite (bind_Ok _ _ _ _ _ (assert_true _ _)), ret_run.
  f_equal.
  - do 2 f_equal. subst h1 cps. rewrite length_app. cbn [length].
    rewrite length_fmap. lia.
  - subst h1. unfold set_heap. simpl. by rewrite <- app_assoc.
Qed.


(** ** [one_value_grid_search]: the result *)

Lemma occurrences_zero (ys : list value) x : occurrences x ys = 0%nat → x ∉ ys.
Proof.
  unfold occurrences. intros H Hin.
  assert (Hf : x ∈ filter (λ y, y = x) ys) by (by apply list_elem_of_filter).
  destruct (filter _ ys); [by apply elem_of_nil in Hf | done].
Qed.

(** Removing the first occurrence of a value that occurs once leaves none. *)
Lemma delete_index_of_once (ys : list value) x i :
  index_of ys x = Some i → occurrences x ys = 1%nat → x ∉ delete i ys.
Proof.
  unfold occurrences. revert i. induction ys as [|y ys IH]; intros i; [done|].
  simpl. rewrite filter_cons. case_decide.
  - intros [= <-] Hocc. simpl in *. apply occurrences_zero.
    unfold occurrences. lia.
  - destruct (index_of ys x) as [j|] eqn:Hj; [|done]. intros [= <-] Hocc.
    simpl. apply not_elem_of_cons. split; [done|]. by apply IH.
Qed.

Lemma dict_of_pairs_snoc (pairs : list (string * pyval)) k v :
  dict_of_pairs (pairs ++ [(k, v)]) = dict_set (dict_of_pairs pairs) k v.
Proof. unfold dict_of_pairs. by rewrite foldl_app. Qed.

(** The dictionary of the defaults holds the default of every
    hyperparameter. *)
Lemma dict_get_default_content h gens defs k v :
  k ∈ dict_keys gens → static_default h gens defs k = Some v →
  dict_get (default_content h gens defs) k = Some v.
Proof.
  unfold default_content. generalize (dict_keys gens) as keys.
  induction keys as [|k' keys IH] using rev_ind; intros Hk Hv.
  - by apply elem_of_nil in Hk.
  - rewrite omap_app. simpl.
    destruct (static_default h gens defs k') as [v'|] eqn:Hv'; simpl.
    + rewrite dict_of_pairs_snoc. destruct (decide (k' = k)) as [->|Hne].
      * rewrite dict_get_set_eq. congruence.
      * rewrite dict_get_set_ne by done. apply IH; [|done].
        apply elem_of_app in Hk as [Hk|Hk]; [done|].
        apply list_elem_of_singleton in Hk. congruence.
    + rewrite app_nil_r. apply IH; [|done].
      apply elem_of_app in Hk as [Hk|Hk]; [done|].
      apply list_elem_of_singleton in Hk. congruence.
Qed.

(** C3, as amended: let every interest be list-valued, with a default that
    is among its candidates and occurs there once, let no hyperparameter be
    a callable without an entry in the defaults map and, which the claim
    leaves out, let no hyperparameter have an empty candidate list without
    such an entry.  Then [one_value_grid_search(interests)] returns
    [sum(len(candidates)) - len(interests) + 1] dictionaries; the first has
    the content [d0] of [default_dict()]; every other one is [d0] with one
    interest set to one of its candidates, which is not its default, so that
    it differs from [d0] at that key and at no other. *)
Theorem grid_search_one_factor_at_a_time self gens defs interests s :
  heap s !! hyperparams self = Some (ODict gens) →
  heap s !! hyp_defaults self = Some (ODict defs) →
  (∀ k f, dict_get gens k = Some (PyCallable f) → is_Some (dict_get defs k)) →
  (∀ k l, dict_get gens k = Some (PyList l) → dict_get defs k = None →
          ∃ x ys, heap s !! l = Some (OList (x :: ys))) →
  (∀ k, k ∈ interests →
     ∃ ys x, candidates (heap s) gens k = Some ys
             ∧ static_default (heap s) gens defs k = Some (PyOther x)
             ∧ x ∈ ys ∧ occurrences x ys = 1%nat) →
  ∃ rs s' r0 s0 d0,
    one_value_grid_search self interests s = (Ok rs, s')
    ∧ default_dict self s = (Ok r0, s0)
    ∧ heap s0 !! r0 = Some (ODict d0)
    ∧ Z.of_nat (length rs)
      = foldr Z.add 0
          ((λ k, Z.of_nat (length (default [] (candidates (heap s) gens k))))
           <$> interests)
        - Z.of_nat (length interests) + 1
    ∧ (∃ r, rs !! 0%nat = Some r ∧ heap s' !! r = Some (ODict d0))
    ∧ ∀ i r, (0 < i)%nat → rs !! i = Some r →
        ∃ k ys x y,
          k ∈ interests
          ∧ candidates (heap s) gens k = Some ys
          ∧ static_default (heap s) gens defs k = Some (PyOther x)
          ∧ dict_get d0 k = Some (PyOther x)
          ∧ y ∈ ys ∧ y ≠ x
          ∧ heap s' !! r = Some (ODict (dict_set d0 k (PyOther y)))
          ∧ dict_keys (dict_set d0 k (PyOther y)) = dict_keys d0
          ∧ ∀ k', dict_get (dict_set d0 k (PyOther y)) k' ≠ dict_get d0 k'
                  ↔ k' = k.
Proof.
  intros Hg Hd Hcall Hlist Hints.
  pose proof (has_static_defaults_intro _ _ _ Hcall Hlist) as Hstat.
  assert (Hpres : ∀ k, k ∈ interests →
            default_present (heap s) gens defs k = true).
  { intros k Hk. destruct (Hints k Hk) as (ys & x & Hc & Hv & Hx & _).
    apply default_present_spec. eauto. }
  destruct (grid_search_run self gens defs interests s Hg Hd Hstat Hpres)
    as (nd & Hrun).
  set (d0 := default_content (heap s) gens defs) in *.
  set (vars := variations (heap s) gens defs interests) in *.
  set (cps := (λ k, OList (non_default (heap s) gens defs k)) <$> interests)
    in *.
  eexists _, _, _, _, d0. split; [exact Hrun|].
  split; [by apply default_dict_static|].
  split; [simpl; by rewrite list_lookup_middle|].
  split.
  { rewrite length_seq. pose proof (grid_count _ _ _ _ Hpres) as Hc.
    fold vars in Hc. lia. }
  assert (Hlook : ∀ i, (i < S (length vars))%nat →
    heap (set_heap (heap s ++ ODict nd :: cps ++ (ODict <$> d0 :: vars)) s)
      !! (length (heap s) + 1 + length interests + i)%nat
    = (ODict <$> d0 :: vars) !! i).
  { intros i Hi. simpl.
    rewrite lookup_app_r by lia.
    replace (length (heap s) + 1 + length interests + i - length (heap s))%nat
      with (S (length interests + i)) by lia.
    simpl. rewrite lookup_app_r by (subst cps; rewrite length_fmap; lia).
    subst cps. rewrite length_fmap. f_equal. lia. }
  split.
  { eexists. split; [apply lookup_seq_lt; lia|].
    rewrite Hlook by lia. done. }
  intros i r Hi Hr. apply lookup_seq in Hr as [-> Hlt].
  rewrite Hlook by done.
  destruct i as [|i]; [lia|]. rewrite fmap_cons. cbn [lookup list_lookup].
  setoid_rewrite list_lookup_fmap.
  destruct (vars !! i) as [d|] eqn:Hd'; last first.
  { apply lookup_ge_None in Hd'. lia. }
  apply list_elem_of_lookup_2 in Hd'. subst vars. unfold variations in Hd'.
  apply list_elem_of_bind in Hd' as (k & Hd' & Hk).
  apply list_elem_of_fmap in Hd' as (y & -> & Hy).
  destruct (Hints k Hk) as (ys & x & Hc & Hv & Hx & Hocc).
  destruct (non_default_spec _ _ _ _ _ _ Hc Hv Hx) as (j & Hj & Hnd & _).
  rewrite Hnd in Hy.
  assert (Hk0 : dict_get d0 k = Some (PyOther x)).
  { apply dict_get_default_content; [|done].
    destruct (candidates_inv _ _ _ _ Hc) as (l & Hl & _).
    by eapply dict_get_keys. }
  assert (Hyx : y ≠ x).
  { intros ->. by eapply delete_index_of_once. }
  exists k, ys, x, y.
  split; [done|]. split; [done|]. split; [done|]. split; [done|].
  split; [by eapply list_elem_of_delete_inv|]. split; [done|].
  split; [done|].
  split; [apply dict_keys_set; by eapply dict_get_keys|].
  intros k'. split.
  - intros Hne. destruct (decide (k = k')) as [|Hkk]; [done|].
    by rewrite dict_get_set_ne in Hne.
  - intros ->. rewrite dict_get_set_eq, Hk0. congruence.
Qed.


(** ** [one_value_grid_search]: the failures *)

Lemma forallb_false {A} (f : A → bool) (ys : list A) :
  forallb f ys = false ↔ ∃ y, y ∈ ys ∧ f y = false.
Proof.
  induction ys as [|y ys IH]; simpl.
  - split; [done|]. intros (y & Hy & _). by apply elem_of_nil in Hy.
  - rewrite andb_false_iff, IH. split.
    + intros [Hy|(z & Hz & Hfz)]; [exists y; split; [left|done]|].
      exists z. split; [by right|done].
    + intros (z & Hz & Hfz). apply elem_of_cons in Hz as [->|Hz]; [by left|].
      right. eauto.
Qed.

Lemma forallb_true {A} (f : A → bool) (ys : list A) :
  forallb f ys = true ↔ ∀ y, y ∈ ys → f y = true.
Proof.
  rewrite forallb_forall. split; intros H y Hy; apply H;
    by apply list_elem_of_In.
Qed.

Lemma grid_search_not_list self gens ints s :
  heap s !! hyperparams self = Some (ODict gens) →
  (∀ k, k ∈ ints → is_Some (dict_get gens k)) →
  forallb isinstance_list (omap (dict_get gens) ints) = false →
  one_value_grid_search self ints s = (Raise (AssertionError NoMessage), s).
Proof.
  intros Hg Hkeys Hall. unfold one_value_grid_search.
  rewrite (bind_Ok _ _ _ _ _ (mapM_getitem _ _ _ _ Hg Hkeys)).
  by rewrite Hall.
Qed.

Lemma grid_search_absent self gens defs ints s :
  heap s !! hyperparams self = Some (ODict gens) →
  heap s !! hyp_defaults self = Some (ODict defs) →
  (∀ k, k ∈ ints → is_Some (candidates (heap s) gens k)
                   ∧ is_Some (static_default (heap s) gens defs k)) →
  forallb (default_present (heap s) gens defs) ints = false →
  ∃ s', one_value_grid_search self ints s = (Raise ValueError, s').
Proof.
  intros Hg Hd Hints Hall.
  rewrite (grid_search_first_part self gens defs ints s Hg Hd Hints).
  cbv zeta.
  pose proof (grid_copy_loop self gens defs (heap s) ints Hg Hd Hints
                [] [] [] (set_heap (heap s ++ [ODict []]) s) eq_refl) as Hloop.
  rewrite Hall in Hloop. destruct Hloop as (s' & Hloop).
  { intros k Hk. by apply elem_of_nil in Hk. }
  exists s'. by rewrite (bind_Raise _ _ _ _ _ Hloop).
Qed.



(** ** [custom_search] *)

Lemma kh_ret {A} (a : A) : keeps_heap (mret a : M A).
Proof. done. Qed.

Lemma kh_raise {A} e : keeps_heap (raise e : M A).
Proof. done. Qed.

Lemma kh_bind {A B} (m : M A) (k : A → M B) :
  keeps_heap m → (∀ a, keeps_heap (k a)) → keeps_heap (m ≫= k).
Proof.
  intros Hm Hk s. rewrite bind_run. specialize (Hm s).
  destruct (m s) as [[a|e] s1]; simpl in *; [|done].
  by rewrite Hk.
Qed.

Lemma kh_mapM {A B} (f : A → M B) ys :
  (∀ y, keeps_heap (f y)) → keeps_heap (mapM f ys).
Proof.
  intros Hf. induction ys as [|y ys IH]; simpl; [apply kh_ret|].
  apply kh_bind; [apply Hf|]. intros b.
  apply kh_bind; [exact IH|]. intros bs. apply kh_ret.
Qed.

Lemma kh_deref_dict l : keeps_heap (deref_dict l).
Proof. intros s. unfold deref_dict. by destruct (heap s !! l) as [[|]|]. Qed.

Lemma kh_deref_list l : keeps_heap (deref_list l).
Proof. intros s. unfold deref_list. by destruct (heap s !! l) as [[|]|]. Qed.

Lemma kh_dict_getitem l k : keeps_heap (dict_getitem l k).
Proof.
  unfold dict_getitem. apply kh_bind; [apply kh_deref_dict|]. intros d.
  destruct (dict_get d k); [apply kh_ret|apply kh_raise].
Qed.

Lemma kh_list_elems g : keeps_heap (list_elems g).
Proof. destruct g; simpl; [apply kh_deref_list|apply kh_raise..]. Qed.

Lemma kh_list_getitem {A} (ys : list A) i : keeps_heap (list_getitem ys i).
Proof.
  unfold list_getitem. destruct (py_index ys i);
    [apply kh_ret|apply kh_raise].
Qed.

Lemma kh_call g : keeps_heap (call g).
Proof.
  intros s. destruct g as [l|f|x]; simpl; try done.
  by destruct (f (world s)) as [[msg|x] w].
Qed.

Lemma kh_warn x : keeps_heap (warn x).
Proof. done. Qed.

Lemma kh_generate_random g : keeps_heap (_generate_random np g).
Proof.
  unfold _generate_random. destruct (isinstance_list g).
  - unfold np_random_choice. destruct np; [|apply kh_raise].
    apply kh_bind; [apply kh_list_elems|]. intros ys. apply kh_call.
  - destruct (is_callable g); [apply kh_call|apply kh_ret].
Qed.

Lemma kh_choose_default self h : keeps_heap (_choose_default self h).
Proof.
  unfold _choose_default. apply kh_bind; [apply kh_deref_dict|]. intros defs.
  destruct (dict_get defs h); [apply kh_ret|].
  apply kh_bind; [apply kh_dict_getitem|]. intros g.
  destruct (isinstance_list g).
  - apply kh_bind; [apply kh_list_elems|]. intros ys.
    apply kh_bind; [apply kh_list_getitem|]. intros y. apply kh_ret.
  - destruct (is_callable g); [|apply kh_ret].
    apply kh_bind; [apply kh_warn|]. intros _. apply kh_call.
Qed.

(** [default_dict()] allocates one dictionary and writes nothing else. *)
Lemma default_dict_shape self s r s1 :
  default_dict self s = (Ok r, s1) →
  ∃ d, r = length (heap s) ∧ heap s1 = heap s ++ [ODict d].
Proof.
  unfold default_dict. intros H.
  apply bind_inv_Ok in H as (gens & s0 & Hg & H).
  apply bind_inv_Ok in H as (pairs & s2 & Hp & H).
  injection H as <- <-.
  pose proof (kh_deref_dict (hyperparams self) s) as H0. rewrite Hg in H0.
  pose proof (kh_mapM (λ hyp_name, v ← _choose_default self hyp_name;
                                   mret (hyp_name, v))
                (dict_keys gens)) as H2.
  specialize (H2 (λ h, kh_bind _ _ (kh_choose_default self h)
                         (λ v, kh_ret _)) s0).
  unfold mret, M_ret in H2. rewrite Hp in H2. simpl in *.
  eexists. rewrite H2, H0. done.
Qed.

Lemma default_search_shape_calls self k s rs s1 :
  calls (default_dict self) k s rs s1 →
  ∃ ds, rs = seq (length (heap s)) k
        ∧ heap s1 = heap s ++ (ODict <$> ds) ∧ length ds = k.
Proof.
  induction 1 as [s|k s a s1 rs s2 Ha Hrs (ds & -> & Hh & Hlen)].
  - exists []. by rewrite app_nil_r.
  - apply default_dict_shape in Ha as (d & -> & Hs1).
    exists (d :: ds). rewrite Hh, Hs1, <- app_assoc, length_app. simpl.
    rewrite Nat.add_1_r, Hlen. done.
Qed.

(** [default_search(n)] allocates its [n] dictionaries one after the other
    and writes nothing else. *)
Lemma default_search_shape self n s rs s1 :
  default_search self n s = (Ok rs, s1) →
  ∃ ds, rs = seq (length (heap s)) (Z.to_nat n)
        ∧ heap s1 = heap s ++ (ODict <$> ds) ∧ length ds = Z.to_nat n.
Proof.
  unfold default_search. rewrite mapM_const_calls, length_range.
  apply default_search_shape_calls.
Qed.

Lemma overridden_other items d d' k :
  overridden np items d d' → k ∉ dict_keys items →
  dict_get d' k = dict_get d k.
Proof.
  induction 1 as [d|k0 g items d v d' sa sb Hdraw Hov IH]; [done|].
  simpl. intros Hk. apply not_elem_of_cons in Hk as [Hne Hk].
  rewrite IH by done. by apply dict_get_set_ne.
Qed.

Lemma overridden_drawn items d d' k g :
  overridden np items d d' → NoDup (dict_keys items) → (k, g) ∈ items →
  ∃ v sa sb, _generate_random np g sa = (Ok v, sb) ∧ dict_get d' k = Some v.
Proof.
  induction 1 as [d|k0 g0 items d v d' sa sb Hdraw Hov IH]; intros Hnd Hin.
  - by apply elem_of_nil in Hin.
  - simpl in Hnd. apply NoDup_cons in Hnd as [Hk0 Hnd].
    apply elem_of_cons in Hin as [[= -> ->]|Hin].
    + exists v, sa, sb. split; [done|].
      rewrite (overridden_other _ _ _ _ Hov Hk0). apply dict_get_set_eq.
    + by apply IH.
Qed.

(** The overrides of one dictionary: [rs[i]] is written once per item. *)
Lemma custom_search_inner (rs : list loc) i r items :
  py_index rs i = Some r →
  (∀ k g, (k, g) ∈ items →
     ∀ s0, ∃ v s0', _generate_random np g s0 = (Ok v, s0')) →
  ∀ d s, heap s !! r = Some (ODict d) →
  ∃ d' s',
    forM_ items (λ item : string * pyval,
      v ← _generate_random np item.2;
      d ← list_getitem rs i;
      dict_setitem d item.1 v) s = (Ok (), s')
    ∧ heap s' = <[r := ODict d']> (heap s)
    ∧ overridden np items d d'.
Proof.
  intros Hr. induction items as [|[k g] items IH]; intros Hdraw d s Hd.
  - exists d, s. split; [done|]. split; [|constructor].
    by rewrite list_insert_id.
  - destruct (Hdraw k g (list_elem_of_here _ _) s) as (v & sa & Hv).
    pose proof (kh_generate_random g s) as Hsa. rewrite Hv in Hsa.
    simpl in Hsa. cbn [forM_].
    rewrite bind_run, (bind_Ok _ _ _ _ _ Hv).
    assert (Hget : list_getitem rs i sa = (Ok r, sa))
      by (unfold list_getitem; by rewrite Hr).
    rewrite (bind_Ok _ _ _ _ _ Hget).
    assert (Hd' : heap sa !! r = Some (ODict d)) by (by rewrite Hsa).
    rewrite (dict_setitem_run _ _ _ _ _ Hd').
    set (s1 := set_heap _ sa).
    destruct (IH (λ k' g' Hin, Hdraw k' g' (list_elem_of_further _ _ _ Hin))
                 (dict_set d k v) s1) as (d' & s' & Hrun & Hh & Hov).
    { simpl. apply list_lookup_insert_eq. by eapply lookup_lt_Some. }
    exists d', s'. split; [exact Hrun|]. split.
    + rewrite Hh. simpl. by rewrite list_insert_insert_eq, Hsa.
    + by econstructor.
Qed.

(** The loop over the result dictionaries [rs = seq (length h) k], which
    follow the heap [h] of the call; [idx] lists the positions still to be
    done. *)
Lemma custom_search_outer (h : list obj) ov items k idx :
  h !! ov = Some (ODict items) →
  (∀ k g, (k, g) ∈ items →
     ∀ s0, ∃ v s0', _generate_random np g s0 = (Ok v, s0')) →
  NoDup idx → (∀ i, i ∈ idx → (i < k)%nat) →
  ∀ ds s, heap s = h ++ (ODict <$> ds) → length ds = k →
  ∃ ds' s',
    forM_ (Z.of_nat <$> idx) (λ i,
      items ← deref_dict ov;
      forM_ items (λ item : string * pyval,
        v ← _generate_random np item.2;
        d ← list_getitem (A:=loc) (seq (length h) k) i;
        dict_setitem d item.1 v)) s = (Ok (), s')
    ∧ heap s' = h ++ (ODict <$> ds') ∧ length ds' = k
    ∧ (∀ i, i ∉ idx → ds' !! i = ds !! i)
    ∧ (∀ i d, i ∈ idx → ds !! i = Some d →
         ∃ d', ds' !! i = Some d' ∧ overridden np items d d').
Proof.
  intros Hov Hdraw. induction idx as [|i idx IH]; intros Hnd Hlt ds s Hs Hlen.
  - exists ds, s. split; [done|]. split; [done|]. split; [done|].
    split; [done|]. intros i d Hi. by apply elem_of_nil in Hi.
  - apply NoDup_cons in Hnd as [Hi Hnd].
    assert (Hik : (i < k)%nat) by (apply Hlt; left).
    destruct (ds !! i) as [d|] eqn:Hd; last first.
    { apply lookup_ge_None in Hd. lia. }
    rewrite fmap_cons. cbn [forM_].
    assert (Hov' : heap s !! ov = Some (ODict items)).
    { rewrite Hs. by apply lookup_app_l_Some. }
    rewrite bind_run, (bind_Ok _ _ _ _ _ (deref_dict_run _ _ _ Hov')).
    destruct (custom_search_inner (seq (length h) k) (Z.of_nat i)
                (length h + i)%nat items) with (d := d) (s := s)
      as (d' & s1 & Hrun & Hh1 & Hovd).
    { unfold py_index. rewrite decide_True by lia.
      rewrite Nat2Z.id. by apply lookup_seq_lt. }
    { done. }
    { rewrite Hs, lookup_app_r by lia.
      replace (length h + i - length h)%nat with i by lia.
      by rewrite list_lookup_fmap, Hd. }
    destruct (IH Hnd (λ j Hj, Hlt j (list_elem_of_further _ _ _ Hj))
                 (<[i := d']> ds) s1) as (ds' & s' & Hrun' & Hh' & Hlen' & Hother & Hdone).
    { rewrite Hh1, Hs. rewrite insert_app_r_alt by lia.
      replace (length h + i - length h)%nat with i by lia.
      by rewrite list_fmap_insert. }
    { by rewrite length_insert. }
    exists ds', s'. split; [by rewrite Hrun|]. split; [done|]. split; [done|].
    split.
    + intros j Hj. apply not_elem_of_cons in Hj as [Hji Hj].
      rewrite Hother by done. by apply list_lookup_insert_ne.
    + intros j dj Hj Hdj. apply elem_of_cons in Hj as [->|Hj].
      * exists d'. split; [|congruence].
        rewrite Hother by done. apply list_lookup_insert_eq. lia.
      * apply Hdone; [done|]. rewrite list_lookup_insert_ne; [done|].
        intros ->. done.
Qed.

(** The same loops read backwards: what a run that returned has done. *)
Lemma custom_search_inner_inv (rs : list loc) i r items :
  py_index rs i = Some r →
  ∀ d s s', heap s !! r = Some (ODict d) →
  forM_ items (λ item : string * pyval,
    v ← _generate_random np item.2;
    d ← list_getitem rs i;
    dict_setitem d item.1 v) s = (Ok (), s') →
  ∃ d', heap s' = <[r := ODict d']> (heap s) ∧ overridden np items d d'.
Proof.
  intros Hr. induction items as [|[k g] items IH]; intros d s s' Hd Hrun.
  - injection Hrun as <-. exists d. split; [|constructor].
    by rewrite list_insert_id.
  - cbn [forM_] in Hrun.
    apply bind_inv_Ok in Hrun as ([] & s1 & Hbody & Hrest).
    apply bind_inv_Ok in Hbody as (v & sa & Hv & Hbody).
    pose proof (kh_generate_random g s) as Hsa. simpl in Hv.
    rewrite Hv in Hsa. simpl in Hsa.
    assert (Hget : list_getitem rs i sa = (Ok r, sa))
      by (unfold list_getitem; by rewrite Hr).
    rewrite (bind_Ok _ _ _ _ _ Hget) in Hbody.
    assert (Hd' : heap sa !! r = Some (ODict d)) by (by rewrite Hsa).
    rewrite (dict_setitem_run _ _ _ _ _ Hd') in Hbody.
    injection Hbody as <-.
    assert (Hd1 : heap (set_heap (<[r:=ODict (dict_set d k v)]> (heap sa)) sa)
                  !! r = Some (ODict (dict_set d k v))).
    { simpl. apply list_lookup_insert_eq. by eapply lookup_lt_Some. }
    destruct (IH _ _ _ Hd1 Hrest) as (d' & Hh & Hov).
    exists d'. split.
    + rewrite Hh. simpl. by rewrite list_insert_insert_eq, Hsa.
    + by econstructor.
Qed.

Lemma custom_search_outer_inv (h : list obj) ov items k idx :
  h !! ov = Some (ODict items) →
  NoDup idx → (∀ i, i ∈ idx → (i < k)%nat) →
  ∀ ds s s', heap s = h ++ (ODict <$> ds) → length ds = k →
  forM_ (Z.of_nat <$> idx) (λ i,
    items ← deref_dict ov;
    forM_ items (λ item : string * pyval,
      v ← _generate_random np item.2;
      d ← list_getitem (A:=loc) (seq (length h) k) i;
      dict_setitem d item.1 v)) s = (Ok (), s') →
  ∃ ds',
    heap s' = h ++ (ODict <$> ds') ∧ length ds' = k
    ∧ (∀ i, i ∉ idx → ds' !! i = ds !! i)
    ∧ (∀ i d, i ∈ idx → ds !! i = Some d →
         ∃ d', ds' !! i = Some d' ∧ overridden np items d d').
Proof.
  intros Hov. induction idx as [|i idx IH];
    intros Hnd Hlt ds s s' Hs Hlen Hrun.
  - injection Hrun as <-. exists ds. split; [done|]. split; [done|].
    split; [done|]. intros i d Hi. by apply elem_of_nil in Hi.
  - apply NoDup_cons in Hnd as [Hi Hnd].
    assert (Hik : (i < k)%nat) by (apply Hlt; left).
    destruct (ds !! i) as [d|] eqn:Hd; last first.
    { apply lookup_ge_None in Hd. lia. }
    rewrite fmap_cons in Hrun. cbn [forM_] in Hrun.
    apply bind_inv_Ok in Hrun as ([] & s1 & Hbody & Hrest).
    assert (Hov' : heap s !! ov = Some (ODict items)).
    { rewrite Hs. by apply lookup_app_l_Some. }
    rewrite (bind_Ok _ _ _ _ _ (deref_dict_run _ _ _ Hov')) in Hbody.
    destruct (custom_search_inner_inv (seq (length h) k) (Z.of_nat i)
                (length h + i)%nat items) with (d := d) (s := s) (s' := s1)
      as (d' & Hh1 & Hovd); [| |exact Hbody|].
    { unfold py_index. rewrite decide_True by lia.
      rewrite Nat2Z.id. by apply lookup_seq_lt. }
    { rewrite Hs, lookup_app_r by lia.
      replace (length h + i - length h)%nat with i by lia.
      by rewrite list_lookup_fmap, Hd. }
    destruct (IH Hnd (λ j Hj, Hlt j (list_elem_of_further _ _ _ Hj))
                 (<[i := d']> ds) s1 s')
      as (ds' & Hh' & Hlen' & Hother & Hdone); [| |exact Hrest|].
    { rewrite Hh1, Hs. rewrite insert_app_r_alt by lia.
      replace (length h + i - length h)%nat with i by lia.
      by rewrite list_fmap_insert. }
    { by rewrite length_insert. }
    exists ds'. split; [done|]. split; [done|]. split.
    + intros j Hj. apply not_elem_of_cons in Hj as [Hji Hj].
      rewrite Hother by done. by apply list_lookup_insert_ne.
    + intros j dj Hj Hdj. apply elem_of_cons in Hj as [->|Hj].
      * exists d'. split; [|congruence].
        rewrite Hother by done. apply list_lookup_insert_eq. lia.
      * apply Hdone; [done|]. rewrite list_lookup_insert_ne; [done|].
        intros ->. done.
Qed.

(** The random resolution of a generator that is no list is [draw]. *)
Lemma generate_random_draw g s :
  isinstance_list g = false →
  match draw g (world s) with
  | Some (v, w') => _generate_random np g s = (Ok v, set_world w' s)
  | None => ∃ msg s', _generate_random np g s = (Raise (UserError msg), s')
  end.
Proof.
  destruct g as [l|f|x]; [done| |]; intros _; simpl.
  - unfold _generate_random. simpl.
    destruct (f (world s)) as [[msg|x] w']; [|done]. by eexists _, _.
  - by destruct s.
Qed.

(** The overrides of one dictionary, the object [r]. *)
Lemma custom_search_dict_run (rs : list loc) i r items :
  py_index rs i = Some r →
  (∀ k g, (k, g) ∈ items → isinstance_list g = false) →
  ∀ d s, heap s !! r = Some (ODict d) →
  match override_dict items d (world s) with
  | Some (d', w') =>
      forM_ items (λ item : string * pyval,
        v ← _generate_random np item.2;
        d ← list_getitem rs i;
        dict_setitem d item.1 v) s
      = (Ok (), Store (<[r := ODict d']> (heap s)) w' (warned s))
  | None =>
      ∃ msg s',
        forM_ items (λ item : string * pyval,
          v ← _generate_random np item.2;
          d ← list_getitem rs i;
          dict_setitem d item.1 v) s
        = (Raise (UserError msg), s')
  end.
Proof.
  intros Hr. induction items as [|[k g] items IH]; intros Hnl d s Hd.
  - simpl. rewrite list_insert_id by done. by destruct s.
  - pose proof (generate_random_draw g s (Hnl k g (list_elem_of_here _ _)))
      as Hg.
    cbn [override_dict forM_].
    destruct (draw g (world s)) as [[v w1]|].
    + assert (Hget : list_getitem rs i (set_world w1 s)
                     = (Ok r, set_world w1 s))
        by (unfold list_getitem; by rewrite Hr).
      assert (Hbody :
        (v ← _generate_random np (k, g).2;
         d ← list_getitem rs i;
         dict_setitem d (k, g).1 v) s
        = (Ok (), set_heap (<[r := ODict (dict_set d k v)]> (heap s))
                           (set_world w1 s))).
      { cbn [fst snd].
        rewrite (bind_Ok _ _ _ _ _ Hg), (bind_Ok _ _ _ _ _ Hget).
        by rewrite (dict_setitem_run _ d). }
      set (s2 := set_heap _ (set_world w1 s)) in Hbody.
      specialize (IH (λ k' g' Hin, Hnl k' g' (list_elem_of_further _ _ _ Hin))
                     (dict_set d k v) s2).
      change (world s2) with w1 in IH.
      destruct (override_dict items (dict_set d k v) w1) as [[d' w']|].
      * rewrite (bind_Ok _ _ _ _ _ Hbody), IH.
        -- subst s2. simpl. by rewrite list_insert_insert_eq.
        -- subst s2. simpl. apply list_lookup_insert_eq.
           by eapply lookup_lt_Some.
      * destruct IH as (msg & s' & IH).
        { subst s2. simpl. apply list_lookup_insert_eq.
          by eapply lookup_lt_Some. }
        exists msg, s'. by rewrite (bind_Ok _ _ _ _ _ Hbody).
    + destruct Hg as (msg & s' & Hg). exists msg, s'.
      apply bind_Raise. by apply bind_Raise.
Qed.

(** The loop over the dictionaries: [done] have been overridden, [todo]
    are still to be. *)
Lemma custom_search_dicts_run (h : list obj) ov items n :
  h !! ov = Some (ODict items) →
  (∀ k g, (k, g) ∈ items → isinstance_list g = false) →
  ∀ todo done s,
  heap s = h ++ (ODict <$> (done ++ todo)) →
  n = (length done + length todo)%nat →
  match override_dicts items todo (world s) with
  | Some (todo', w') =>
      forM_ (Z.of_nat <$> seq (length done) (length todo)) (λ i,
        items ← deref_dict ov;
        forM_ items (λ item : string * pyval,
          v ← _generate_random np item.2;
          d ← list_getitem (A:=loc) (seq (length h) n) i;
          dict_setitem d item.1 v)) s
      = (Ok (), Store (h ++ (ODict <$> (done ++ todo'))) w' (warned s))
  | None =>
      ∃ msg s',
        forM_ (Z.of_nat <$> seq (length done) (length todo)) (λ i,
          items ← deref_dict ov;
          forM_ items (λ item : string * pyval,
            v ← _generate_random np item.2;
            d ← list_getitem (A:=loc) (seq (length h) n) i;
            dict_setitem d item.1 v)) s
        = (Raise (UserError msg), s')
  end.
Proof.
  intros Hov Hnl. induction todo as [|d todo IH]; intros done s Hs Hn.
  - simpl. rewrite <- Hs. by destruct s.
  - cbn [override_dicts length seq]. rewrite fmap_cons. cbn [forM_].
    assert (Hov' : heap s !! ov = Some (ODict items)).
    { rewrite Hs. by apply lookup_app_l_Some. }
    assert (Hr : py_index (seq (length h) n) (Z.of_nat (length done))
                 = Some (length h + length done)%nat).
    { unfold py_index. rewrite decide_True by lia.
      rewrite Nat2Z.id. apply lookup_seq_lt. simpl in Hn. lia. }
    assert (Hd : heap s !! (length h + length done)%nat = Some (ODict d)).
    { rewrite Hs, lookup_app_r by lia.
      replace (length h + length done - length h)%nat with (length done)
        by lia.
      rewrite list_lookup_fmap, list_lookup_middle; done. }
    pose proof (custom_search_dict_run _ _ _ items Hr Hnl d s Hd) as Hdict.
    assert (Hbody : ∀ r,
      forM_ items (λ item : string * pyval,
        v ← _generate_random np item.2;
        d ← list_getitem (A:=loc) (seq (length h) n)
              (Z.of_nat (length done));
        dict_setitem d item.1 v) s = r →
      (items ← deref_dict ov;
       forM_ items (λ item : string * pyval,
         v ← _generate_random np item.2;
         d ← list_getitem (A:=loc) (seq (length h) n)
               (Z.of_nat (length done));
         dict_setitem d item.1 v)) s = r).
    { intros r <-. by rewrite (bind_Ok _ _ _ _ _ (deref_dict_run _ _ _ Hov')). }
    destruct (override_dict items d (world s)) as [[d' w1]|].
    + apply Hbody in Hdict. set (s1 := Store _ w1 (warned s)) in Hdict.
      specialize (IH (done ++ [d']) s1).
      rewrite length_app in IH. simpl in IH.
      rewrite Nat.add_1_r in IH. change (world s1) with w1 in IH.
      assert (Hs1 : heap s1 = h ++ (ODict <$> ((done ++ [d']) ++ todo))).
      { subst s1. simpl. rewrite Hs.
        rewrite insert_app_r_alt by lia.
        replace (length h + length done - length h)%nat with (length done)
          by lia.
        rewrite <- list_fmap_insert. f_equal. f_equal.
        rewrite <- (assoc_L (++)). simpl.
        rewrite insert_app_r_alt by lia.
        by rewrite Nat.sub_diag. }
      specialize (IH Hs1 ltac:(simpl in Hn; lia)).
      destruct (override_dicts items todo w1) as [[todo' w']|].
      * rewrite bind_run, Hdict, IH. rewrite <- (assoc_L (++)). done.
      * destruct IH as (msg & s' & IH). exists msg, s'.
        by rewrite bind_run, Hdict.
    + destruct Hdict as (msg & s' & Hdict). apply Hbody in Hdict.
      exists msg, s'. by apply bind_Raise.
Qed.

Lemma override_dict_other items d w d' w' k :
  override_dict items d w = Some (d', w') →
  k ∉ dict_keys items → dict_get d' k = dict_get d k.
Proof.
  revert d w. induction items as [|[k0 g] items IH]; intros d w; simpl.
  - by intros [= <- <-].
  - destruct (draw g w) as [[v w1]|]; [|done]. intros Hrun Hk.
    apply not_elem_of_cons in Hk as [Hne Hk].
    rewrite (IH _ _ Hrun Hk). by apply dict_get_set_ne.
Qed.

Lemma override_dict_keys items d w d' w' k :
  override_dict items d w = Some (d', w') →
  is_Some (dict_get d k) ∨ k ∈ dict_keys items → is_Some (dict_get d' k).
Proof.
  revert d w. induction items as [|[k0 g] items IH]; intros d w; simpl.
  - intros [= <- <-] [H|H]; [done|by apply elem_of_nil in H].
  - destruct (draw g w) as [[v w1]|]; [|done]. intros Hrun Hk.
    apply (IH _ _ Hrun). destruct (decide (k0 = k)) as [->|Hne].
    + left. rewrite dict_get_set_eq. by eexists.
    + destruct Hk as [Hk|Hk].
      * left. by rewrite dict_get_set_ne.
      * right. apply elem_of_cons in Hk as [Hk|Hk]; [congruence|done].
Qed.

Lemma override_dict_fixed items d w d' w' k x :
  override_dict items d w = Some (d', w') →
  NoDup (dict_keys items) → (k, PyOther x) ∈ items →
  dict_get d' k = Some (PyOther x).
Proof.
  revert d w. induction items as [|[k0 g] items IH]; intros d w; simpl.
  - intros _ _ Hin. by apply elem_of_nil in Hin.
  - destruct (draw g w) as [[v w1]|] eqn:Hdraw; [|done]. intros Hrun Hnd Hin.
    apply NoDup_cons in Hnd as [Hk0 Hnd].
    apply elem_of_cons in Hin as [[= <- <-]|Hin].
    + simpl in Hdraw. injection Hdraw as <- <-.
      rewrite (override_dict_other _ _ _ _ _ _ Hrun Hk0).
      apply dict_get_set_eq.
    + by eapply IH.
Qed.

Lemma override_dicts_lookup items ds w ds' w' :
  override_dicts items ds w = Some (ds', w') →
  length ds' = length ds
  ∧ ∀ i d d', ds !! i = Some d → ds' !! i = Some d' →
      ∃ w1 w2, override_dict items d w1 = Some (d', w2).
Proof.
  revert w ds'. induction ds as [|d ds IH]; intros w ds'; simpl.
  - intros [= <- <-]. split; [done|]. intros i d d' Hd. done.
  - destruct (override_dict items d w) as [[d1 w1]|] eqn:Hd1; [|done].
    destruct (override_dicts items ds w1) as [[ds1 w2]|] eqn:Hds; [|done].
    intros [= <- <-]. destruct (IH _ _ Hds) as [Hlen Hall].
    split; [simpl; by rewrite Hlen|].
    intros [|i] d0 d0'; simpl.
    + intros [= <-] [= <-]. eauto.
    + apply Hall.
Qed.

(** C8, as amended: [custom_search(overwritten_hyp, n)] is
    [default_search(n)] followed by the overrides, where no override is
    list-valued.  When the default search returns, the call returns the [n]
    dictionary objects of that search, unless the call of an override
    raises, and then the call raises what it raised.  The dictionaries are
    overridden one after the other in the order of the result, and for each
    of them every override is resolved anew, in the order of the overrides:
    a callable is called once per dictionary, in the outside world that the
    call before it left, and a fixed value is entered as it is, in every
    dictionary.  Every key that is not overridden holds what the default
    search gave it.  The names and generators of the overrides are not
    checked: a name that is no hyperparameter is entered in every
    dictionary like the others. *)
Theorem custom_search_overrides self ov items n s rs s1 :
  heap s !! ov = Some (ODict items) →
  NoDup (dict_keys items) →
  (∀ k g, (k, g) ∈ items → isinstance_list g = false) →
  default_search self n s = (Ok rs, s1) →
  ∃ ds,
    heap s1 = heap s ++ (ODict <$> ds)
    ∧ rs = seq (length (heap s)) (length ds)
    ∧ length ds = Z.to_nat n
    ∧ match override_dicts items ds (world s1) with
      | Some (ds', w') =>
          custom_search np self ov n s
          = (Ok rs, Store (heap s ++ (ODict <$> ds')) w' (warned s1))
          ∧ length ds' = length ds
          ∧ ∀ i d d', ds !! i = Some d → ds' !! i = Some d' →
              (∀ k, k ∉ dict_keys items → dict_get d' k = dict_get d k)
              ∧ (∀ k, k ∈ dict_keys items → is_Some (dict_get d' k))
              ∧ (∀ k x, (k, PyOther x) ∈ items →
                        dict_get d' k = Some (PyOther x))
      | None =>
          ∃ msg s', custom_search np self ov n s
                    = (Raise (UserError msg), s')
      end.
Proof.
  intros Hov Hnd Hnl Hds.
  destruct (default_search_shape _ _ _ _ _ Hds) as (ds & -> & Hh1 & Hlen).
  exists ds. split; [done|]. split; [by rewrite Hlen|]. split; [done|].
  pose proof (custom_search_dicts_run (heap s) ov items (Z.to_nat n) Hov Hnl
                ds [] s1 Hh1 ltac:(simpl; lia)) as Hloop.
  simpl in Hloop. rewrite Hlen in Hloop. fold (range n) in Hloop.
  unfold custom_search. rewrite (bind_Ok _ _ _ _ _ Hds).
  destruct (override_dicts items ds (world s1)) as [[ds' w']|] eqn:Hover.
  - split; [by rewrite (bind_Ok _ _ _ _ _ Hloop)|].
    destruct (override_dicts_lookup _ _ _ _ _ Hover) as [Hlen' Hall].
    split; [done|]. intros i d d' Hd Hd'.
    destruct (Hall i d d' Hd Hd') as (w1 & w2 & Hone).
    split; [intros k Hk; by eapply override_dict_other|].
    split; [intros k Hk; eapply override_dict_keys; eauto|].
    intros k x Hin. by eapply override_dict_fixed.
  - destruct Hloop as (msg & s' & Hloop). exists msg, s'.
    by apply bind_Raise.
Qed.

(** ** [one_value_search]: the remainder *)

Lemma forM_inv_Ok {A} (ys : list A) (f : A → M unit) s s' :
  forM_ ys f s = (Ok (), s') →
  ∀ y, y ∈ ys → ∃ s1 s2, f y s1 = (Ok (), s2).
Proof.
  revert s. induction ys as [|y ys IH]; intros s Hrun z Hz.
  - by apply elem_of_nil in Hz.
  - simpl in Hrun. apply bind_inv_Ok in Hrun as ([] & s1 & Hy & Hrest).
    apply elem_of_cons in Hz as [->|Hz]; [eauto|]. by eapply IH.
Qed.

(** When [one_value_search] returns, [n] is a multiple of the number of
    interests: otherwise the round [i = k * n_rep] looks up
    [interests[k]], one past the end of the list. *)
Lemma one_value_search_returns_multiple self interests n s rs s' :
  interests ≠ [] →
  one_value_search np self interests n s = (Ok rs, s') →
  n `mod` Z.of_nat (length interests) = 0.
Proof.
  intros Hne Hrun. set (k := Z.of_nat (length interests)) in *.
  assert (Hk : 0 < k) by (destruct interests; [done | simpl in k; lia]).
  unfold one_value_search in Hrun. fold k in Hrun.
  rewrite (bind_Ok _ _ _ _ _ (floordiv_run n k s ltac:(lia))) in Hrun.
  apply bind_inv_Ok in Hrun as ([] & s0 & Hassert & Hrun).
  assert (Hrep : n / k > 0).
  { unfold assert_ in Hassert. case_bool_decide; [done|discriminate]. }
  apply bind_inv_Ok in Hrun as (rs1 & s1 & _ & Hrun).
  apply bind_inv_Ok in Hrun as ([] & s2 & Hloop & _).
  destruct (decide (n `mod` k = 0)) as [|Hmod]; [done|exfalso].
  pose proof (Z.div_mod n k ltac:(lia)) as Hdm.
  pose proof (Z.mod_pos_bound n k Hk) as Hb.
  destruct (forM_inv_Ok _ _ _ _ Hloop (k * (n / k))) as (sa & sb & Hbody).
  { apply elem_of_range. nia. }
  cbv beta in Hbody. rewrite Z.div_mul in Hbody by lia.
  apply bind_inv_Ok in Hbody as (h & s3 & Hget & _).
  unfold list_getitem, py_index in Hget.
  rewrite decide_True in Hget by lia. subst k.
  rewrite Nat2Z.id in Hget.
  rewrite (proj2 (lookup_ge_None interests (length interests))) in Hget
    by done.
  discriminate.
Qed.

(** ** The effects of a construction *)

Lemma not_covered_defaults_eq gens defs :
  (list_to_set (dict_keys gens) : gset string)
  ∖ ((list_to_set (dict_keys gens)
      ∖ list_to_set (dict_keys (filter (λ kv, is_callable kv.2 = true) gens)))
     ∪ list_to_set (dict_keys defs))
  = callables_without_default gens defs.
Proof.
  unfold callables_without_default.
  assert (Hsub : (list_to_set (dict_keys
                    (filter (λ kv, is_callable kv.2 = true) gens))
                  : gset string) ⊆ list_to_set (dict_keys gens)).
  { intros k. rewrite !elem_of_list_to_set. unfold dict_keys.
    rewrite !list_elem_of_fmap. intros (kv & -> & Hkv).
    apply list_elem_of_filter in Hkv as [_ Hkv]. eauto. }
  apply set_eq. intros k. specialize (Hsub k).
  rewrite !elem_of_difference, elem_of_union, elem_of_difference.
  split.
  - intros [Hall Hn]. split.
    + destruct (decide (k ∈ (list_to_set (dict_keys
               (filter (λ kv, is_callable kv.2 = true) gens)) : gset string)))
        as [?|Hc]; [done|]. exfalso. apply Hn. left. done.
    + intros Hd. apply Hn. by right.
  - intros [Hc Hd]. split; [by apply Hsub|]. intros [[_ Hnc]|Hd']; done.
Qed.

Lemma check_config_effects self gens defs s :
  heap s !! hyperparams self = Some (ODict gens) →
  heap s !! hyp_defaults self = Some (ODict defs) →
  NoDup (dict_keys gens) →
  _check_config iter_set self s
  = (match config_problems iter_set gens defs (world s) with
     | [] => Ok ()
     | errors => Raise (AssertionError (Problems errors))
     end,
     Store (heap s)
           (probes_world gens (callable_names iter_set gens) (world s))
           (warned s ++ config_warnings gens defs)).
Proof.
  intros Hg Hd Hnd. unfold _check_config.
  rewrite (bind_Ok _ _ _ _ _ (deref_dict_run _ _ _ Hg)).
  rewrite (bind_Ok _ _ _ _ _ (deref_dict_run _ _ _ Hd)).
  rewrite not_covered_defaults_eq.
  fold (unknown_defaults gens defs). fold (callable_names iter_set gens).
  erewrite bind_Ok; last first.
  { apply check_config_loop; [done|]. intros name Hn.
    by apply elem_of_callable_names. }
  unfold config_problems.
  assert (Hsz : ∀ X : gset string, size X ≠ 0%nat ↔ X ≠ ∅).
  { intros X. by rewrite size_empty_iff, leibniz_equiv_iff. }
  set (errors := _ ++ call_errors _).
  set (errors' := _ ++ call_errors _).
  assert (errors = errors') as ->.
  { subst errors errors'. f_equal.
    destruct (decide (size _ ≠ 0%nat)) as [H|H];
      destruct (decide (unknown_defaults gens defs ≠ ∅)) as [H'|H'];
      try done; [by apply Hsz in H | by apply Hsz in H']. }
  set (s1 := set_world _ s).
  match goal with
  | |- context [ (?m ≫= _) s1 ] =>
      assert (m s1 = (Ok (), Store (heap s) (world s1)
                               (warned s ++ config_warnings gens defs)))
        as Hm
  end.
  { unfold config_warnings.
    destruct (decide (size _ ≠ 0%nat)) as [H|H];
      destruct (decide (callables_without_default gens defs ≠ ∅)) as [H'|H'];
      [reflexivity | by apply Hsz in H | by apply Hsz in H' |].
    rewrite app_nil_r. by destruct s. }
  rewrite (bind_Ok _ _ _ _ _ Hm).
  destruct errors' as [|e es]; reflexivity.
Qed.

Lemma init_run hp arg gens defs s :
  heap s !! hp = Some (ODict gens) →
  defaults_arg_is s arg defs →
  NoDup (dict_keys gens) →
  __init__ iter_set hp arg s
  = (match config_problems iter_set gens defs (world s) with
     | [] => Ok (init_self (heap s) arg)
     | errors => Raise (AssertionError (Problems errors))
     end,
     Store (heap s ++ init_allocated arg gens)
           (probes_world gens (callable_names iter_set gens) (world s))
           (warned s ++ config_warnings gens defs)).
Proof.
  intros Hhp Harg Hnd. unfold __init__.
  destruct arg as [ld|]; simpl in Harg.
  - rewrite (bind_Ok _ _ _ _ _ (ret_run ld s)).
    rewrite (bind_Ok _ _ _ _ _ (deref_dict_run _ _ _ Hhp)).
    erewrite bind_Ok; [|reflexivity].
    rewrite bind_run, (check_config_effects _ gens defs); simpl; [| | |done].
    + destruct (config_problems _ _ _ _); reflexivity.
    + by rewrite lookup_app_r, Nat.sub_diag.
    + by apply lookup_app_l_Some.
  - subst defs.
    erewrite bind_Ok; [|reflexivity].
    erewrite bind_Ok; last first.
    { apply deref_dict_run. simpl. by apply lookup_app_l_Some. }
    erewrite bind_Ok; [|reflexivity].
    rewrite bind_run, (check_config_effects _ gens []); simpl; [| | |done].
    + rewrite <- (assoc_L (++)). simpl.
      destruct (config_problems _ _ _ _); try reflexivity.
      rewrite length_app. simpl. by rewrite Nat.add_1_r.
    + rewrite lookup_app_r; rewrite length_app; simpl; [|lia].
      by replace (length (heap s) + 1 - (length (heap s) + 1))%nat
        with 0%nat by lia.
    + rewrite <- (assoc_L (++)). by apply list_lookup_middle.
Qed.

Lemma elem_of_callables_without_default gens defs k :
  NoDup (dict_keys gens) →
  k ∈ callables_without_default gens defs
  ↔ (∃ f, dict_get gens k = Some (PyCallable f)) ∧ dict_get defs k = None.
Proof.
  intros Hnd. unfold callables_without_default.
  rewrite elem_of_difference, (elem_of_list_to_set (C:=gset string) k (dict_keys defs)).
  rewrite dict_get_is_Some, <- eq_None_not_Some.
  pose proof (elem_of_callable_names gens k Hnd) as Hc.
  unfold callable_names in Hc.
  rewrite iter_set_elements, elem_of_elements in Hc.
  by rewrite Hc.
Qed.

(** X1: a construction, whether it returns or fails in [_check_config],
    writes to no object that exists: the heap afterwards is the heap before,
    followed by the new empty defaults map when [hyp_defaults] is [None], and
    by the copy of the generator map.  The searcher it returns holds that
    copy, which is not the caller's dictionary, and as its defaults map the
    very object that was passed. *)
Theorem init_copies_generators hp arg gens defs s r s' :
  heap s !! hp = Some (ODict gens) →
  defaults_arg_is s arg defs →
  NoDup (dict_keys gens) →
  __init__ iter_set hp arg s = (r, s') →
  heap s' = heap s ++ init_allocated arg gens
  ∧ ∀ self, r = Ok self →
      heap s' !! hyperparams self = Some (ODict gens)
      ∧ hyperparams self ≠ hp
      ∧ (length (heap s) ≤ hyperparams self)%nat
      ∧ heap s' !! hyp_defaults self = Some (ODict defs)
      ∧ ∀ ld, arg = Some ld → hyp_defaults self = ld.
Proof.
  intros Hhp Harg Hnd Hrun.
  rewrite (init_run _ _ _ _ _ Hhp Harg Hnd) in Hrun.
  injection Hrun as Hr <-. split; [reflexivity|].
  intros self ->. simpl.
  destruct (config_problems _ _ _ _); [|discriminate].
  injection Hr as <-.
  apply lookup_lt_Some in Hhp as Hlt.
  destruct arg as [ld|]; simpl in *.
  - split; [by rewrite lookup_app_r, Nat.sub_diag|].
    split; [lia|]. split; [lia|].
    split; [by apply lookup_app_l_Some|]. by intros ? [= ->].
  - subst defs. split.
    { rewrite lookup_app_r by lia.
      by replace (S (length (heap s)) - length (heap s))%nat with 1%nat
        by lia. }
    split; [lia|]. split; [lia|].
    split; [by apply list_lookup_middle|]. discriminate.
Qed.

(** X2: what a construction does besides allocating, whether it returns or
    fails.  It calls every callable hyperparameter exactly once, one after
    the other, in the order [iter_set] in which the interpreter goes through
    the set of their names, whatever that order is; and it logs one warning
    exactly when some callable hyperparameter has no entry in the defaults
    map, which names exactly those hyperparameters. *)
Theorem init_probes_and_warns hp arg gens defs s r s' :
  heap s !! hp = Some (ODict gens) →
  defaults_arg_is s arg defs →
  NoDup (dict_keys gens) →
  __init__ iter_set hp arg s = (r, s') →
  world s' = probes_world gens (callable_names iter_set gens) (world s)
  ∧ NoDup (callable_names iter_set gens)
  ∧ (∀ k, k ∈ callable_names iter_set gens
          ↔ ∃ f, dict_get gens k = Some (PyCallable f))
  ∧ warned s'
    = warned s
      ++ (if decide (callables_without_default gens defs ≠ ∅)
          then [NoDefaultValues (callables_without_default gens defs)]
          else [])
  ∧ ∀ k, k ∈ callables_without_default gens defs
         ↔ (∃ f, dict_get gens k = Some (PyCallable f))
           ∧ dict_get defs k = None.
Proof.
  intros Hhp Harg Hnd Hrun.
  rewrite (init_run _ _ _ _ _ Hhp Harg Hnd) in Hrun.
  injection Hrun as _ <-. simpl.
  split; [reflexivity|].
  split; [unfold callable_names; rewrite iter_set_elements;
          apply NoDup_elements|].
  split; [intros k; by apply elem_of_callable_names|].
  split; [reflexivity|].
  intros k. by apply elem_of_callables_without_default.
Qed.

(** X3: which later changes of the caller reach a searcher that was built
    with a defaults map.  The defaults map is shared: after the caller
    stores [v] under [k] in it, the default of [k] is [v].  The generator
    map is copied: after the caller stores into its own generator map, the
    searcher's map is as before.  The copy is shallow: after the caller
    changes a candidate list in place, the default of a hyperparameter with
    that list and no entry in the defaults map is the list's new first
    element. *)
Theorem init_aliases_defaults hp ld gens defs s self s1 :
  heap s !! hp = Some (ODict gens) →
  heap s !! ld = Some (ODict defs) →
  NoDup (dict_keys gens) →
  __init__ iter_set hp (Some ld) s = (Ok self, s1) →
  (∀ k v,
     (dict_setitem ld k v;; _choose_default self k) s1
     = (Ok v, set_heap (<[ld := ODict (dict_set defs k v)]> (heap s1)) s1))
  ∧ (∀ k v,
       (dict_setitem hp k v;; deref_dict (hyperparams self)) s1
       = (Ok gens,
          set_heap (<[hp := ODict (dict_set gens k v)]> (heap s1)) s1))
  ∧ (∀ k l ys x xs,
       dict_get gens k = Some (PyList l) → dict_get defs k = None →
       heap s !! l = Some (OList ys) →
       (assign l (OList (x :: xs));; _choose_default self k) s1
       = (Ok (PyOther x),
          set_heap (<[l := OList (x :: xs)]> (heap s1)) s1)).
Proof.
  intros Hhp Hld Hnd Hrun.
  rewrite (init_run hp (Some ld) gens defs s Hhp Hld Hnd) in Hrun.
  destruct (config_problems _ _ _ _); [|discriminate].
  injection Hrun as <- <-. simpl.
  set (s1 := Store _ _ _).
  pose proof (lookup_lt_Some _ _ _ Hhp) as Hhp_lt.
  pose proof (lookup_lt_Some _ _ _ Hld) as Hld_lt.
  assert (Hg1 : heap s1 !! length (heap s) = Some (ODict gens)).
  { simpl. by rewrite lookup_app_r, Nat.sub_diag. }
  assert (Hd1 : heap s1 !! ld = Some (ODict defs)).
  { simpl. by apply lookup_app_l_Some. }
  assert (Hh1 : heap s1 !! hp = Some (ODict gens)).
  { simpl. by apply lookup_app_l_Some. }
  split; [|split].
  - intros k v.
    rewrite (bind_Ok _ _ _ _ _ (dict_setitem_run _ _ k v _ Hd1)).
    unfold _choose_default. simpl hyp_defaults.
    erewrite bind_Ok; last first.
    { apply deref_dict_run. simpl heap.
      apply list_lookup_insert_eq. simpl. rewrite length_app. lia. }
    by rewrite dict_get_set_eq.
  - intros k v.
    rewrite (bind_Ok _ _ _ _ _ (dict_setitem_run _ _ k v _ Hh1)).
    simpl hyperparams. apply deref_dict_run. simpl heap.
    rewrite list_lookup_insert_ne by lia.
    by rewrite lookup_app_r, Nat.sub_diag.
  - intros k l ys x xs Hk Hnone Hl.
    pose proof (lookup_lt_Some _ _ _ Hl) as Hl_lt.
    assert (l ≠ ld) by (intros ->; congruence).
    erewrite bind_Ok; [|reflexivity].
    set (s2 := set_heap _ s1).
    unfold _choose_default. simpl hyp_defaults. simpl hyperparams.
    erewrite bind_Ok; last first.
    { apply deref_dict_run. subst s2. simpl heap.
      rewrite list_lookup_insert_ne by done. by apply lookup_app_l_Some. }
    rewrite Hnone.
    erewrite bind_Ok; last first.
    { eapply dict_getitem_run; [|exact Hk]. subst s2. simpl heap.
      rewrite list_lookup_insert_ne by lia.
      by rewrite lookup_app_r, Nat.sub_diag. }
    change (isinstance_list (PyList l)) with true. cbv iota.
    change (list_elems (PyList l)) with (@deref_list value W l).
    erewrite bind_Ok; last first.
    { apply deref_list_run. subst s2. simpl heap.
      apply list_lookup_insert_eq. rewrite length_app. lia. }
    reflexivity.
Qed.

(** ** Default dictionaries *)

Lemma dict_set_fresh d k v : k ∉ dict_keys d → dict_set d k v = d ++ [(k, v)].
Proof.
  induction d as [|[k' v'] d IH]; simpl; [done|].
  intros Hk. apply not_elem_of_cons in Hk as [Hne Hk].
  case_decide; [congruence|]. by rewrite IH.
Qed.

Lemma dict_of_pairs_NoDup (pairs : list (string * pyval)) :
  NoDup pairs.*1 → dict_of_pairs pairs = pairs.
Proof.
  induction pairs as [|[k v] pairs IH] using rev_ind; [done|].
  rewrite fmap_app. simpl. intros Hnd.
  apply NoDup_app in Hnd as (Hnd & Hk & _).
  rewrite dict_of_pairs_snoc, IH by done.
  apply dict_set_fresh. intros Hin. apply (Hk k Hin). left.
Qed.

Lemma default_pairs_keys h gens defs keys :
  (∀ k, k ∈ keys → is_Some (static_default h gens defs k)) →
  (omap (λ k, pair k <$> static_default h gens defs k) keys).*1 = keys.
Proof.
  induction keys as [|k keys IH]; [done|]. intros Hall. csimpl.
  destruct (Hall k) as [v Hv]; [left|]. rewrite Hv. csimpl.
  rewrite IH; [done|]. intros k' Hk'. apply Hall. by right.
Qed.

Lemma default_content_keys h gens defs :
  NoDup (dict_keys gens) → has_static_defaults h gens defs →
  dict_keys (default_content h gens defs) = dict_keys gens.
Proof.
  intros Hnd Hall. unfold default_content.
  rewrite dict_of_pairs_NoDup; unfold dict_keys.
  - by apply default_pairs_keys.
  - by rewrite default_pairs_keys.
Qed.

(** X4: when the default of every hyperparameter is found without a call,
    [default_search(n)] returns [n] new, pairwise different dictionaries
    with one and the same content and leaves the outside world and the
    warnings as they are.  The content lists the hyperparameters in the
    order of the generator map, each with its entry in the defaults map,
    else the first candidate of its list, else its fixed value. *)
Theorem default_search_content self gens defs n s :
  heap s !! hyperparams self = Some (ODict gens) →
  heap s !! hyp_defaults self = Some (ODict defs) →
  NoDup (dict_keys gens) →
  has_static_defaults (heap s) gens defs →
  ∃ rs s' d0,
    default_search self n s = (Ok rs, s')
    ∧ length rs = Z.to_nat n ∧ NoDup rs
    ∧ world s' = world s ∧ warned s' = warned s
    ∧ heap s `prefix_of` heap s'
    ∧ (∀ r, r ∈ rs →
         (length (heap s) ≤ r)%nat ∧ heap s' !! r = Some (ODict d0))
    ∧ dict_keys d0 = dict_keys gens
    ∧ ∀ k, k ∈ dict_keys gens →
        dict_get d0 k = static_default (heap s) gens defs k.
Proof.
  intros Hg Hd Hnd Hall.
  eexists _, _, (default_content (heap s) gens defs).
  split; [by apply (default_search_static _ gens defs)|].
  split; [by rewrite length_seq|]. split; [apply NoDup_seq|].
  split; [done|]. split; [done|]. simpl.
  split; [by apply prefix_app_r|].
  split; [|split].
  - intros r Hr. apply elem_of_seq in Hr. split; [lia|].
    rewrite lookup_app_r by lia. apply lookup_replicate. split; [done|lia].
  - by apply default_content_keys.
  - intros k Hk. destruct (Hall k Hk) as [v Hv]. rewrite Hv.
    by apply dict_get_default_content.
Qed.

Lemma choose_default_empty_list self gens defs k l s :
  heap s !! hyperparams self = Some (ODict gens) →
  heap s !! hyp_defaults self = Some (ODict defs) →
  dict_get defs k = None → dict_get gens k = Some (PyList l) →
  heap s !! l = Some (OList []) →
  _choose_default self k s = (Raise IndexError, s).
Proof.
  intros Hg Hd Hnone Hk Hl. unfold _choose_default.
  rewrite (bind_Ok _ _ _ _ _ (deref_dict_run _ _ _ Hd)), Hnone.
  rewrite (bind_Ok _ _ _ _ _ (dict_getitem_run _ _ _ _ _ Hg Hk)).
  change (isinstance_list (PyList l)) with true. cbv iota.
  change (list_elems (PyList l)) with (@deref_list value W l).
  by rewrite (bind_Ok _ _ _ _ _ (deref_list_run _ _ _ Hl)).
Qed.

Lemma default_pairs_empty_list self gens defs k l keys s :
  heap s !! hyperparams self = Some (ODict gens) →
  heap s !! hyp_defaults self = Some (ODict defs) →
  dict_get defs k = None → dict_get gens k = Some (PyList l) →
  heap s !! l = Some (OList []) →
  k ∈ keys →
  (∀ k', k' ∈ keys → k' ≠ k →
         is_Some (static_default (heap s) gens defs k')) →
  mapM (λ hyp_name, v ← _choose_default self hyp_name; mret (hyp_name, v))
       keys s
  = (Raise IndexError, s).
Proof.
  intros Hg Hd Hnone Hk Hl. induction keys as [|k0 keys IH]; intros Hin Hall.
  { by apply elem_of_nil in Hin. }
  simpl. destruct (decide (k0 = k)) as [->|Hne].
  - rewrite bind_run, bind_run.
    by rewrite (choose_default_empty_list _ gens defs k l).
  - destruct (Hall k0) as [v Hv]; [left|done|].
    rewrite bind_run, bind_run.
    rewrite (choose_default_static _ gens defs k0 v) by done.
    rewrite ret_run, bind_run, IH; [done| |].
    + apply elem_of_cons in Hin as [->|Hin]; done.
    + intros k' Hk'. apply Hall. by right.
Qed.

(** X5: a hyperparameter with an empty candidate list and no entry in the
    defaults map makes every default dictionary fail.  When the defaults of
    the other hyperparameters are found without a call, [default_dict()] and
    [default_search(n)] for [n > 0] raise [IndexError] and have allocated
    nothing, and [default_search(n)] for [n <= 0] returns the empty list. *)
Theorem default_dict_empty_candidates self gens defs k l s :
  heap s !! hyperparams self = Some (ODict gens) →
  heap s !! hyp_defaults self = Some (ODict defs) →
  dict_get defs k = None → dict_get gens k = Some (PyList l) →
  heap s !! l = Some (OList []) →
  (∀ k', k' ∈ dict_keys gens → k' ≠ k →
         is_Some (static_default (heap s) gens defs k')) →
  default_dict self s = (Raise IndexError, s)
  ∧ (∀ n, 0 < n → default_search self n s = (Raise IndexError, s))
  ∧ (∀ n, n ≤ 0 → default_search self n s = (Ok [], s)).
Proof.
  intros Hg Hd Hnone Hk Hl Hall.
  assert (Hdd : default_dict self s = (Raise IndexError, s)).
  { unfold default_dict.
    rewrite (bind_Ok _ _ _ _ _ (deref_dict_run _ _ _ Hg)).
    rewrite bind_run.
    rewrite (default_pairs_empty_list _ gens defs k l); try done.
    by eapply dict_get_keys. }
  split; [exact Hdd|]. split.
  - intros n Hn. unfold default_search, range.
    destruct (Z.to_nat n) as [|m] eqn:Hm; [lia|].
    simpl. by rewrite bind_run, Hdd.
  - intros n Hn. unfold default_search, range.
    by replace (Z.to_nat n) with 0%nat by lia.
Qed.

(** X6: the default of a hyperparameter without an entry in the defaults
    map, when it is not found by reading.  For a callable generator the
    resolution logs the missing default and then makes the call, so that the
    outside world moves on at every resolution and the warning is logged
    even when the call raises.  For a name that is no hyperparameter it
    raises [KeyError] and logs nothing.  An entry in the defaults map is
    returned as it is, whatever the generator: nothing is called or logged,
    and the name need not be a hyperparameter. *)
Theorem choose_default_dynamic self gens defs k s :
  heap s !! hyperparams self = Some (ODict gens) →
  heap s !! hyp_defaults self = Some (ODict defs) →
  (∀ f, dict_get defs k = None → dict_get gens k = Some (PyCallable f) →
     _choose_default self k s
     = (match (f (world s)).1 with
        | inr x => Ok (PyOther x)
        | inl msg => Raise (UserError msg)
        end,
        Store (heap s) (f (world s)).2 (warned s ++ [MissingDefault k])))
  ∧ (dict_get defs k = None → dict_get gens k = None →
     _choose_default self k s = (Raise (KeyError k), s))
  ∧ (∀ v, dict_get defs k = Some v → _choose_default self k s = (Ok v, s)).
Proof.
  intros Hg Hd. unfold _choose_default.
  rewrite (bind_Ok _ _ _ _ _ (deref_dict_run _ _ _ Hd)).
  split; [|split].
  - intros f -> Hk.
    rewrite (bind_Ok _ _ _ _ _ (dict_getitem_run _ _ _ _ _ Hg Hk)).
    change (isinstance_list (PyCallable f)) with false.
    change (is_callable (PyCallable f)) with true. cbv iota.
    erewrite bind_Ok; [|reflexivity].
    unfold call. simpl. by destruct (f (world s)) as [[msg|x] w].
  - intros -> Hk. unfold dict_getitem.
    rewrite bind_run, (bind_Ok _ _ _ _ _ (deref_dict_run _ _ _ Hg)), Hk.
    reflexivity.
  - by intros v ->.
Qed.

(** ** The one-value search on multiples of the number of interests *)

Lemma dict_getitem_inv l d k v s s' :
  heap s !! l = Some (ODict d) →
  dict_getitem l k s = (Ok v, s') → dict_get d k = Some v ∧ s' = s.
Proof.
  intros Hl. unfold dict_getitem.
  rewrite (bind_Ok _ _ _ _ _ (deref_dict_run _ _ _ Hl)).
  destruct (dict_get d k); [|discriminate]. by intros [= -> ->].
Qed.

Lemma list_getitem_inv {A} (ys : list A) i y s s' :
  0 ≤ i → list_getitem ys i s = (Ok y, s') →
  ys !! Z.to_nat i = Some y ∧ s' = s.
Proof.
  intros Hi. unfold list_getitem, py_index. rewrite decide_True by done.
  destruct (ys !! Z.to_nat i); [|discriminate]. by intros [= -> ->].
Qed.

(** One round of the loop of [one_value_search], read backwards. *)
Lemma one_value_search_round_inv self gens interests n_rep (rs : list loc)
    i r d s s1 :
  heap s !! hyperparams self = Some (ODict gens) →
  0 ≤ i → 0 < n_rep →
  py_index rs i = Some r → heap s !! r = Some (ODict d) →
  (hyp_name ← list_getitem interests (i / n_rep);
   v ← _choose_random np self hyp_name;
   d ← list_getitem rs i;
   dict_setitem d hyp_name v) s = (Ok (), s1) →
  ∃ name d', interests !! Z.to_nat (i / n_rep) = Some name
             ∧ one_override np gens name d d'
             ∧ heap s1 = <[r := ODict d']> (heap s).
Proof.
  intros Hg Hi Hrep Hr Hd Hrun.
  apply bind_inv_Ok in Hrun as (name & s0 & Hname & Hrun).
  apply list_getitem_inv in Hname as [Hname ->];
    [|apply Z.div_pos; lia].
  apply bind_inv_Ok in Hrun as (v & sa & Hv & Hrun).
  unfold _choose_random in Hv.
  apply bind_inv_Ok in Hv as (g & s0 & Hgen & Hv).
  apply (dict_getitem_inv _ _ _ _ _ _ Hg) in Hgen as [Hgen ->].
  pose proof (kh_generate_random g s) as Hsa. rewrite Hv in Hsa.
  simpl in Hsa.
  assert (Hget : list_getitem rs i sa = (Ok r, sa))
    by (unfold list_getitem; by rewrite Hr).
  rewrite (bind_Ok _ _ _ _ _ Hget) in Hrun.
  assert (Hd' : heap sa !! r = Some (ODict d)) by (by rewrite Hsa).
  rewrite (dict_setitem_run _ _ _ _ _ Hd') in Hrun.
  injection Hrun as <-.
  exists name, (dict_set d name v). split; [done|]. split.
  - by exists g, v, s, sa.
  - simpl. by rewrite Hsa.
Qed.

(** One round returns when the interest of the round is a hyperparameter
    whose random resolution returns. *)
Lemma one_value_search_round_run self gens interests n_rep (rs : list loc)
    i r d name g s :
  heap s !! hyperparams self = Some (ODict gens) →
  0 ≤ i → 0 < n_rep →
  py_index rs i = Some r → heap s !! r = Some (ODict d) →
  interests !! Z.to_nat (i / n_rep) = Some name →
  dict_get gens name = Some g →
  (∀ s0, ∃ v s0', _generate_random np g s0 = (Ok v, s0')) →
  ∃ s1,
    (hyp_name ← list_getitem interests (i / n_rep);
     v ← _choose_random np self hyp_name;
     d ← list_getitem rs i;
     dict_setitem d hyp_name v) s = (Ok (), s1).
Proof.
  intros Hg Hi Hrep Hr Hd Hname Hgen Hdraw.
  assert (Hn : list_getitem interests (i / n_rep) s = (Ok name, s)).
  { unfold list_getitem, py_index.
    rewrite decide_True by (apply Z.div_pos; lia). by rewrite Hname. }
  rewrite (bind_Ok _ _ _ _ _ Hn).
  destruct (Hdraw s) as (v & sa & Hv).
  assert (Hc : _choose_random np self name s = (Ok v, sa)).
  { unfold _choose_random.
    by rewrite (bind_Ok _ _ _ _ _ (dict_getitem_run _ _ _ _ _ Hg Hgen)). }
  rewrite (bind_Ok _ _ _ _ _ Hc).
  pose proof (kh_generate_random g s) as Hsa. rewrite Hv in Hsa.
  simpl in Hsa.
  assert (Hget : list_getitem rs i sa = (Ok r, sa))
    by (unfold list_getitem; by rewrite Hr).
  rewrite (bind_Ok _ _ _ _ _ Hget).
  assert (Hd' : heap sa !! r = Some (ODict d)) by (by rewrite Hsa).
  rewrite (dict_setitem_run _ _ _ _ _ Hd'). by eexists.
Qed.

(** The loop over the result dictionaries [seq (length h) k], which follow
    the heap [h] of the call; [idx] lists the rounds still to be done. *)
Lemma one_value_search_loop_inv self gens interests n_rep (h : list obj)
    k idx :
  h !! hyperparams self = Some (ODict gens) →
  0 < n_rep →
  NoDup idx → (∀ i, i ∈ idx → (i < k)%nat) →
  ∀ ds s s', heap s = h ++ (ODict <$> ds) → length ds = k →
  forM_ (Z.of_nat <$> idx) (λ i,
    hyp_name ← list_getitem interests (i / n_rep);
    v ← _choose_random np self hyp_name;
    d ← list_getitem (A:=loc) (seq (length h) k) i;
    dict_setitem d hyp_name v) s = (Ok (), s') →
  ∃ ds',
    heap s' = h ++ (ODict <$> ds') ∧ length ds' = k
    ∧ (∀ i, i ∉ idx → ds' !! i = ds !! i)
    ∧ (∀ i d, i ∈ idx → ds !! i = Some d →
         ∃ name d', interests !! Z.to_nat (Z.of_nat i / n_rep) = Some name
                    ∧ ds' !! i = Some d'
                    ∧ one_override np gens name d d').
Proof.
  intros Hg Hrep. induction idx as [|i idx IH];
    intros Hnd Hlt ds s s' Hs Hlen Hrun.
  - injection Hrun as <-. exists ds. split; [done|]. split; [done|].
    split; [done|]. intros i d Hi. by apply elem_of_nil in Hi.
  - apply NoDup_cons in Hnd as [Hi Hnd].
    assert (Hik : (i < k)%nat) by (apply Hlt; left).
    destruct (ds !! i) as [d|] eqn:Hd; last first.
    { apply lookup_ge_None in Hd. lia. }
    rewrite fmap_cons in Hrun. cbn [forM_] in Hrun.
    apply bind_inv_Ok in Hrun as ([] & s1 & Hbody & Hrest).
    apply (one_value_search_round_inv self gens interests n_rep _ _
             (length h + i)%nat d) in Hbody
      as (name & d' & Hname & Hover & Hh1).
    2:{ rewrite Hs. by apply lookup_app_l_Some. }
    2:{ lia. }
    2:{ done. }
    2:{ unfold py_index. rewrite decide_True by lia.
        rewrite Nat2Z.id. by apply lookup_seq_lt. }
    2:{ rewrite Hs, lookup_app_r by lia.
        replace (length h + i - length h)%nat with i by lia.
        by rewrite list_lookup_fmap, Hd. }
    destruct (IH Hnd (λ j Hj, Hlt j (list_elem_of_further _ _ _ Hj))
                 (<[i := d']> ds) s1 s')
      as (ds' & Hh' & Hlen' & Hother & Hdone); [| |exact Hrest|].
    { rewrite Hh1, Hs. rewrite insert_app_r_alt by lia.
      replace (length h + i - length h)%nat with i by lia.
      by rewrite list_fmap_insert. }
    { by rewrite length_insert. }
    exists ds'. split; [done|]. split; [done|]. split.
    + intros j Hj. apply not_elem_of_cons in Hj as [Hji Hj].
      rewrite Hother by done. by apply list_lookup_insert_ne.
    + intros j dj Hj Hdj. apply elem_of_cons in Hj as [->|Hj].
      * exists name, d'. split; [done|]. split; [|congruence].
        rewrite Hother by done. apply list_lookup_insert_eq. lia.
      * apply Hdone; [done|]. rewrite list_lookup_insert_ne; [done|].
        intros ->. done.
Qed.

Lemma one_value_search_loop_run self gens interests n_rep (h : list obj)
    k idx :
  h !! hyperparams self = Some (ODict gens) →
  0 < n_rep →
  (∀ i, i ∈ idx → (i < k)%nat) →
  (∀ i, i ∈ idx →
     ∃ name g, interests !! Z.to_nat (Z.of_nat i / n_rep) = Some name
               ∧ dict_get gens name = Some g
               ∧ ∀ s0, ∃ v s0', _generate_random np g s0 = (Ok v, s0')) →
  ∀ ds s, heap s = h ++ (ODict <$> ds) → length ds = k →
  ∃ s',
    forM_ (Z.of_nat <$> idx) (λ i,
      hyp_name ← list_getitem interests (i / n_rep);
      v ← _choose_random np self hyp_name;
      d ← list_getitem (A:=loc) (seq (length h) k) i;
      dict_setitem d hyp_name v) s = (Ok (), s').
Proof.
  intros Hg Hrep. induction idx as [|i idx IH]; intros Hlt Hdraw ds s Hs Hlen.
  - by exists s.
  - assert (Hik : (i < k)%nat) by (apply Hlt; left).
    destruct (ds !! i) as [d|] eqn:Hd; last first.
    { apply lookup_ge_None in Hd. lia. }
    destruct (Hdraw i) as (name & g & Hname & Hgen & Hg_draw); [left|].
    assert (Hgs : heap s !! hyperparams self = Some (ODict gens)).
    { rewrite Hs. by apply lookup_app_l_Some. }
    assert (Hr : py_index (seq (length h) k) (Z.of_nat i)
                 = Some (length h + i)%nat).
    { unfold py_index. rewrite decide_True by lia.
      rewrite Nat2Z.id. by apply lookup_seq_lt. }
    assert (Hdi : heap s !! (length h + i)%nat = Some (ODict d)).
    { rewrite Hs, lookup_app_r by lia.
      replace (length h + i - length h)%nat with i by lia.
      by rewrite list_lookup_fmap, Hd. }
    destruct (one_value_search_round_run self gens interests n_rep
                (seq (length h) k) (Z.of_nat i) (length h + i)%nat d name g s)
      as (s1 & Hbody); try done; [lia|].
    pose proof Hbody as Hbody'.
    apply (one_value_search_round_inv self gens interests n_rep _ _
             (length h + i)%nat d) in Hbody'
      as (name' & d' & _ & _ & Hh1); try done; [|lia].
    destruct (IH (λ j Hj, Hlt j (list_elem_of_further _ _ _ Hj))
                 (λ j Hj, Hdraw j (list_elem_of_further _ _ _ Hj))
                 (<[i := d']> ds) s1) as (s' & Hrun').
    { rewrite Hh1, Hs. rewrite insert_app_r_alt by lia.
      replace (length h + i - length h)%nat with i by lia.
      by rewrite list_fmap_insert. }
    { by rewrite length_insert. }
    exists s'. rewrite fmap_cons. cbn [forM_].
    by rewrite bind_run, Hbody.
Qed.

(** X7: [one_value_search(interests, n)] when [n] is a positive multiple of
    the number [k] of interests.  It returns whenever the default search
    returns and every interest is a hyperparameter whose random resolution
    returns.  Whenever it returns, [n] is such a multiple, the result is the
    [n] dictionary objects of the default search, and dictionary [i] is what
    the default search made, with only the interest at position
    [i // (n // k)] set to a value that [_generate_random] returned for its
    generator: the interests come in blocks of [n // k] dictionaries. *)
Theorem one_value_search_blocks self gens interests n s :
  heap s !! hyperparams self = Some (ODict gens) →
  interests ≠ [] →
  (∀ rs s1,
     n `mod` Z.of_nat (length interests) = 0 → 0 < n →
     default_search self n s = (Ok rs, s1) →
     (∀ name, name ∈ interests →
        ∃ g, dict_get gens name = Some g
             ∧ ∀ s0, ∃ v s0', _generate_random np g s0 = (Ok v, s0')) →
     ∃ s', one_value_search np self interests n s = (Ok rs, s'))
  ∧ (∀ rs s',
       one_value_search np self interests n s = (Ok rs, s') →
       n `mod` Z.of_nat (length interests) = 0 ∧ 0 < n
       ∧ length rs = Z.to_nat n
       ∧ ∃ s1, default_search self n s = (Ok rs, s1)
           ∧ ∀ i r, rs !! i = Some r →
               ∃ name d d',
                 interests
                   !! Z.to_nat (Z.of_nat i / (n / Z.of_nat (length interests)))
                 = Some name
                 ∧ heap s1 !! r = Some (ODict d)
                 ∧ heap s' !! r = Some (ODict d')
                 ∧ one_override np gens name d d'
                 ∧ ∀ key, key ≠ name → dict_get d' key = dict_get d key).
Proof.
  intros Hg Hne. set (k := Z.of_nat (length interests)).
  assert (Hk : 0 < k) by (destruct interests; [done | simpl in k; lia]).
  split.
  - intros rs s1 Hmod Hn Hds Hdraw.
    apply Z.div_exact in Hmod; [|lia].
    assert (Hrep : 0 < n / k) by nia.
    unfold one_value_search. fold k.
    rewrite (bind_Ok _ _ _ _ _ (floordiv_run n k s ltac:(lia))).
    rewrite bool_decide_true by lia.
    rewrite (bind_Ok _ _ _ _ _ (assert_true _ s)).
    rewrite (bind_Ok _ _ _ _ _ Hds).
    destruct (default_search_shape _ _ _ _ _ Hds) as (ds & -> & Hh1 & Hlen).
    destruct (one_value_search_loop_run self gens interests (n / k) (heap s)
                (Z.to_nat n) (seq 0 (Z.to_nat n)) Hg Hrep) with (ds := ds)
                (s := s1) as (s' & Hloop); [| |done|done|].
    { intros i Hi. apply elem_of_seq in Hi. lia. }
    { intros i Hi. apply elem_of_seq in Hi.
      assert (Hlt : Z.of_nat i / (n / k) < k).
      { apply Z.div_lt_upper_bound; [done|]. nia. }
      assert (0 ≤ Z.of_nat i / (n / k)) by (apply Z.div_pos; lia).
      destruct (lookup_lt_is_Some_2 interests
                  (Z.to_nat (Z.of_nat i / (n / k)))) as [name Hname].
      { subst k. lia. }
      destruct (Hdraw name) as (g & Hgen & Hgd).
      { by eapply list_elem_of_lookup_2. }
      by exists name, g. }
    exists s'. unfold range. by rewrite (bind_Ok _ _ _ _ _ Hloop).
  - intros rs s' Hrun.
    pose proof (one_value_search_returns_multiple _ _ _ _ _ _ Hne Hrun)
      as Hmod. fold k in Hmod.
    unfold one_value_search in Hrun. fold k in Hrun.
    rewrite (bind_Ok _ _ _ _ _ (floordiv_run n k s ltac:(lia))) in Hrun.
    apply bind_inv_Ok in Hrun as ([] & s0 & Hassert & Hrun).
    assert (n / k > 0 ∧ s0 = s) as [Hrep ->].
    { unfold assert_ in Hassert.
      case_bool_decide; [by injection Hassert|discriminate]. }
    apply bind_inv_Ok in Hrun as (rs1 & s1 & Hds & Hrun).
    apply bind_inv_Ok in Hrun as ([] & s2 & Hloop & Hret).
    injection Hret as -> ->.
    destruct (default_search_shape _ _ _ _ _ Hds) as (ds & -> & Hh1 & Hlen).
    apply (one_value_search_loop_inv self gens interests (n / k) (heap s)
             (Z.to_nat n) (seq 0 (Z.to_nat n)) Hg ltac:(lia)
             (NoDup_seq _ _)) with (ds := ds) in Hloop
      as (ds' & Hh' & Hlen' & _ & Hdone); [| |done|done].
    2:{ intros i Hi. apply elem_of_seq in Hi. lia. }
    assert (0 < n).
    { apply Z.div_exact in Hmod; [|lia]. nia. }
    split; [done|]. split; [done|]. split; [by rewrite length_seq|].
    exists s1. split; [done|]. intros i r Hr.
    apply lookup_seq in Hr as [-> Hi].
    destruct (ds !! i) as [d|] eqn:Hd; last first.
    { apply lookup_ge_None in Hd. lia. }
    destruct (Hdone i d) as (name & d' & Hname & Hd' & Hover);
      [apply elem_of_seq; lia|done|].
    exists name, d, d'. split; [done|].
    split.
    { rewrite Hh1, lookup_app_r by lia.
      replace (length (heap s) + i - length (heap s))%nat with i by lia.
      by rewrite list_lookup_fmap, Hd. }
    split.
    { rewrite Hh', lookup_app_r by lia.
      replace (length (heap s) + i - length (heap s))%nat with i by lia.
      by rewrite list_lookup_fmap, Hd'. }
    split; [done|].
    intros key Hkey. destruct Hover as (g & v & sa & sb & _ & _ & ->).
    by apply dict_get_set_ne.
Qed.

(** X8: the interests of [one_value_search] are not checked before the
    work starts.  When the first interest is no hyperparameter and [n] is
    not below the number of interests, the call raises [KeyError] for that
    name in its first round: by then [default_search(n)] has been run, and
    its dictionaries have been allocated. *)
Theorem one_value_search_unknown_interest self gens name interests n s rs s1 :
  heap s !! hyperparams self = Some (ODict gens) →
  dict_get gens name = None →
  Z.of_nat (length (name :: interests)) ≤ n →
  default_search self n s = (Ok rs, s1) →
  one_value_search np self (name :: interests) n s
  = (Raise (KeyError name), s1)
  ∧ length (heap s1) = (length (heap s) + Z.to_nat n)%nat.
Proof.
  intros Hg Hnone Hn Hds.
  set (k := Z.of_nat (length (name :: interests))) in *.
  assert (Hk : 0 < k) by (simpl in k; lia).
  assert (Hrep : n / k > 0) by (apply div_pos_iff; lia).
  destruct (default_search_shape _ _ _ _ _ Hds) as (ds & -> & Hh1 & Hlen).
  split; [|by rewrite Hh1, length_app, length_fmap, Hlen].
  unfold one_value_search. fold k.
  rewrite (bind_Ok _ _ _ _ _ (floordiv_run n k s ltac:(lia))).
  rewrite bool_decide_true by lia.
  rewrite (bind_Ok _ _ _ _ _ (assert_true _ s)).
  rewrite (bind_Ok _ _ _ _ _ Hds).
  unfold range. destruct (Z.to_nat n) as [|m] eqn:Hm; [lia|].
  simpl seq. rewrite fmap_cons. cbn [forM_].
  apply bind_Raise. apply bind_Raise.
  change (Z.of_nat 0) with 0. rewrite Z.div_0_l by lia.
  assert (Hn0 : list_getitem (name :: interests) 0 s1 = (Ok name, s1))
    by reflexivity.
  rewrite (bind_Ok _ _ _ _ _ Hn0).
  apply bind_Raise. unfold _choose_random. apply bind_Raise.
  assert (Hg1 : heap s1 !! hyperparams self = Some (ODict gens)).
  { rewrite Hh1. by apply lookup_app_l_Some. }
  unfold dict_getitem.
  by rewrite (bind_Ok _ _ _ _ _ (deref_dict_run _ _ _ Hg1)), Hnone.
Qed.

(** ** The grid search: unknown interests and the order of the result *)

Lemma mapM_getitem_missing l gens pre name post s :
  heap s !! l = Some (ODict gens) →
  (∀ k, k ∈ pre → is_Some (dict_get gens k)) →
  dict_get gens name = None →
  mapM (λ interest, dict_getitem l interest) (pre ++ name :: post) s
  = (Raise (KeyError name), s).
Proof.
  intros Hl Hpre Hnone. induction pre as [|k pre IH]; simpl.
  - apply bind_Raise. unfold dict_getitem.
    by rewrite (bind_Ok _ _ _ _ _ (deref_dict_run _ _ _ Hl)), Hnone.
  - destruct (Hpre k) as [g Hg]; [left|].
    rewrite (bind_Ok _ _ _ _ _ (dict_getitem_run _ _ _ _ _ Hl Hg)).
    apply bind_Raise, IH. intros k' Hk'. apply Hpre. by right.
Qed.

(** X9: an interest of [one_value_grid_search] that is no hyperparameter
    makes the call raise [KeyError] for the first such name, before anything
    is allocated and before the check that the interests are list-valued:
    the earlier interests may be of any kind. *)
Theorem grid_search_unknown_interest self gens pre name post s :
  heap s !! hyperparams self = Some (ODict gens) →
  (∀ k, k ∈ pre → is_Some (dict_get gens k)) →
  dict_get gens name = None →
  one_value_grid_search self (pre ++ name :: post) s
  = (Raise (KeyError name), s).
Proof.
  intros Hg Hpre Hnone. unfold one_value_grid_search.
  apply bind_Raise. by apply (mapM_getitem_missing _ gens).
Qed.

Lemma index_of_split (ys : list value) x i :
  index_of ys x = Some i →
  ∃ pre post, ys = pre ++ x :: post ∧ (x ∉ pre) ∧ delete i ys = pre ++ post.
Proof.
  revert i. induction ys as [|y ys IH]; intros i; simpl; [done|].
  case_decide as Hy.
  - intros [= <-]. subst y. exists [], ys. split; [done|].
    split; [apply not_elem_of_nil|done].
  - destruct (index_of ys x) as [j|] eqn:Hj; [|done]. intros [= <-].
    destruct (IH j eq_refl) as (pre & post & -> & Hpre & Hdel).
    exists (y :: pre), post. split; [done|]. split.
    + apply not_elem_of_cons. split; [congruence|done].
    + simpl. by rewrite Hdel.
Qed.

(** X10: the order of the result of [one_value_grid_search].  When the
    default of every hyperparameter is found without a call and the default
    of every interest is one of its candidates, the call returns the default
    dictionary followed by the variations, interest by interest in the order
    of [interests], and for each interest candidate by candidate in the
    order of its list.  Only the first occurrence of the default is left
    out: the candidates before it and all those after it, further
    occurrences of the default included, each give a dictionary. *)
Theorem grid_search_order self gens defs ints s :
  heap s !! hyperparams self = Some (ODict gens) →
  heap s !! hyp_defaults self = Some (ODict defs) →
  has_static_defaults (heap s) gens defs →
  (∀ k, k ∈ ints → default_present (heap s) gens defs k = true) →
  ∃ rs s',
    one_value_grid_search self ints s = (Ok rs, s')
    ∧ Forall2 (λ r d, heap s' !! r = Some (ODict d)) rs
        (default_content (heap s) gens defs
         :: (ints ≫= λ k,
               (λ x, dict_set (default_content (heap s) gens defs) k
                       (PyOther x))
               <$> non_default (heap s) gens defs k))
    ∧ ∀ k, k ∈ ints →
        ∃ x pre post,
          static_default (heap s) gens defs k = Some (PyOther x)
          ∧ candidates (heap s) gens k = Some (pre ++ x :: post)
          ∧ (x ∉ pre)
          ∧ non_default (heap s) gens defs k = pre ++ post.
Proof.
  intros Hg Hd Hall Hpres.
  destruct (grid_search_run self gens defs ints s Hg Hd Hall Hpres)
    as (nd & Hrun).
  eexists _, _. split; [exact Hrun|]. split.
  - fold (variations (heap s) gens defs ints).
    set (ds := default_content _ _ _ :: variations _ _ _ _).
    apply Forall2_same_length_lookup_2.
    { by rewrite length_seq. }
    intros i r d Hr Hdi. apply lookup_seq in Hr as [-> Hi].
    simpl heap. rewrite lookup_app_r by lia.
    replace (length (heap s) + 1 + length ints + i - length (heap s))%nat
      with (S (length ints + i)) by lia.
    simpl lookup. rewrite lookup_app_r; rewrite length_fmap; [|lia].
    replace (length ints + i - length ints)%nat with i by lia.
    change ((ODict <$> ds) !! i = Some (ODict d)).
    by rewrite list_lookup_fmap, Hdi.
  - intros k Hk. apply Hpres, default_present_spec in Hk
      as (ys & x & Hc & Hsd & Hx).
    destruct (non_default_spec _ _ _ _ _ _ Hc Hsd Hx) as (i & Hi & Hnd & _).
    destruct (index_of_split _ _ _ Hi) as (pre & post & -> & Hpre & Hdel).
    exists x, pre, post. split; [done|]. split; [done|]. split; [done|].
    by rewrite Hnd.
Qed.

(** ** The custom search without overrides *)

Lemma custom_search_no_items ov (rs : list loc) (idx : list Z) s :
  heap s !! ov = Some (ODict []) →
  forM_ idx (λ i,
    items ← deref_dict ov;
    forM_ items (λ item : string * pyval,
      v ← _generate_random np item.2;
      d ← list_getitem rs i;
      dict_setitem d item.1 v)) s = (Ok (), s).
Proof.
  intros Hov. induction idx as [|i idx IH]; [done|]. cbn [forM_].
  rewrite bind_run, (bind_Ok _ _ _ _ _ (deref_dict_run _ _ _ Hov)).
  exact IH.
Qed.

(** X11: with an empty dictionary of overrides, [custom_search] is
    [default_search]: the same outcome, result or exception, and the same
    store afterwards. *)
Theorem custom_search_no_overrides self ov n s :
  heap s !! ov = Some (ODict []) →
  custom_search np self ov n s = default_search self n s.
Proof.
  intros Hov. unfold custom_search. rewrite bind_run.
  destruct (default_search self n s) as [[rs|e] s1] eqn:Hds; [|done].
  destruct (default_search_shape _ _ _ _ _ Hds) as (ds & _ & Hh1 & _).
  erewrite bind_Ok; [reflexivity|].
  apply custom_search_no_items. rewrite Hh1. by apply lookup_app_l_Some.
Qed.

(** ** Random dictionaries when the global [np] is bound *)

Section Bound.

(** [np.random.choice] returns an element of its argument. *)
Hypothesis choice_member :
  ∀ choice (ys : list value) w x w',
    np = Some choice → choice ys w = (inr x, w') → x ∈ ys.

Lemma generate_random_in_space g s v s' :
  _generate_random np g s = (Ok v, s') →
  in_space (heap s) g v ∧ heap s' = heap s.
Proof.
  intros Hrun. split; last first.
  { pose proof (kh_generate_random g s) as Hh. by rewrite Hrun in Hh. }
  destruct g as [l|f|x]; simpl.
  - unfold _generate_random in Hrun. simpl in Hrun.
    unfold np_random_choice in Hrun.
    destruct np as [choice|] eqn:Hnp; [|discriminate].
    apply bind_inv_Ok in Hrun as (ys & s0 & Hys & Hcall).
    simpl in Hys. unfold deref_list in Hys.
    destruct (heap s !! l) as [[ys'|]|] eqn:Hl; try discriminate.
    injection Hys as -> <-. simpl in Hcall.
    destruct (choice ys (world s)) as [[msg|x] w'] eqn:Hc; [discriminate|].
    injection Hcall as <- _. exists ys, x. split; [done|]. split; [done|].
    by eapply choice_member.
  - unfold _generate_random in Hrun. simpl in Hrun.
    destruct (f (world s)) as [[msg|x] w'] eqn:Hf; [discriminate|].
    injection Hrun as <- _. by exists x, (world s), w'.
  - by injection Hrun as <- _.
Qed.

Lemma random_pairs_inv self gens (items : list (string * pyval)) s pairs s' :
  heap s !! hyperparams self = Some (ODict gens) →
  mapM (λ item : string * pyval,
          v ← _choose_random np self item.1; mret (item.1, v)) items s
  = (Ok pairs, s') →
  heap s' = heap s
  ∧ Forall2 (λ (item p : string * pyval),
       p.1 = item.1
       ∧ ∃ g, dict_get gens item.1 = Some g ∧ in_space (heap s) g p.2)
      items pairs.
Proof.
  revert s pairs. induction items as [|[k g0] items IH]; intros s pairs Hg.
  - intros [= <- <-]. split; [done|constructor].
  - simpl. intros Hrun.
    apply bind_inv_Ok in Hrun as (p & s1 & Hp & Hrun).
    apply bind_inv_Ok in Hrun as (ps & s2 & Hps & Hret).
    injection Hret as <- <-.
    apply bind_inv_Ok in Hp as (v & s0 & Hv & Hret).
    injection Hret as <- <-.
    unfold _choose_random in Hv.
    apply bind_inv_Ok in Hv as (g & s0' & Hk & Hv).
    apply (dict_getitem_inv _ _ _ _ _ _ Hg) in Hk as [Hk ->].
    apply generate_random_in_space in Hv as [Hv Hh0].
    destruct (IH s0 ps) as [Hh2 Hall]; [by rewrite Hh0|done|].
    split; [congruence|]. constructor.
    + split; [done|]. by exists g.
    + by rewrite Hh0 in Hall.
Qed.

Lemma random_pairs_run self gens (items : list (string * pyval)) h :
  h !! hyperparams self = Some (ODict gens) →
  (∀ item, item ∈ items →
     ∃ g, dict_get gens item.1 = Some g
          ∧ ∀ s0, heap s0 = h →
                  ∃ v s0', _generate_random np g s0 = (Ok v, s0')) →
  ∀ s, heap s = h →
  ∃ pairs s',
    mapM (λ item : string * pyval,
            v ← _choose_random np self item.1; mret (item.1, v)) items s
    = (Ok pairs, s').
Proof.
  intros Hg. induction items as [|[k g0] items IH]; intros Hdraw s Hs.
  - by eexists _, _.
  - destruct (Hdraw (k, g0)) as (g & Hk & Hgd); [left|]. simpl in Hk.
    destruct (Hgd s Hs) as (v & s0 & Hv).
    pose proof (kh_generate_random g s) as Hh0. rewrite Hv in Hh0.
    simpl in Hh0.
    destruct (IH (λ item Hin, Hdraw item (list_elem_of_further _ _ _ Hin))
                 s0) as (ps & s' & Hps); [congruence|].
    exists ((k, v) :: ps), s'. simpl.
    assert (Hc : _choose_random np self k s = (Ok v, s0)).
    { unfold _choose_random. subst h.
      by rewrite (bind_Ok _ _ _ _ _ (dict_getitem_run _ _ _ _ _ Hg Hk)). }
    rewrite bind_run, (bind_Ok _ _ _ _ _ Hc), ret_run.
    by rewrite (bind_Ok _ _ _ _ _ Hps).
Qed.

(** X12: random dictionaries stay within the search space.  When
    [np.random.choice], if the global [np] is bound at all, returns an
    element of its argument, [random_dict()] returns whenever the random
    resolution of every generator returns; and whenever it returns, the
    result is a new dictionary with the keys of the generator map in their
    order, in which a list-valued hyperparameter holds one of its
    candidates, a callable one a value that a call of it returned, and a
    fixed one its value.  The defaults map plays no part. *)
Theorem random_dict_within_space self gens s :
  heap s !! hyperparams self = Some (ODict gens) →
  NoDup (dict_keys gens) →
  ((∀ k g, dict_get gens k = Some g →
      ∀ s0, heap s0 = heap s →
            ∃ v s0', _generate_random np g s0 = (Ok v, s0')) →
   ∃ r s', random_dict np self s = (Ok r, s'))
  ∧ ∀ r s', random_dict np self s = (Ok r, s') →
      r = length (heap s)
      ∧ ∃ d, heap s' = heap s ++ [ODict d]
          ∧ dict_keys d = dict_keys gens
          ∧ ∀ k g, dict_get gens k = Some g →
              ∃ v, dict_get d k = Some v ∧ in_space (heap s) g v.
Proof.
  intros Hg Hnd. split.
  - intros Hdraw.
    destruct (random_pairs_run self gens gens (heap s) Hg) with (s := s)
      as (pairs & s1 & Hps); [|done|].
    { intros [k g0] Hin. simpl.
      destruct (proj1 (dict_get_is_Some gens k)) as [g Hk].
      { unfold dict_keys. apply list_elem_of_fmap. by exists (k, g0). }
      exists g. split; [done|]. by apply (Hdraw k). }
    unfold random_dict.
    rewrite (bind_Ok _ _ _ _ _ (deref_dict_run _ _ _ Hg)).
    rewrite (bind_Ok _ _ _ _ _ Hps). by eexists _, _.
  - intros r s' Hrun. unfold random_dict in Hrun.
    rewrite (bind_Ok _ _ _ _ _ (deref_dict_run _ _ _ Hg)) in Hrun.
    apply bind_inv_Ok in Hrun as (pairs & s1 & Hps & Halloc).
    apply (random_pairs_inv _ gens) in Hps as [Hh1 Hall]; [|done].
    injection Halloc as <- <-. split; [by rewrite Hh1|].
    assert (Hkeys : pairs.*1 = gens.*1).
    { clear -Hall. induction Hall as [|item p items ps [Hp _] _ IH]; [done|].
      rewrite !fmap_cons. by rewrite Hp, IH. }
    assert (Hnd' : NoDup pairs.*1) by (by rewrite Hkeys).
    exists pairs. split; [|split].
    + simpl. by rewrite Hh1, dict_of_pairs_NoDup.
    + exact Hkeys.
    + intros k g Hk. apply dict_get_elem_of in Hk as Hin.
      apply list_elem_of_lookup in Hin as (i & Hi).
      destruct (Forall2_lookup_l _ _ _ _ _ Hall Hi)
        as ([k' v] & Hp & Hk' & g' & Hg' & Hv).
      simpl in *. subst k'. exists v. split; [|congruence].
      apply elem_of_dict_get; [done|]. by eapply list_elem_of_lookup_2.
Qed.

End Bound.

(** ** Where the assertions are *)

Lemma na_random_dict self : never_asserts (random_dict np self).
Proof.
  unfold random_dict. apply na_bind; [apply na_deref_dict|]. intros gens.
  apply na_bind; [|intros pairs; apply na_alloc].
  apply na_mapM. intros item.
  apply na_bind; [apply na_choose_random|]. intros v. apply na_ret.
Qed.

(** X13: the assertions of the class are those of the constructor, of
    [one_value_search] and of [one_value_grid_search].  Whatever the store
    and the arguments, a call of [default_dict], [random_dict],
    [default_search], [random_search] or [custom_search] fails none of them:
    when it raises, the exception is no [AssertionError] of the class. *)
Theorem plain_sampling_never_asserts self ov n :
  never_asserts (default_dict self)
  ∧ never_asserts (random_dict np self)
  ∧ never_asserts (default_search self n)
  ∧ never_asserts (random_search np self n)
  ∧ never_asserts (custom_search np self ov n).
Proof.
  split; [apply na_default_dict|].
  split; [apply na_random_dict|].
  split; [apply na_default_search|].
  split.
  - unfold random_search. apply na_mapM. intros _. apply na_random_dict.
  - unfold custom_search. apply na_bind; [apply na_default_search|].
    intros rs. apply na_bind; [|intros []; apply na_ret].
    apply na_forM. intros i.
    apply na_bind; [apply na_deref_dict|]. intros items.
    apply na_forM. intros item.
    apply na_bind; [apply na_generate_random|]. intros v.
    apply na_bind; [apply na_list_getitem|]. intros d.
    apply na_dict_setitem.
Qed.

(** ** The exceptions of the default dictionaries *)

Section Raises.

(** A class of exceptions that the heap, the callables and the indexing of
    lists and dictionaries do not raise. *)
Variable bad : exn → bool.
Hypothesis bad_TypeError : bad TypeError = false.
Hypothesis bad_KeyError : ∀ k, bad (KeyError k) = false.
Hypothesis bad_IndexError : bad IndexError = false.
Hypothesis bad_UserError : ∀ msg, bad (UserError msg) = false.

Lemma nr_ret {A} (a : A) : never_raises bad (mret a : M A).
Proof. intros s e s' H. discriminate. Qed.

Lemma nr_raise {A} e : bad e = false → never_raises bad (raise e : M A).
Proof. intros He s e' s' H. injection H as <- _. exact He. Qed.

Lemma nr_bind {A B} (m : M A) (k : A → M B) :
  never_raises bad m → (∀ a, never_raises bad (k a)) →
  never_raises bad (m ≫= k).
Proof.
  intros Hm Hk s e s' H.
  apply bind_inv_Raise in H as [H | (a & s1 & _ & H)].
  - exact (Hm _ _ _ H).
  - exact (Hk a _ _ _ H).
Qed.

Lemma nr_mapM {A B} (f : A → M B) (ys : list A) :
  (∀ y, never_raises bad (f y)) → never_raises bad (mapM f ys).
Proof.
  intros Hf. induction ys as [|y ys IH]; simpl.
  - apply nr_ret.
  - apply nr_bind; [apply Hf|]. intros b.
    apply nr_bind; [exact IH|]. intros bs. apply nr_ret.
Qed.

Lemma nr_deref_dict l : never_raises bad (deref_dict l).
Proof.
  intros s e s' H. unfold deref_dict in H.
  destruct (heap s !! l) as [[|]|]; inversion H; done.
Qed.

Lemma nr_deref_list l : never_raises bad (deref_list l).
Proof.
  intros s e s' H. unfold deref_list in H.
  destruct (heap s !! l) as [[|]|]; inversion H; done.
Qed.

Lemma nr_dict_getitem l k : never_raises bad (dict_getitem l k).
Proof.
  unfold dict_getitem. apply nr_bind; [apply nr_deref_dict|]. intros d.
  destruct (dict_get d k); [apply nr_ret | by apply nr_raise].
Qed.

Lemma nr_call g : never_raises bad (call g).
Proof.
  destruct g as [l|f|v]; simpl; try (by apply nr_raise).
  intros s e s' H. destruct (f (world s)) as [[msg|v] w]; inversion H.
  done.
Qed.

Lemma nr_choose_default self k : never_raises bad (_choose_default self k).
Proof.
  unfold _choose_default. apply nr_bind; [apply nr_deref_dict|]. intros defs.
  destruct (dict_get defs k); [apply nr_ret|].
  apply nr_bind; [apply nr_dict_getitem|]. intros g.
  destruct g as [l|f|x]; cbn [isinstance_list is_callable list_elems].
  - apply nr_bind; [apply nr_deref_list|]. intros ys.
    apply nr_bind; [|intros y; apply nr_ret].
    unfold list_getitem. destruct (py_index ys 0);
      [apply nr_ret | by apply nr_raise].
  - apply nr_bind; [|intros []; apply nr_call].
    intros s e s' H. discriminate.
  - apply nr_ret.
Qed.

Lemma nr_default_search self n : never_raises bad (default_search self n).
Proof.
  unfold default_search. apply nr_mapM. intros _. unfold default_dict.
  apply nr_bind; [apply nr_deref_dict|]. intros gens.
  apply nr_bind.
  - apply nr_mapM. intros k.
    apply nr_bind; [apply nr_choose_default|]. intros v. apply nr_ret.
  - intros pairs s e s' H. discriminate.
Qed.

End Raises.

(** ** The grid search, whatever the hyperparameters that are no
    interests *)

(** The second loop, for one interest, over any result dictionaries. *)
Lemma grid_fill_inner_any k (h1 : list obj) ys :
  ∀ i ds s,
  heap s = h1 ++ (ODict <$> ds) →
  (i + length ys ≤ length ds)%nat →
  ∃ ds',
    foldM (λ search_i value,
             d ← list_getitem (A:=loc) (seq (length h1) (length ds)) search_i;
             dict_setitem d k (PyOther value);;
             mret (search_i + 1))
          ys (Z.of_nat i) s
    = (Ok (Z.of_nat (i + length ys)), set_heap (h1 ++ (ODict <$> ds')) s)
    ∧ length ds' = length ds.
Proof.
  induction ys as [|y ys IH]; intros i ds s Hs Hi; simpl.
  - exists ds. rewrite Nat.add_0_r, <- Hs, set_heap_same. done.
  - simpl in Hi.
    destruct (ds !! i) as [d|] eqn:Hd; last first.
    { apply lookup_ge_None in Hd. lia. }
    assert (Hlt : (i < length ds)%nat) by lia.
    rewrite bind_run, (bind_Ok _ _ _ _ _ (list_getitem_seq _ _ _ s Hlt)).
    assert (Hl : heap s !! (length h1 + i)%nat = Some (ODict d)).
    { rewrite Hs, lookup_app_r by lia.
      replace (length h1 + i - length h1)%nat with i by lia.
      by rewrite list_lookup_fmap, Hd. }
    rewrite (bind_Ok _ _ _ _ _ (dict_setitem_run _ _ k (PyOther y) _ Hl)).
    rewrite ret_run.
    set (ds1 := <[i := dict_set d k (PyOther y)]> ds).
    set (s1 := set_heap _ s).
    assert (Hs1 : heap s1 = h1 ++ (ODict <$> ds1)).
    { subst s1 ds1. simpl. rewrite Hs, insert_app_r_alt by lia.
      replace (length h1 + i - length h1)%nat with i by lia.
      by rewrite list_fmap_insert. }
    assert (Hlen1 : length ds1 = length ds) by apply length_insert.
    destruct (IH (S i) ds1 s1 Hs1 ltac:(lia)) as (ds' & Hrun & Hlen').
    rewrite Hlen1 in Hrun, Hlen'.
    replace (Z.of_nat i + 1) with (Z.of_nat (S i)) by lia.
    exists ds'. rewrite Hrun. split; [|done]. f_equal. f_equal. lia.
Qed.

(** The second loop over any result dictionaries: it writes as many
    dictionaries as there are variations. *)
Lemma grid_fill_loop_any (k0 : nat) gens defs h0 nd cps ints :
  k0 = length h0 →
  (∀ k, k ∈ ints →
     ∃ j, dict_get nd k = Some (PyList (length h0 + 1 + j)%nat)
          ∧ cps !! j = Some (OList (non_default h0 gens defs k))) →
  ∀ i ds s,
  heap s = (h0 ++ ODict nd :: cps) ++ (ODict <$> ds) →
  (i + length (variations h0 gens defs ints) ≤ length ds)%nat →
  ∃ ds',
    foldM (λ search_i hyp_name,
        g ← dict_getitem k0 hyp_name;
        xs ← list_elems g;
        foldM (λ search_i value,
            d ← list_getitem (A:=loc)
                  (seq (length (h0 ++ ODict nd :: cps)) (length ds))
                  search_i;
            dict_setitem d hyp_name (PyOther value);;
            mret (search_i + 1))
          xs search_i)
      ints (Z.of_nat i) s
    = (Ok (Z.of_nat (i + length (variations h0 gens defs ints))),
       set_heap ((h0 ++ ODict nd :: cps) ++ (ODict <$> ds')) s)
    ∧ length ds' = length ds.
Proof.
  intros -> Hnd. unfold variations.
  induction ints as [|k ints IH]; intros i ds s Hs Hi.
  - simpl. exists ds. rewrite Nat.add_0_r, <- Hs, set_heap_same. done.
  - destruct (Hnd k) as (j & Hj1 & Hj2); [left|].
    change ((k :: ints) ≫= ?f) with (f k ++ (ints ≫= f)) in *.
    rewrite length_app, length_fmap in Hi.
    cbv beta.
    rewrite (length_app (_ <$> non_default h0 gens defs k)), length_fmap.
    cbn [foldM].
    assert (Hndl : heap s !! length h0 = Some (ODict nd)).
    { rewrite Hs, <- app_assoc. simpl. by rewrite list_lookup_middle. }
    rewrite bind_run.
    rewrite (bind_Ok _ _ _ _ _ (dict_getitem_run _ _ _ _ _ Hndl Hj1)).
    assert (Hcp : heap s !! (length h0 + 1 + j)%nat
                  = Some (OList (non_default h0 gens defs k))).
    { rewrite Hs, <- app_assoc. rewrite lookup_app_r by lia.
      replace (length h0 + 1 + j - length h0)%nat with (S j) by lia. simpl.
      by apply lookup_app_l_Some. }
    cbn [list_elems].
    rewrite (bind_Ok _ _ _ _ _ (deref_list_run _ _ _ Hcp)).
    destruct (grid_fill_inner_any k (h0 ++ ODict nd :: cps)
                (non_default h0 gens defs k) i ds s Hs ltac:(lia))
      as (ds1 & Hinner & Hlen1).
    rewrite Hinner.
    set (s1 := set_heap _ s).
    destruct (IH (λ k' Hk', Hnd k' (list_elem_of_further _ _ _ Hk'))
                 (i + length (non_default h0 gens defs k))%nat ds1 s1
                 eq_refl ltac:(lia)) as (ds' & Hrun & Hlen').
    rewrite Hlen1 in Hrun, Hlen'.
    exists ds'. rewrite Hrun. split; [|done]. f_equal. f_equal. lia.
Qed.

(** A round of the first loop for an interest with an empty candidate list
    and no entry in the defaults map. *)
Lemma grid_copy_step_none self gens defs h0 nd cps k ys s :
  heap s = h0 ++ ODict nd :: cps →
  h0 !! hyperparams self = Some (ODict gens) →
  h0 !! hyp_defaults self = Some (ODict defs) →
  candidates h0 gens k = Some ys →
  static_default h0 gens defs k = None →
  (g ← dict_getitem (hyperparams self) k;
   non_default_list ← list_copy g;
   d ← _choose_default self k;
   i ← list_index non_default_list d;
   list_pop non_default_list i;;
   dict_setitem (length h0) k (PyList non_default_list)) s
  = (Raise IndexError, set_heap (heap s ++ [OList ys]) s).
Proof.
  intros Hs Hg Hd Hc Hv.
  destruct (candidates_inv _ _ _ _ Hc) as (l & Hk & Hl).
  assert (dict_get defs k = None ∧ ys = []) as [Hnone ->].
  { unfold static_default in Hv. rewrite Hk, Hl in Hv.
    destruct (dict_get defs k); [done|]. by destruct ys. }
  assert (Hg' : heap s !! hyperparams self = Some (ODict gens)).
  { rewrite Hs. by apply lookup_app_l_Some. }
  rewrite (bind_Ok _ _ _ _ _ (dict_getitem_run _ _ _ _ _ Hg' Hk)).
  assert (Hl' : heap s !! l = Some (OList [])).
  { rewrite Hs. by apply lookup_app_l_Some. }
  unfold list_copy. simpl. rewrite bind_run, bind_run.
  rewrite (deref_list_run _ _ _ Hl'). simpl.
  set (s2 := set_heap (heap s ++ [OList []]) s).
  apply bind_Raise.
  apply (choose_default_empty_list self gens defs k l); try done.
  - simpl. by apply lookup_app_l_Some.
  - simpl. rewrite Hs, <- app_assoc. by apply lookup_app_l_Some.
  - simpl. by apply lookup_app_l_Some.
Qed.

(** The first loop when the default of some interest is not among its
    candidates: it raises at the first such interest, [IndexError] when that
    interest has no default at all, [ValueError] otherwise. *)
Lemma grid_copy_loop_raises self gens defs h0 rest :
  h0 !! hyperparams self = Some (ODict gens) →
  h0 !! hyp_defaults self = Some (ODict defs) →
  (∀ k, k ∈ rest → is_Some (candidates h0 gens k)) →
  forallb (default_present h0 gens defs) rest = false →
  ∀ nd cps s,
  heap s = h0 ++ ODict nd :: cps →
  ∃ e s',
    forM_ rest (λ hyp_name,
      g ← dict_getitem (hyperparams self) hyp_name;
      non_default_list ← list_copy g;
      d ← _choose_default self hyp_name;
      i ← list_index non_default_list d;
      list_pop non_default_list i;;
      dict_setitem (length h0) hyp_name (PyList non_default_list)) s
    = (Raise e, s')
    ∧ (e = ValueError ∨ e = IndexError)
    ∧ ((∀ k, k ∈ rest → is_Some (static_default h0 gens defs k)) →
       e = ValueError).
Proof.
  intros Hg Hd. induction rest as [|k rest IH];
    intros Hrest Hall nd cps s Hs; [discriminate|].
  simpl in Hall. cbn [forM_].
  destruct (Hrest k) as [ys Hc]; [left|].
  destruct (static_default h0 gens defs k) as [v|] eqn:Hv; last first.
  { exists IndexError, (set_heap (heap s ++ [OList ys]) s).
    split; [|split; [by right|]].
    - apply bind_Raise. by apply (grid_copy_step_none self gens defs h0 nd cps).
    - intros Hstat. destruct (Hstat k) as [v Hv']; [left|]. congruence. }
  pose proof (grid_copy_step self gens defs h0 nd cps k ys v s Hs Hg Hd Hc Hv)
    as Hstep.
  destruct (default_present h0 gens defs k) eqn:Hp; simpl in Hall.
  - apply default_present_spec in Hp as (ys' & x & Hc' & Hv' & Hx).
    assert (ys' = ys) as -> by congruence.
    assert (v = PyOther x) as -> by congruence.
    destruct (index_of_elem_of _ _ Hx) as [i Hi]. rewrite Hi in Hstep.
    set (s1 := set_heap _ s) in Hstep.
    destruct (IH (λ k' Hk', Hrest k' (list_elem_of_further _ _ _ Hk')) Hall
                 (dict_set nd k (PyList (length (heap s))))
                 (cps ++ [OList (delete i ys)]) s1 eq_refl)
      as (e & s' & Hrun & He & Hstat).
    exists e, s'. split; [by rewrite (bind_Ok _ _ _ _ _ Hstep)|].
    split; [done|]. intros Hs'. apply Hstat. intros k' Hk'. apply Hs'.
    by right.
  - exists ValueError, (set_heap (heap s ++ [OList ys]) s).
    split; [|split; [by left|done]].
    apply bind_Raise. rewrite Hstep.
    destruct v as [l|f|x]; try done.
    destruct (index_of ys x) as [i|] eqn:Hi; [|done]. exfalso.
    apply index_of_Some, list_elem_of_lookup_2 in Hi.
    unfold default_present in Hp. rewrite Hc, Hv in Hp.
    by apply bool_decide_eq_false in Hp.
Qed.

(** [one_value_grid_search] up to the end of its first loop, when all the
    interests are list-valued. *)
Lemma grid_search_first_part_any self gens ints s :
  heap s !! hyperparams self = Some (ODict gens) →
  (∀ k, k ∈ ints → is_Some (candidates (heap s) gens k)) →
  one_value_grid_search self ints s
  = (let n_unique_tuples :=
       foldr Z.add 0
         ((λ k, Z.of_nat (length (default [] (candidates (heap s) gens k))))
          <$> ints)
       + 1 - Z.of_nat (length ints) in
     forM_ ints (λ hyp_name,
       g ← dict_getitem (hyperparams self) hyp_name;
       non_default_list ← list_copy g;
       d ← _choose_default self hyp_name;
       i ← list_index non_default_list d;
       list_pop non_default_list i;;
       dict_setitem (length (heap s)) hyp_name (PyList non_default_list));;
     result_search ← default_search self n_unique_tuples;
     search_i ← foldM (λ search_i hyp_name,
         g ← dict_getitem (length (heap s)) hyp_name;
         xs ← list_elems g;
         foldM (λ search_i value,
             d ← list_getitem result_search search_i;
             dict_setitem d hyp_name (PyOther value);;
             mret (search_i + 1))
           xs search_i)
       ints 1;
     assert_ (bool_decide (search_i = n_unique_tuples)) NoMessage;;
     mret result_search) (set_heap (heap s ++ [ODict []]) s).
Proof.
  intros Hg Hints. unfold one_value_grid_search.
  assert (Hkeys : ∀ k, k ∈ ints → is_Some (dict_get gens k)).
  { intros k Hk. destruct (Hints k Hk) as [ys Hys].
    destruct (candidates_inv _ _ _ _ Hys) as (l & Hl & _). eauto. }
  rewrite (bind_Ok _ _ _ _ _ (mapM_getitem _ _ _ _ Hg Hkeys)).
  assert (Hall : forallb isinstance_list (omap (dict_get gens) ints) = true).
  { apply forallb_isinstance_list; [done|]. intros k Hk.
    destruct (Hints k Hk) as [ys Hys].
    destruct (candidates_inv _ _ _ _ Hys) as (l & Hl & _). eauto. }
  rewrite Hall, (bind_Ok _ _ _ _ _ (assert_true _ _)).
  rewrite (bind_Ok _ _ _ _ _ (mapM_len _ _ _ _ Hg Hints)).
  reflexivity.
Qed.

(** The run of [one_value_grid_search] when every interest is list-valued
    with its default among its candidates: after the copies have been made,
    the call does what [default_search] does for the count of the
    dictionaries. *)
Lemma grid_search_follows_default_search self gens defs ints s :
  heap s !! hyperparams self = Some (ODict gens) →
  heap s !! hyp_defaults self = Some (ODict defs) →
  (∀ k, k ∈ ints → default_present (heap s) gens defs k = true) →
  ∃ nd,
    let s_c :=
      set_heap (heap s
                ++ ODict nd
                   :: ((λ k, OList (non_default (heap s) gens defs k))
                       <$> ints)) s in
    let n_unique_tuples :=
      foldr Z.add 0
        ((λ k, Z.of_nat (length (default [] (candidates (heap s) gens k))))
         <$> ints)
      + 1 - Z.of_nat (length ints) in
    match default_search self n_unique_tuples s_c with
    | (Ok rs, s1) =>
        ∃ ds', one_value_grid_search self ints s
               = (Ok rs, set_heap (heap s_c ++ (ODict <$> ds')) s1)
               ∧ length ds' = length rs
    | (Raise e, s1) => one_value_grid_search self ints s = (Raise e, s1)
    end.
Proof.
  intros Hg Hd Hints.
  rewrite (grid_search_first_part_any self gens ints s Hg)
    by (intros k Hk; by apply (default_present_candidates _ _ defs), Hints).
  cbv zeta. rewrite (grid_count _ _ _ _ Hints).
  set (h0 := heap s). set (s0 := set_heap (h0 ++ [ODict []]) s).
  pose proof (grid_copy_loop self gens defs h0 ints Hg Hd
                (λ k Hk, default_present_candidates _ _ _ _ (Hints k Hk))
                [] [] [] s0 eq_refl) as Hloop.
  rewrite (proj2 (forallb_forall _ _)) in Hloop
    by (intros k Hk; apply Hints; by apply list_elem_of_In).
  destruct Hloop as (nd & Hloop & Hok).
  { intros k Hk. by apply elem_of_nil in Hk. }
  simpl in Hloop, Hok.
  rewrite (bind_Ok _ _ _ _ _ Hloop). exists nd.
  set (cps := (λ k, OList (non_default h0 gens defs k)) <$> ints) in *.
  set (s_c := set_heap (h0 ++ ODict nd :: cps) s0).
  change (set_heap (h0 ++ ODict nd :: cps) s) with s_c.
  set (vars := variations h0 gens defs ints).
  rewrite bind_run.
  destruct (default_search self (Z.of_nat (S (length vars))) s_c)
    as [[rs|e] s1] eqn:Hds; [|done].
  destruct (default_search_shape _ _ _ _ _ Hds) as (ds & -> & Hh1 & Hlen).
  rewrite Nat2Z.id in Hlen.
  change (heap s_c) with (h0 ++ ODict nd :: cps) in Hh1 |- *.
  destruct (grid_fill_loop_any (length h0) gens defs h0 nd cps ints eq_refl
              Hok 1 ds s1 Hh1) as (ds' & Hfill & Hlen').
  { fold vars. lia. }
  rewrite Nat2Z.id, <- Hlen. change (Z.of_nat 1) with 1 in Hfill.
  rewrite (bind_Ok _ _ _ _ _ Hfill). fold vars.
  rewrite bool_decide_eq_true_2 by (rewrite Hlen; lia).
  rewrite (bind_Ok _ _ _ _ _ (assert_true _ _)), ret_run.
  exists ds'. split; [done|]. by rewrite length_seq.
Qed.

(** C4, as the code has it, for interests that name hyperparameters.
    [one_value_grid_search] fails its assertion exactly when some interest
    is not list-valued, and then nothing has been allocated: this needs
    nothing of the defaults.  When every interest has a default (an entry in
    the defaults map or a first candidate), it raises [ValueError] (from
    [list.index], not an assertion) exactly when all interests are
    list-valued and the default of one of them is not among its candidates.
    And when all interests are list-valued with their defaults among their
    candidates, it does what [default_search] does for the count of the
    dictionaries, once the copies are made: it returns when that search
    returns, and raises what that search raises; so it returns whenever the
    default of every hyperparameter is found without a call, and also when a
    callable without an entry in the defaults map is called and returns. *)
Theorem grid_search_outcomes self gens defs interests s :
  heap s !! hyperparams self = Some (ODict gens) →
  heap s !! hyp_defaults self = Some (ODict defs) →
  (∀ k, k ∈ interests → is_Some (dict_get gens k)) →
  lists_allocated (heap s) gens →
  let not_list :=
    ∃ k, k ∈ interests ∧ ∀ l, dict_get gens k ≠ Some (PyList l) in
  let absent :=
    ∃ k, k ∈ interests ∧ default_present (heap s) gens defs k = false in
  ((∃ msg s', one_value_grid_search self interests s
              = (Raise (AssertionError msg), s')) ↔ not_list)
  ∧ (not_list → one_value_grid_search self interests s
                = (Raise (AssertionError NoMessage), s))
  ∧ ((∀ k, k ∈ interests →
        is_Some (static_default (heap s) gens defs k)) →
     ((∃ s', one_value_grid_search self interests s = (Raise ValueError, s'))
      ↔ ¬ not_list ∧ absent))
  ∧ (¬ not_list → ¬ absent →
     ∃ nd,
       let s_c :=
         set_heap (heap s
                   ++ ODict nd
                      :: ((λ k, OList (non_default (heap s) gens defs k))
                          <$> interests)) s in
       let n_unique_tuples :=
         foldr Z.add 0
           ((λ k, Z.of_nat (length (default [] (candidates (heap s) gens k))))
            <$> interests)
         + 1 - Z.of_nat (length interests) in
       match default_search self n_unique_tuples s_c with
       | (Ok rs, s1) =>
           ∃ s', one_value_grid_search self interests s = (Ok rs, s')
       | (Raise e, s1) =>
           one_value_grid_search self interests s = (Raise e, s1)
       end)
  ∧ (¬ not_list → ¬ absent → has_static_defaults (heap s) gens defs →
     ∃ rs s', one_value_grid_search self interests s = (Ok rs, s')).
Proof.
  intros Hg Hd Hkeys Halloc not_list absent.
  assert (Hnl : forallb isinstance_list (omap (dict_get gens) interests)
                = false ↔ not_list).
  { destruct (forallb _ _) eqn:Hall.
    - split; [done|]. intros (k & Hk & Hnot).
      pose proof (proj1 (forallb_isinstance_list gens interests Hkeys) Hall)
        as Hall'.
      destruct (Hall' k Hk) as [l Hl]. by destruct (Hnot l).
    - split; [|done]. intros _.
      assert (Hex : ∃ k, k ∈ interests
                ∧ isinstance_list (default (PyList 0%nat) (dict_get gens k))
                  = false).
      { clear -Hall Hkeys. induction interests as [|k ints IH].
        - discriminate.
        - simpl in Hall. destruct (Hkeys k) as [g Hg]; [left|].
          rewrite Hg in Hall. simpl in Hall.
          apply andb_false_iff in Hall as [Hl|Hrest].
          + exists k. split; [left|]. by rewrite Hg.
          + destruct IH as (k' & Hk' & Hf); [|done|].
            * intros k' Hk'. apply Hkeys. by right.
            * exists k'. split; [by right|done]. }
      destruct Hex as (k & Hk & Hf). exists k. split; [done|].
      intros l Hl. by rewrite Hl in Hf. }
  assert (Hab : forallb (default_present (heap s) gens defs) interests
                = false ↔ absent) by apply forallb_false.
  assert (Hnot : not_list → one_value_grid_search self interests s
                            = (Raise (AssertionError NoMessage), s)).
  { intros Hn. apply (grid_search_not_list _ gens); [done|done|].
    by apply Hnl. }
  destruct (forallb isinstance_list _) eqn:Hall.
  2:{ (* some interest is not list-valued *)
    assert (Hn : not_list) by (by apply Hnl).
    rewrite (Hnot Hn).
    split; [split; [done|eauto]|]. split; [done|].
    split; [intros _; split; [by intros (? & ?)|by intros [? ?]]|].
    split; [done|done]. }
  (* all interests are list-valued *)
  assert (Hn : ¬ not_list) by (intros Hn; by apply Hnl in Hn).
  pose proof (proj1 (forallb_isinstance_list gens interests Hkeys) Hall)
    as Hlists.
  assert (Hcands : ∀ k, k ∈ interests →
            is_Some (candidates (heap s) gens k)).
  { intros k Hk. destruct (Hlists k Hk) as [l Hl].
    destruct (Halloc k l Hl) as [ys Hys]. exists ys.
    unfold candidates. by rewrite Hl, Hys. }
  destruct (forallb (default_present (heap s) gens defs) interests)
    eqn:Hpres.
  - (* every default is among the candidates *)
    assert (Ha : ¬ absent) by (intros Ha; by apply Hab in Ha).
    pose proof (proj1 (forallb_true _ _) Hpres) as Hpres'.
    destruct (grid_search_follows_default_search self gens defs interests s
                Hg Hd Hpres') as (nd & Hrun).
    cbv zeta in Hrun.
    split; [|split; [done|split; [|split]]].
    + split; [|done]. intros (msg & s' & Hass).
      destruct (default_search self _ _) as [[rs|e] s1] eqn:Hds.
      * destruct Hrun as (ds' & Hrun & _). congruence.
      * rewrite Hrun in Hass. injection Hass as -> _.
        by apply na_default_search in Hds.
    + intros _. split; [|by intros [_ ?]]. intros (s' & Hval).
      destruct (default_search self _ _) as [[rs|e] s1] eqn:Hds.
      * destruct Hrun as (ds' & Hrun & _). congruence.
      * rewrite Hrun in Hval. injection Hval as -> _.
        by apply (nr_default_search is_value_error) in Hds.
    + intros _ _. exists nd. cbv zeta.
      destruct (default_search self _ _) as [[rs|e] s1]; [|done].
      destruct Hrun as (ds' & Hrun & _). eauto.
    + intros _ _ Hstat.
      destruct (grid_search_run self gens defs interests s Hg Hd Hstat Hpres')
        as (nd' & Hrun'). eauto.
  - (* the default of some interest is not among its candidates *)
    assert (Ha : absent) by (by apply Hab).
    destruct (grid_copy_loop_raises self gens defs (heap s) interests Hg Hd
                Hcands Hpres [] []
                (set_heap (heap s ++ [ODict []]) s) eq_refl)
      as (e & s' & Hloop & He & Hval).
    assert (Hrun : one_value_grid_search self interests s = (Raise e, s')).
    { rewrite (grid_search_first_part_any self gens interests s Hg Hcands).
      cbv zeta. by apply bind_Raise. }
    rewrite Hrun.
    split; [|split; [done|split; [|split; done]]].
    + split; [|done]. intros (msg & s'' & Hass). injection Hass as -> _.
      by destruct He.
    + intros Hstat. split; [done|]. intros _.
      rewrite (Hval Hstat). eauto.
Qed.

End Properties.

(** * The properties at the concrete searchers *)

Lemma ex_iter_set_elements (X : gset string) : ex_iter_set X ≡ₚ elements X.
Proof. reflexivity. Qed.

(** C1 (failing input): for the searcher over [{'lr': [1, 2]}],
    [random_dict()] raises [NameError] for the unbound global [np] where an
    element of the list is expected. *)
Theorem random_dict_candidates_raise :
  random_dict None ex_list_self ex_list_store
  = (Raise (NameError "np"), ex_list_store).
Proof. reflexivity. Qed.

(** C2 (failing input): for the searcher over [{'a': 1, 'b': 2}] with the
    default [{'a': 7}], [one_value_search(['a', 'b'], 3)] raises [IndexError]
    in its third round instead of returning three dictionaries.  By then the
    three default dictionaries have been allocated (references 3 to 5), ['a']
    has been drawn in the first and ['b'] in the second. *)
Theorem one_value_search_remainder_raises :
  one_value_search None ex_remainder_self ["a"; "b"]%string 3
    ex_remainder_store
  = (Raise IndexError,
     set_heap (heap ex_remainder_store
               ++ [ODict [("a"%string, PyOther 1); ("b"%string, PyOther 2)];
                   ODict [("a"%string, PyOther 7); ("b"%string, PyOther 2)];
                   ODict [("a"%string, PyOther 7); ("b"%string, PyOther 2)]])
              ex_remainder_store).
Proof. reflexivity. Qed.

(** C6 at [one_value_search(['a', 'b'], 1)]: one too few. *)
Lemma one_value_search_n_too_small_witness :
  one_value_search None ex_fixed_self ["a"; "b"]%string 1 ex_fixed_store
  = (Raise (AssertionError (NRepError 0 1 2)), ex_fixed_store).
Proof.
  pose proof (one_value_search_n_too_small None ex_fixed_self
                ["a"; "b"]%string 1 ex_fixed_store ltac:(discriminate)) as H.
  cbv zeta in H. destruct H as (_ & H & _). apply H. simpl. lia.
Defined.

(** C5 at the constructor call with an unknown default key and a callable
    that raises: both problems are reported. *)
Lemma init_fails_exactly_witness :
  ∃ s', __init__ ex_iter_set 1%nat (Some 2%nat) ex_init_store
        = (Raise (AssertionError
                    (Problems (config_problems ex_iter_set ex_init_gens ex_init_defs
                                 0%nat))), s')
        ∧ CallError "f" "boom"
          ∈ config_problems ex_iter_set ex_init_gens ex_init_defs 0%nat.
Proof.
  pose proof (init_fails_exactly ex_iter_set ex_iter_set_elements 1%nat (Some 2%nat) ex_init_gens ex_init_defs
                ex_init_store eq_refl eq_refl) as H.
  cbv zeta in H. destruct H as (_ & _ & _ & _ & _ & Hcall & _ & Hfail & _).
  { apply (bool_decide_unpack _). vm_compute. exact I. }
  assert (Hin : CallError "f" "boom"
                ∈ config_problems ex_iter_set ex_init_gens ex_init_defs 0%nat).
  { apply Hcall. vm_compute. left. }
  destruct Hfail as (s' & Hs').
  { intros Hnil.
    change (config_problems ex_iter_set ex_init_gens ex_init_defs 0%nat = []) in Hnil.
    rewrite Hnil in Hin. by apply elem_of_nil in Hin. }
  exists s'. split; [exact Hs'|exact Hin].
Defined.

(** C3 at the specification's example: four dictionaries. *)
Lemma grid_search_one_factor_at_a_time_witness :
  ∃ rs s', one_value_grid_search ex_grid_self ["a"; "b"]%string ex_grid_store
           = (Ok rs, s')
           ∧ Z.of_nat (length rs) = 4.
Proof.
  destruct (grid_search_one_factor_at_a_time ex_grid_self ex_grid_gens []
              ["a"; "b"]%string ex_grid_store eq_refl eq_refl)
    as (rs & s' & r0 & s0 & d0 & Hrun & _ & _ & Hlen & _).
  - intros k f Hk. unfold ex_grid_gens in Hk. simpl in Hk.
    repeat case_decide; discriminate.
  - intros k l Hk _. unfold ex_grid_gens in Hk. simpl in Hk.
    repeat case_decide; try discriminate; injection Hk as <-;
      by eexists _, _.
  - intros k Hk.
    apply elem_of_cons in Hk as [->|Hk].
    { exists [1; 2; 3], 1. split; [done|]. split; [done|].
      split; [left|done]. }
    apply elem_of_cons in Hk as [->|Hk].
    { exists [10; 20], 10. split; [done|]. split; [done|].
      split; [left|done]. }
    by apply elem_of_nil in Hk.
  - exists rs, s'. split; [exact Hrun|]. rewrite Hlen. reflexivity.
Defined.

(** C3, as stated, fails at the searcher over [{'a': [1, 2], 'b': []}] with
    the interest ['a']: the interest is list-valued, its default 1 is among
    its candidates and occurs there once, and no hyperparameter is callable;
    yet the call does not return, because ['b'], which is no interest, has
    no default ([IndexError] when the default dictionaries are built). *)
Lemma grid_search_one_factor_counterexample :
  (∀ k, k ∈ ["a"%string] →
     ∃ ys x, candidates (heap ex_empty_store) ex_empty_gens k = Some ys
             ∧ static_default (heap ex_empty_store) ex_empty_gens [] k
               = Some (PyOther x)
             ∧ x ∈ ys ∧ occurrences x ys = 1%nat)
  ∧ (∀ k f, dict_get ex_empty_gens k = Some (PyCallable f) →
            is_Some (dict_get ([] : @dict Z nat) k))
  ∧ ¬ ∃ rs s', one_value_grid_search ex_empty_self ["a"%string]
                 ex_empty_store = (Ok rs, s').
Proof.
  split; [|split].
  - intros k Hk. apply list_elem_of_singleton in Hk. subst k.
    exists [1; 2], 1. split; [done|]. split; [done|]. split; [left|done].
  - intros k f Hk. unfold ex_empty_gens in Hk. simpl in Hk.
    repeat case_decide; discriminate.
  - intros (rs & s' & Hrun). vm_compute in Hrun. discriminate Hrun.
Qed.

(** C7, as stated, fails at the searcher over [{'a': [1, 2], 'b': []}]:
    [default_search(1)] returns no dictionary, because [default_dict()]
    raises [IndexError] for ['b']. *)
Lemma search_is_n_calls_counterexample :
  ¬ ∃ rs s', default_search ex_empty_self 1 ex_empty_store = (Ok rs, s')
             ∧ length rs = 1%nat.
Proof. intros (rs & s' & Hrun & _). vm_compute in Hrun. discriminate Hrun. Qed.

(** C4, as stated, fails at two searchers.  With [{'a': [1, 2]}] and the
    default [{'a': 5}] the default is not among the candidates, and the call
    raises [ValueError], which is no assertion failure.  With
    [{'a': [1, 2], 'b': []}] the only interest ['a'] is list-valued and its
    default 1 is among its candidates, and still the call does not return:
    it raises [IndexError] when the default of ['b'] is looked up. *)
Lemma grid_search_claim_counterexample :
  ¬ ((∃ msg s', one_value_grid_search ex_absent_self ["a"%string]
                  ex_absent_store = (Raise (AssertionError msg), s'))
     ↔ ((∃ k, k ∈ ["a"%string] ∧ ∀ l, dict_get ex_absent_gens k ≠ Some (PyList l))
        ∨ (∃ k, k ∈ ["a"%string]
                ∧ default_present (heap ex_absent_store) ex_absent_gens
                    ex_absent_defs k = false)))
  ∧ ¬ (¬ ((∃ k, k ∈ ["a"%string]
                ∧ ∀ l, dict_get ex_empty_gens k ≠ Some (PyList l))
          ∨ (∃ k, k ∈ ["a"%string]
                  ∧ default_present (heap ex_empty_store) ex_empty_gens []
                      k = false))
       → ∃ rs s', one_value_grid_search ex_empty_self ["a"%string]
                    ex_empty_store = (Ok rs, s')).
Proof.
  split.
  - intros [_ Hclaim]. destruct Hclaim as (msg & s' & Hrun).
    + right. exists "a"%string. split; [left|reflexivity].
    + vm_compute in Hrun. discriminate Hrun.
  - intros Hclaim. destruct Hclaim as (rs & s' & Hrun).
    + intros [(k & Hk & Hnot)|(k & Hk & Habs)];
        apply list_elem_of_singleton in Hk; subst k.
      * by apply (Hnot 0%nat).
      * vm_compute in Habs. discriminate Habs.
    + vm_compute in Hrun. discriminate Hrun.
Qed.

(** C4, as the code has it, at two calls.  Over [{'a': 1, 'b': 2}] the
    interest ['a'] is not list-valued, and [one_value_grid_search(['a'])]
    fails its assertion.  Over [{'a': [1, 2], 'f': f}], where the callable
    [f] has no default, [one_value_grid_search(['a'])] returns: the default
    dictionaries are built with calls of [f]. *)
Lemma grid_search_outcomes_witness :
  one_value_grid_search ex_fixed_self ["a"%string] ex_fixed_store
  = (Raise (AssertionError NoMessage), ex_fixed_store)
  ∧ ∃ rs s', one_value_grid_search ex_factory_self ["a"%string]
               ex_factory_store = (Ok rs, s').
Proof.
  split.
  - pose proof (grid_search_outcomes ex_fixed_self
                  [("a"%string, PyOther 1); ("b"%string, PyOther 2)] []
                  ["a"%string] ex_fixed_store eq_refl eq_refl) as H.
    cbv zeta in H. destruct H as (_ & H & _).
    + intros k Hk. apply list_elem_of_singleton in Hk. subst k. by eexists.
    + intros k l Hl. simpl in Hl. repeat case_decide; discriminate.
    + apply H. exists "a"%string. split; [left|]. intros l. discriminate.
  - pose proof (grid_search_outcomes ex_factory_self ex_factory_gens []
                  ["a"%string] ex_factory_store eq_refl eq_refl) as H.
    cbv zeta in H. destruct H as (_ & _ & _ & H & _).
    + intros k Hk. apply list_elem_of_singleton in Hk. subst k. by eexists.
    + intros k l Hl. unfold ex_factory_gens in Hl. simpl in Hl.
      repeat case_decide; try discriminate. injection Hl as <-.
      by eexists.
    + destruct H as (nd & H).
      * intros (k & Hk & Hnot). apply list_elem_of_singleton in Hk. subst k.
        by apply (Hnot 0%nat).
      * intros (k & Hk & Habs). apply list_elem_of_singleton in Hk. subst k.
        vm_compute in Habs. discriminate Habs.
      * destruct (default_search _ _ _) as [[rs|e] s1] eqn:Hds.
        -- destruct H as (s' & H). eauto.
        -- vm_compute in Hds. discriminate Hds.
Defined.

(** C8 at [custom_search({'z': f}, 3)] over [{'a': 1, 'b': 2}], where [f]
    returns the number of calls made before: the three dictionaries hold
    [z == 0], [z == 1] and [z == 2], and the other keys their defaults. *)
Lemma custom_search_overrides_witness :
  custom_search None ex_fixed_self 3%nat 3 ex_fresh_store
  = (Ok [4; 5; 6]%nat,
     Store (heap ex_fresh_store
            ++ [ODict [("a"%string, PyOther 1); ("b"%string, PyOther 2);
                       ("z"%string, PyOther 0)];
                ODict [("a"%string, PyOther 1); ("b"%string, PyOther 2);
                       ("z"%string, PyOther 1)];
                ODict [("a"%string, PyOther 1); ("b"%string, PyOther 2);
                       ("z"%string, PyOther 2)]])
           3%nat []).
Proof.
  destruct (custom_search_overrides None ex_fixed_self 3%nat ex_fresh_items
              3 ex_fresh_store [4; 5; 6]%nat
              (set_heap (heap ex_fresh_store
                         ++ replicate 3 (ODict [("a"%string, PyOther 1);
                                                ("b"%string, PyOther 2)]))
                        ex_fresh_store) eq_refl)
    as (ds & Hh & _ & _ & Hrun).
  - apply (bool_decide_unpack _). vm_compute. exact I.
  - intros k g Hin. apply list_elem_of_singleton in Hin.
    by injection Hin as _ ->.
  - reflexivity.
  - simpl in Hh. injection Hh as Hh.
    destruct ds as [|d1 [|d2 [|d3 [|d4 ds]]]]; try discriminate Hh.
    injection Hh as <- <- <-.
    cbn [override_dicts override_dict ex_fresh_items draw] in Hrun.
    simpl world in Hrun. cbn iota in Hrun.
    destruct Hrun as [Hrun _]. exact Hrun.
Defined.

(** C8, as stated, fails at two calls.  With the overrides [{'z': f}],
    where the call of [f] raises, the call raises and returns no dictionary;
    and over [{'a': [1, 2], 'b': []}], where [default_search] raises
    [IndexError], so does [custom_search({'z': 99}, 1)]. *)
Lemma custom_search_overrides_counterexample :
  ¬ (∃ rs s', custom_search None ex_fixed_self 3%nat 1 ex_raising_store
              = (Ok rs, s'))
  ∧ ¬ (∃ rs s', custom_search None ex_empty_self 5%nat 1
                  ex_empty_custom_store = (Ok rs, s')).
Proof.
  split; intros (rs & s' & Hrun); vm_compute in Hrun; discriminate Hrun.
Qed.

(** X1 at the construction over [{'x': [1, 2], 'c': 3}] with the defaults
    [{'c': 4}]: the searcher holds the copy at reference 3 and the caller's
    defaults map at reference 2. *)
Lemma init_copies_generators_witness :
  ∃ s', __init__ ex_iter_set 1%nat (Some 2%nat) ex_shared_store
        = (Ok (Searcher 3%nat 2%nat), s')
        ∧ heap s' = heap ex_shared_store ++ [ODict ex_shared_gens].
Proof.
  destruct (__init__ ex_iter_set 1%nat (Some 2%nat) ex_shared_store) as [r s'] eqn:Hrun.
  destruct (init_copies_generators ex_iter_set ex_iter_set_elements 1%nat (Some 2%nat) ex_shared_gens
              ex_shared_defs ex_shared_store r s' eq_refl eq_refl)
    as [Hheap _]; [|exact Hrun|].
  { apply (bool_decide_unpack _). vm_compute. exact I. }
  exists s'. split; [|exact Hheap].
  vm_compute in Hrun. injection Hrun as <- <-. reflexivity.
Defined.

(** X2 at the construction over [{'f': f, 'x': [1, 2]}], which fails: [f]
    has been called once, and the warning about ['f'] has been logged. *)
Lemma init_probes_and_warns_witness :
  world (__init__ ex_iter_set 1%nat (Some 2%nat) ex_init_store).2 = 1%nat
  ∧ warned (__init__ ex_iter_set 1%nat (Some 2%nat) ex_init_store).2
    = [NoDefaultValues {["f"%string]}].
Proof.
  destruct (__init__ ex_iter_set 1%nat (Some 2%nat) ex_init_store) as [r s'] eqn:Hrun.
  destruct (init_probes_and_warns ex_iter_set ex_iter_set_elements 1%nat (Some 2%nat) ex_init_gens
              ex_init_defs ex_init_store r s' eq_refl eq_refl)
    as (Hworld & _ & _ & Hwarned & _); [|exact Hrun|].
  { apply (bool_decide_unpack _). vm_compute. exact I. }
  simpl. rewrite Hworld, Hwarned. split; vm_compute; reflexivity.
Defined.

(** X3 at the searcher over [{'x': [1, 2], 'c': 3}] with the defaults
    [{'c': 4}]: after the caller has stored 9 under ['x'] in its defaults
    map, the default of ['x'] is 9. *)
Lemma init_aliases_defaults_witness :
  ∃ self s1,
    __init__ ex_iter_set 1%nat (Some 2%nat) ex_shared_store = (Ok self, s1)
    ∧ ((dict_setitem 2%nat "x" (PyOther 9);; _choose_default self "x") s1).1
      = Ok (PyOther 9).
Proof.
  destruct (__init__ ex_iter_set 1%nat (Some 2%nat) ex_shared_store) as [r s1] eqn:Hrun.
  assert (Hr : r = Ok (Searcher 3%nat 2%nat)).
  { vm_compute in Hrun. by injection Hrun as <- _. }
  subst r. exists (Searcher 3%nat 2%nat), s1. split; [reflexivity|].
  destruct (init_aliases_defaults ex_iter_set ex_iter_set_elements 1%nat 2%nat ex_shared_gens ex_shared_defs
              ex_shared_store (Searcher 3%nat 2%nat) s1 eq_refl eq_refl)
    as [Hshared _];
    [|exact Hrun|].
  { apply (bool_decide_unpack _). vm_compute. exact I. }
  by rewrite Hshared.
Defined.

(** X4 at [default_search(2)] of the searcher over [{'lr': [1, 2]}]: two
    dictionaries [{'lr': 1}]. *)
Lemma default_search_content_witness :
  ∃ rs s' d0,
    default_search ex_list_self 2 ex_list_store = (Ok rs, s')
    ∧ length rs = 2%nat
    ∧ (∀ r, r ∈ rs → heap s' !! r = Some (ODict d0))
    ∧ dict_get d0 "lr" = Some (PyOther 1).
Proof.
  destruct (default_search_content ex_list_self
              [("lr"%string, PyList 0%nat)] [] 2 ex_list_store
              eq_refl eq_refl)
    as (rs & s' & d0 & Hrun & Hlen & _ & _ & _ & _ & Hrs & _ & Hd0).
  { apply (bool_decide_unpack _). vm_compute. exact I. }
  { intros k Hk. apply list_elem_of_singleton in Hk. subst k. by eexists. }
  exists rs, s', d0. split; [exact Hrun|]. split; [exact Hlen|].
  split; [intros r Hr; by apply Hrs|].
  rewrite Hd0; [reflexivity|]. simpl. left.
Defined.

(** X5 at the searcher over [{'a': [1, 2], 'b': []}]: no default
    dictionary. *)
Lemma default_dict_empty_candidates_witness :
  default_dict ex_empty_self ex_empty_store
  = (Raise IndexError, ex_empty_store).
Proof.
  destruct (default_dict_empty_candidates ex_empty_self ex_empty_gens []
              "b" 1%nat ex_empty_store eq_refl eq_refl eq_refl eq_refl
              eq_refl) as [Hrun _]; [|exact Hrun].
  intros k Hk Hne. simpl in Hk.
  apply elem_of_cons in Hk as [->|Hk]; [by eexists|].
  apply list_elem_of_singleton in Hk. done.
Defined.

(** X6 at the searcher over [{'f': f}]: the default of ['f'] is what the
    second call of [f] returns, and the missing default is logged. *)
Lemma choose_default_dynamic_witness :
  _choose_default ex_counter_self "f" ex_counter_store
  = (Ok (PyOther 1),
     Store (heap ex_counter_store) 2%nat
           [NoDefaultValues {["f"%string]}; MissingDefault "f"]).
Proof.
  destruct (choose_default_dynamic ex_counter_self ex_counter_gens [] "f"
              ex_counter_store eq_refl eq_refl) as [Hcall _].
  exact (Hcall _ eq_refl eq_refl).
Defined.

(** X7 at [one_value_search(['a', 'b'], 4)] over [{'a': 1, 'b': 2}]: four
    dictionaries, two rounds for each interest. *)
Lemma one_value_search_blocks_witness :
  ∃ s', one_value_search None ex_fixed_self ["a"; "b"]%string 4
          ex_fixed_store
        = (Ok [3; 4; 5; 6]%nat, s').
Proof.
  destruct (one_value_search_blocks None ex_fixed_self
              [("a"%string, PyOther 1); ("b"%string, PyOther 2)]
              ["a"; "b"]%string 4 ex_fixed_store eq_refl)
    as [Hreturns _]; [discriminate|].
  apply (Hreturns [3; 4; 5; 6]%nat
           (set_heap (heap ex_fixed_store
                      ++ replicate 4 (ODict [("a"%string, PyOther 1);
                                             ("b"%string, PyOther 2)]))
                     ex_fixed_store)); [reflexivity|lia|reflexivity|].
  intros name Hname.
  apply elem_of_cons in Hname as [->|Hname].
  { eexists. split; [reflexivity|]. intros s0. by eexists _, _. }
  apply list_elem_of_singleton in Hname. subst name.
  eexists. split; [reflexivity|]. intros s0. by eexists _, _.
Defined.

(** X8 at [one_value_search(['zz'], 1)] over [{'a': 1, 'b': 2}]: the
    default dictionary has been allocated when [KeyError] is raised. *)
Lemma one_value_search_unknown_interest_witness :
  one_value_search None ex_fixed_self ["zz"%string] 1 ex_fixed_store
  = (Raise (KeyError "zz"),
     set_heap (heap ex_fixed_store
               ++ [ODict [("a"%string, PyOther 1); ("b"%string, PyOther 2)]])
              ex_fixed_store).
Proof.
  destruct (one_value_search_unknown_interest None ex_fixed_self
              [("a"%string, PyOther 1); ("b"%string, PyOther 2)]
              "zz" [] 1 ex_fixed_store [3%nat]
              (set_heap (heap ex_fixed_store
                         ++ [ODict [("a"%string, PyOther 1);
                                    ("b"%string, PyOther 2)]])
                        ex_fixed_store) eq_refl eq_refl) as [Hrun _];
    [simpl; lia|reflexivity|exact Hrun].
Defined.

(** X9 at [one_value_grid_search(['a', 'zz'])] over
    [{'a': [1, 2, 3], 'b': [10, 20]}]. *)
Lemma grid_search_unknown_interest_witness :
  one_value_grid_search ex_grid_self ["a"; "zz"]%string ex_grid_store
  = (Raise (KeyError "zz"), ex_grid_store).
Proof.
  apply (grid_search_unknown_interest ex_grid_self ex_grid_gens
           ["a"%string] "zz" [] ex_grid_store eq_refl); [|reflexivity].
  intros k Hk. apply list_elem_of_singleton in Hk. subst k. by eexists.
Defined.

(** X10 at [one_value_grid_search(['a', 'b'])] over
    [{'a': [1, 2, 3], 'b': [10, 20]}]: the defaults, then ['a'] at 2 and at
    3, then ['b'] at 20. *)
Lemma grid_search_order_witness :
  ∃ rs s',
    one_value_grid_search ex_grid_self ["a"; "b"]%string ex_grid_store
    = (Ok rs, s')
    ∧ Forall2 (λ r d, heap s' !! r = Some (ODict d)) rs
        [[("a"%string, PyOther 1); ("b"%string, PyOther 10)];
         [("a"%string, PyOther 2); ("b"%string, PyOther 10)];
         [("a"%string, PyOther 3); ("b"%string, PyOther 10)];
         [("a"%string, PyOther 1); ("b"%string, PyOther 20)]].
Proof.
  destruct (grid_search_order ex_grid_self ex_grid_gens []
              ["a"; "b"]%string ex_grid_store eq_refl eq_refl)
    as (rs & s' & Hrun & Horder & _).
  - intros k Hk. unfold ex_grid_gens in Hk. simpl in Hk.
    apply elem_of_cons in Hk as [->|Hk]; [by eexists|].
    apply list_elem_of_singleton in Hk. subst k. by eexists.
  - intros k Hk.
    apply elem_of_cons in Hk as [->|Hk]; [reflexivity|].
    apply list_elem_of_singleton in Hk. subst k. reflexivity.
  - exists rs, s'. split; [exact Hrun|]. exact Horder.
Defined.

(** X11 at [custom_search({}, 2)] over [{'a': 1, 'b': 2}]. *)
Lemma custom_search_no_overrides_witness :
  custom_search None ex_fixed_self 3%nat 2 ex_no_override_store
  = default_search ex_fixed_self 2 ex_no_override_store.
Proof.
  exact (custom_search_no_overrides None ex_fixed_self 3%nat 2
           ex_no_override_store eq_refl).
Defined.

(** X12 at the searcher over [{'lr': [1, 2]}] with [np] bound: the random
    dictionary holds a candidate of ['lr']. *)
Lemma random_dict_within_space_witness :
  ∃ r s' d x,
    random_dict (Some ex_choice) ex_list_self ex_list_store = (Ok r, s')
    ∧ heap s' !! r = Some (ODict d)
    ∧ dict_get d "lr" = Some (PyOther x)
    ∧ x ∈ [1; 2].
Proof.
  destruct (random_dict_within_space (Some ex_choice)) with
    (self := ex_list_self) (gens := [("lr"%string, @PyList Z nat 0%nat)])
    (s := ex_list_store) as [Hreturns Hcontent].
  - intros choice ys w x w' [= <-] Hc. unfold ex_choice in Hc.
    destruct ys as [|y ys]; [discriminate|]. injection Hc as <- _. left.
  - reflexivity.
  - apply (bool_decide_unpack _). vm_compute. exact I.
  - destruct Hreturns as (r & s' & Hrun).
    { intros k g Hk s0 Hs0. simpl in Hk.
      case_decide; [|discriminate]. injection Hk as <-.
      unfold _generate_random, np_random_choice. simpl.
      destruct s0 as [h0 w0 wr0]. simpl in Hs0. subst h0.
      by eexists _, _. }
    destruct (Hcontent r s' Hrun) as (-> & d & Hh & _ & Hd).
    destruct (Hd "lr"%string (PyList 0%nat) eq_refl)
      as (v & Hv & ys & x & Hys & -> & Hx).
    injection Hys as <-.
    exists 4%nat, s', d, x. split; [exact Hrun|].
    split; [|split; [exact Hv|exact Hx]].
    rewrite Hh. reflexivity.
Defined.
